(** * The semantic cache of the code editor, embedded in Rocq

    The development follows the TypeScript sources

    - [src/lib/embedding-service.ts]  (context builders, embedding, similarity),
    - [src/lib/semantic-cache.ts]     (lookup, write, id generation, eviction),
    - [src/app/api/code-suggestion/stream/route.ts] (code endpoint),
    - the chat streaming endpoint     (chat endpoint),

    and proves the properties the specification states about them.

    Data.  A JavaScript [number] that holds an embedding component or a
    similarity score is a binary64 float, modelled by Rocq's primitive
    [float] (the same IEEE 754 format, the same rounding).  Numbers that
    are integers by construction (line and column numbers, counters,
    millisecond time stamps, lengths) are modelled by [Z].  Strings are
    [string]: a character stands for one UTF-16 code unit below 256, and
    its code is the code of the [ascii] character.

    Effects.  The Redis server, the clock, the console, the embedding
    model and the generation backend are external.  They are modelled by
    an explicit [World] that is threaded through a state-and-exception
    monad: every Redis command can fail (the connection may drop at any
    moment), and a failed command throws, exactly as an awaited rejected
    promise does.  Of the console only the calls of [console.error] are
    recorded; the informative [console.log] lines change nothing and are
    left out.  The requests of one process are taken one at a time. *)

From Stdlib Require Import ZArith List String Ascii Bool Lia Floats.
From Stdlib Require Import DecimalString Permutation Sorted.
Import ListNotations.

Set Warnings "-inexact-float".

Open Scope Z_scope.
Open Scope string_scope.

(* ================================================================== *)
(** * JavaScript primitives used by the sources                        *)
(* ================================================================== *)

Module Js.

(** The decimal digits of an integer. *)
Definition digits (n : Z) : string := NilZero.string_of_int (Z.to_int n).

(** A number is a double.  The double nearest to a positive integer, as
    an integer (ties go to the even mantissa); [None] stands for
    Infinity.  An integer below 2^53 is a double. *)
Definition toDouble (n : Z) : option Z :=
  let b := Z.log2 n in
  if (b <? 53)%Z then Some n
  else
    let ulp := 2 ^ (b - 52) in
    let q := n / ulp in
    let r := n mod ulp in
    let half := ulp / 2 in
    let q' := if (r <? half)%Z then q
              else if (half <? r)%Z then q + 1
              else if Z.even q then q else q + 1 in
    if (2 ^ 1024 <=? q' * ulp)%Z then None else Some (q' * ulp).

(** The number of decimal digits of a positive integer. *)
Definition numDigits (n : Z) : Z := Z.of_nat (String.length (digits n)).

(** The conversion of a number to a string takes the decimal number of
    the fewest digits that denotes the double [d], and among several the
    one nearest to [d].  For [k] digits the two multiples of the unit
    around [d] are tried; they denote [d] when they lie between the
    midpoints to the neighbours of [d], given here doubled ([lo2],
    [hi2]); the midpoints themselves count when the mantissa is even. *)
Fixpoint shortestFrom (fuel : nat) (k : Z) (d lo2 hi2 : Z) (inclusive : bool) : Z :=
  match fuel with
  | O => d
  | S fuel' =>
      let unit := 10 ^ (numDigits d - k) in
      let below := (d / unit) * unit in
      let above := below + unit in
      let inRange v :=
        if inclusive then (lo2 <=? 2 * v)%Z && (2 * v <=? hi2)%Z
        else (lo2 <? 2 * v)%Z && (2 * v <? hi2)%Z in
      match inRange below, inRange above with
      | true, true =>
          if (d - below <? above - d)%Z then below
          else if (above - d <? d - below)%Z then above
          else if Z.even (d / unit) then below else above
      | true, false => below
      | false, true => above
      | false, false => shortestFrom fuel' (k + 1) d lo2 hi2 inclusive
      end
  end.

(** For a double [d] that is an integer not below 2^53. *)
Definition shortest (d : Z) : Z :=
  let ulp := 2 ^ (Z.log2 d - 52) in
  let m := d / ulp in
  let down := if (m =? 2 ^ 52)%Z then ulp / 2 else ulp in
  shortestFrom 17 1 d (2 * d - down) (2 * d + ulp) (Z.even m).

Fixpoint stripZeros (fuel : nat) (v : Z) : Z :=
  match fuel with
  | O => v
  | S fuel' => if (v mod 10 =? 0)%Z then stripZeros fuel' (v / 10) else v
  end.

(** The exponent notation of the numbers from 1e21 on: the digits
    without their final zeros, a point after the first digit when there
    are more, and the exponent. *)
Definition exponential (v : Z) : string :=
  let significand := digits (stripZeros (Z.to_nat (numDigits v)) v) in
  let exponent := digits (numDigits v - 1) in
  match significand with
  | EmptyString => ""
  | String c EmptyString => String c ("e+" ++ exponent)
  | String c rest => String c ("." ++ rest ++ "e+" ++ exponent)
  end.

Definition showPositive (n : Z) : string :=
  match toDouble n with
  | None => "Infinity"
  | Some d =>
      if (Z.log2 d <? 53)%Z then digits d
      else
        let v := shortest d in
        if (10 ^ 21 <=? v)%Z then exponential v else digits v
  end.

(** [`${n}`] for an integer [n]: all its digits up to 2^53; beyond, the
    digits that tell its double from the neighbouring ones, followed by
    zeros, and from 1e21 on the exponent notation. *)
Definition show (n : Z) : string :=
  if (n =? 0)%Z then "0"
  else if (n <? 0)%Z then "-" ++ showPositive (- n)
  else showPositive n.

(** [s.length] *)
Definition strlen (s : string) : Z := Z.of_nat (String.length s).

(** [s.charCodeAt(i)] for the characters of [s], in order. *)
Fixpoint charCodes (s : string) : list Z :=
  match s with
  | EmptyString => []
  | String c s' => Z.of_nat (nat_of_ascii c) :: charCodes s'
  end.

(** [!s] for a string: only the empty string is falsy. *)
Definition falsy (s : string) : bool :=
  match s with EmptyString => true | _ => false end.

Definition truthy (s : string) : bool := negb (falsy s).

(** [s.split('\n')]: never empty, the empty string gives one empty line. *)
Fixpoint split_lines (s : string) : list string :=
  match s with
  | EmptyString => [""]
  | String c s' =>
      if Ascii.eqb c "010"%char then "" :: split_lines s'
      else match split_lines s' with
           | l :: ls => String c l :: ls
           | [] => [String c ""]
           end
  end.

(** [xs.join('\n')] *)
Definition join_lines (xs : list string) : string :=
  String.concat (String "010"%char "") xs.

(** Clamping of an index of [slice]: a negative index counts from the end. *)
Definition rel_index (len i : Z) : Z :=
  if (i <? 0)%Z then Z.max (len + i) 0 else Z.min i len.

(** [xs.slice(start, fin)] *)
Definition slice {A : Type} (start fin : Z) (xs : list A) : list A :=
  let len := Z.of_nat (List.length xs) in
  let k := rel_index len start in
  let f := rel_index len fin in
  firstn (Z.to_nat (f - k)) (skipn (Z.to_nat k) xs).

(** [xs[i]], [None] standing for [undefined]. *)
Definition index {A : Type} (xs : list A) (i : Z) : option A :=
  if (i <? 0)%Z then None else nth_error xs (Z.to_nat i).

(** [s.substring(a, b)]: both indices are clamped to [0 .. length] and
    swapped when [a > b]. *)
Definition clamp (len i : Z) : Z := Z.max 0 (Z.min i len).

Definition substring (a b : Z) (s : string) : string :=
  let len := strlen s in
  let a' := clamp len a in
  let b' := clamp len b in
  let lo := Z.min a' b' in
  let hi := Z.max a' b' in
  String.substring (Z.to_nat lo) (Z.to_nat (hi - lo)) s.

(** The white space and the line terminators, which [trim] removes:
    among the characters of a code below 256 these are the tabulation,
    the line feed, the vertical tabulation, the form feed, the carriage
    return, the space and the no-break space (code 160). *)
Definition is_space (c : ascii) : bool :=
  let n := nat_of_ascii c in
  (((9 <=? n) && (n <=? 13)) || (n =? 32) || (n =? 160))%nat.

Fixpoint trim_start (s : string) : string :=
  match s with
  | EmptyString => ""
  | String c s' => if is_space c then trim_start s' else s
  end.

Fixpoint trim_end (s : string) : string :=
  match s with
  | EmptyString => ""
  | String c s' =>
      let t := trim_end s' in
      if is_space c && falsy t then "" else String c t
  end.

(** [s.trim()] *)
Definition trim (s : string) : string := trim_end (trim_start s).

(** [ToInt32]: the value of a bitwise operator's operand. *)
Definition toInt32 (x : Z) : Z := (x + 2 ^ 31) mod 2 ^ 32 - 2 ^ 31.

(** One digit of [toString(36)]. *)
Definition digit36 (d : Z) : ascii :=
  if (d <? 10)%Z then ascii_of_nat (Z.to_nat (48 + d))
  else ascii_of_nat (Z.to_nat (97 + (d - 10))).

Fixpoint toString36_aux (fuel : nat) (n : Z) (acc : string) : string :=
  match fuel with
  | O => acc
  | S fuel' =>
      let acc' := String (digit36 (n mod 36)) acc in
      if (n / 36 =? 0)%Z then acc' else toString36_aux fuel' (n / 36) acc'
  end.

(** [n.toString(36)] for an integer [n >= 0]. *)
Definition toString36 (n : Z) : string :=
  toString36_aux (S (Z.to_nat (Z.log2 n))) n "".

End Js.

(* ================================================================== *)
(** * The world outside the program: Redis, clock, model, console      *)
(* ================================================================== *)

Module Runtime.

(** [interface CacheEntry] of src/lib/semantic-cache.ts; it is declared
    here because the values stored in Redis are serialised entries. *)
Record CacheEntry : Type := mkCacheEntry {
  id : string;
  context : string;
  embedding : list float;
  suggestion : string;
  language : string;
  framework : string;
  timestamp : Z;
  hitCount : Z
}.

(** A value stored under a Redis key is a string.  [Json e] is
    [JSON.stringify(e)], which [JSON.parse] turns back into [e]; [Raw s]
    is a string [s] that [JSON.parse] rejects (a corrupted entry).  The
    cache writes values of the first kind only. *)
Inductive RedisValue : Type :=
| Json (e : CacheEntry)
| Raw (s : string).

(** [JSON.parse(v)], [None] when it throws. *)
Definition JSON_parse (v : RedisValue) : option CacheEntry :=
  match v with
  | Json e => Some e
  | Raw _ => None
  end.

(** [!v] is true of the empty string only; a serialised entry is never
    empty. *)
Definition valueTruthy (v : RedisValue) : bool :=
  match v with
  | Json _ => true
  | Raw s => Js.truthy s
  end.

(** A key of the store with its value and the time (in milliseconds) at
    which it expires. *)
Record Item : Type := mkItem {
  item_key : string;
  item_value : RedisValue;
  item_expiry : Z
}.

Inductive RedisCmd : Type :=
| CmdConnect
| CmdKeys (pattern : string)
| CmdGet (key : string)
| CmdSetEx (key : string) (seconds : Z) (value : RedisValue)
| CmdDel (keys : list string).

(** The call sites of [console.error]. *)
Inductive ConsoleError : Type :=
| ErrEmbedding       (* 'Error generating embedding:'     *)
| ErrParseEntry      (* 'Error parsing cache entry:'      *)
| ErrLookup          (* 'Error in semantic cache lookup:' *)
| ErrCaching         (* 'Error caching suggestion:'       *)
| ErrCleanup         (* 'Error during cache cleanup:'     *)
| ErrStats           (* 'Error getting cache stats:'      *)
| ErrStreaming       (* 'Streaming error:'                *)
| ErrStreamingChat   (* 'Streaming chat error:'           *)
| ErrChatSetup       (* 'Chat streaming setup error:'     *)
| ErrCacheTest.      (* 'Cache test error:'               *)

Record World : Type := mkWorld {
  (** [Date.now()], also the clock of the Redis server *)
  clock : Z;
  (** the keys held by the Redis server, in the order [KEYS] lists them *)
  items : list Item;
  (** the glob matcher of the Redis server: pattern, then key *)
  stringmatch : string -> string -> bool;
  (** the fate of the commands to come: [true] rejects the command
      (connection lost); when the list is exhausted commands succeed *)
  faults : list bool;
  (** the commands sent to Redis so far, the latest first *)
  issued : list RedisCmd;
  (** the embedding model: [None] when loading or inference throws *)
  embedder : string -> option (list float);
  (** the generation backend: the chunks it streams for a prompt, [None]
      when the request fails *)
  backend : string -> option (list string);
  (** the prompts sent to the generation backend, the latest first *)
  generated : list string;
  (** the calls of [console.error], the latest first *)
  console : list ConsoleError
}.

Definition with_items (its : list Item) (w : World) : World :=
  mkWorld (clock w) its (stringmatch w) (faults w) (issued w)
          (embedder w) (backend w) (generated w) (console w).

Definition with_command (c : RedisCmd) (w : World) : World :=
  mkWorld (clock w) (items w) (stringmatch w) (tl (faults w)) (c :: issued w)
          (embedder w) (backend w) (generated w) (console w).

Definition with_error (e : ConsoleError) (w : World) : World :=
  mkWorld (clock w) (items w) (stringmatch w) (faults w) (issued w)
          (embedder w) (backend w) (generated w) (e :: console w).

(** The world at a later time. *)
Definition with_clock (t : Z) (w : World) : World :=
  mkWorld t (items w) (stringmatch w) (faults w) (issued w)
          (embedder w) (backend w) (generated w) (console w).

Definition with_prompt (p : string) (w : World) : World :=
  mkWorld (clock w) (items w) (stringmatch w) (faults w) (issued w)
          (embedder w) (backend w) (p :: generated w) (console w).

(** ** The monad of the asynchronous code: state and exceptions *)

Inductive Outcome (A : Type) : Type :=
| Returned (a : A)
| Thrown.

Arguments Returned {A} a.
Arguments Thrown {A}.

Definition M (A : Type) : Type := World -> Outcome A * World.

Definition ret {A : Type} (a : A) : M A := fun w => (Returned a, w).

Definition bind {A B : Type} (m : M A) (k : A -> M B) : M B :=
  fun w =>
    match m w with
    | (Returned a, w') => k a w'
    | (Thrown, w') => (Thrown, w')
    end.

(** A statement that throws. *)
Definition throw {A : Type} : M A := fun w => (Thrown, w).

(** [try { body } catch (error) { handler }] *)
Definition try_catch {A : Type} (body : M A) (handler : M A) : M A :=
  fun w =>
    match body w with
    | (Returned a, w') => (Returned a, w')
    | (Thrown, w') => handler w'
    end.

Notation "x <- m ;; k" := (bind m (fun x => k))
  (at level 61, m at next level, right associativity).
Notation "m ;;; k" := (bind m (fun _ => k))
  (at level 61, right associativity).

Definition Date_now : M Z := fun w => (Returned (clock w), w).

Definition console_error (e : ConsoleError) : M unit :=
  fun w => (Returned tt, with_error e w).

(** ** Redis *)

(** A key whose expiration has elapsed is unreadable. *)
Definition live (now : Z) (it : Item) : bool := (now <? item_expiry it)%Z.

Definition lookupItem (now : Z) (key : string) (its : list Item) : option RedisValue :=
  match find (fun it => live now it && (item_key it =? key)%string) its with
  | Some it => Some (item_value it)
  | None => None
  end.

(** Writing a key replaces the value it holds, or adds the key. *)
Fixpoint upsert (it : Item) (its : list Item) : list Item :=
  match its with
  | [] => [it]
  | x :: its' =>
      if (item_key x =? item_key it)%string then it :: its'
      else x :: upsert it its'
  end.

Definition memString (k : string) (ks : list string) : bool :=
  existsb (String.eqb k) ks.

Definition removeKeys (ks : list string) (its : list Item) : list Item :=
  filter (fun it => negb (memString (item_key it) ks)) its.

(** A command is recorded, then fails or runs on the data. *)
Definition command {A : Type} (c : RedisCmd)
  (run : World -> A * list Item) : M A :=
  fun w =>
    let w1 := with_command c w in
    match faults w with
    | true :: _ => (Thrown, w1)
    | _ => let '(a, its) := run w in (Returned a, with_items its w1)
    end.

(** [getRedisClient()]: the first call connects, which can fail; a later
    call hands out the client.  The model treats every call as a command
    of its own, which the schedule of faults rejects or lets pass. *)
Definition getRedisClient : M unit :=
  command CmdConnect (fun w => (tt, items w)).

(** [redis.keys(pattern)] *)
Definition keys (pattern : string) : M (list string) :=
  command (CmdKeys pattern)
    (fun w =>
       (map item_key
          (filter (fun it => live (clock w) it && stringmatch w pattern (item_key it))
                  (items w)),
        items w)).

(** [redis.get(key)], [None] standing for [null]. *)
Definition get (key : string) : M (option RedisValue) :=
  command (CmdGet key) (fun w => (lookupItem (clock w) key (items w), items w)).

(** [redis.setEx(key, seconds, value)] *)
Definition setEx (key : string) (seconds : Z) (value : RedisValue) : M unit :=
  command (CmdSetEx key seconds value)
    (fun w => (tt, upsert (mkItem key value (clock w + seconds * 1000)) (items w))).

(** [redis.del(keys)] *)
Definition del (ks : list string) : M unit :=
  command (CmdDel ks) (fun w => (tt, removeKeys ks (items w))).

(** The request to the generation backend: the prompt is recorded and
    the backend answers with its chunks, or the request fails. *)
Definition fetchGenerate (prompt : string) : M (option (list string)) :=
  fun w => (Returned (backend w prompt), with_prompt prompt w).

(** ** The patterns of [KEYS]

    Redis matches the keys against a glob-style pattern: a star stands
    for any run of characters, a question mark for one character, a
    bracket opens a class that stands for one of its characters (single
    characters, ranges such as a-z, a leading caret for the complement,
    a backslash before a character that is to be taken as it is), a
    backslash takes the next character as it is, and every other
    character stands for itself. *)

(** The class that starts after the bracket (and after the caret):
    whether the character [c] is in it, and the pattern after the
    closing bracket.  A class that is not closed ends with the pattern. *)
Fixpoint classMatch (pattern : string) (c : ascii) (found : bool) : bool * string :=
  match pattern with
  | EmptyString => (found, EmptyString)
  | String p pattern' =>
      match pattern' with
      | String q pattern'' =>
          if Ascii.eqb p "\"%char then classMatch pattern'' c (found || Ascii.eqb q c)
          else if Ascii.eqb p "]"%char then (found, pattern')
          else
            match pattern'' with
            | String r pattern''' =>
                if Ascii.eqb q "-"%char then
                  let lo := Nat.min (nat_of_ascii p) (nat_of_ascii r) in
                  let hi := Nat.max (nat_of_ascii p) (nat_of_ascii r) in
                  classMatch pattern''' c
                    (found || ((lo <=? nat_of_ascii c) && (nat_of_ascii c <=? hi))%nat)
                else classMatch pattern' c (found || Ascii.eqb p c)
            | EmptyString => classMatch pattern' c (found || Ascii.eqb p c)
            end
      | EmptyString =>
          if Ascii.eqb p "]"%char then (found, EmptyString)
          else (found || Ascii.eqb p c, EmptyString)
      end
  end.

(** The matcher.  Every step uses up a character of the pattern, which
    bounds the fuel. *)
Fixpoint globFrom (fuel : nat) (pattern : string) {struct fuel} : string -> bool :=
  match fuel with
  | O => fun _ => false
  | S fuel' =>
      match pattern with
      | EmptyString => fun key => Js.falsy key
      | String p pattern' =>
          if Ascii.eqb p "*"%char then
            fix star (key : string) : bool :=
              globFrom fuel' pattern' key
              || match key with
                 | EmptyString => false
                 | String _ key' => star key'
                 end
          else
            fun key =>
              match key with
              | EmptyString => false
              | String k key' =>
                  if Ascii.eqb p "?"%char then globFrom fuel' pattern' key'
                  else if Ascii.eqb p "["%char then
                    let negated :=
                      match pattern' with
                      | String n _ => Ascii.eqb n "^"%char
                      | EmptyString => false
                      end in
                    let class :=
                      match pattern' with
                      | String n rest => if Ascii.eqb n "^"%char then rest else pattern'
                      | EmptyString => pattern'
                      end in
                    let '(found, rest) := classMatch class k false in
                    xorb negated found && globFrom fuel' rest key'
                  else if Ascii.eqb p "\"%char then
                    match pattern' with
                    | String q pattern'' => Ascii.eqb q k && globFrom fuel' pattern'' key'
                    | EmptyString => Ascii.eqb p k && globFrom fuel' pattern' key'
                    end
                  else Ascii.eqb p k && globFrom fuel' pattern' key'
              end
      end
  end.

(** The test [KEYS pattern] applies to a key. *)
Definition globMatch (pattern key : string) : bool :=
  globFrom (S (String.length pattern)) pattern key.

End Runtime.

(* ================================================================== *)
(** * src/lib/embedding-service.ts                                     *)
(* ================================================================== *)

Module EmbeddingService.

Import Runtime.

(** An embedding is a [number[]]. *)
Definition Embedding : Type := list float.

(** [new Array(384).fill(0)] *)
Definition zeroVector : Embedding := repeat 0%float 384.

(** The model is called inside [try]; when it throws, the error is
    logged and the zero vector is returned. *)
Definition generateEmbedding (text : string) : M Embedding :=
  fun w =>
    match embedder w text with
    | Some output => (Returned output, w)
    | None => (Returned zeroVector, with_error ErrEmbedding w)
    end.

(** The three accumulators of the loop of [calculateSimilarity]:
    [dotProduct], [norm1], [norm2]. *)
Fixpoint similarityLoop (e1 e2 : Embedding) (dotProduct norm1 norm2 : float)
  : float * float * float :=
  match e1, e2 with
  | x :: e1', y :: e2' =>
      similarityLoop e1' e2'
        (dotProduct + x * y)%float (norm1 + x * x)%float (norm2 + y * y)%float
  | _, _ => (dotProduct, norm1, norm2)
  end.

Definition calculateSimilarity (embedding1 embedding2 : Embedding) : float :=
  if negb (List.length embedding1 =? List.length embedding2)%nat then 0%float
  else
    let '(dotProduct, norm1, norm2) :=
      similarityLoop embedding1 embedding2 0%float 0%float 0%float in
    let magnitude := (sqrt norm1 * sqrt norm2)%float in
    if (magnitude =? 0)%float then 0%float else (dotProduct / magnitude)%float.

(** The sums the loop computes, each on its own, in the loop's order. *)
Fixpoint dotFrom (acc : float) (e1 e2 : Embedding) : float :=
  match e1, e2 with
  | x :: e1', y :: e2' => dotFrom (acc + x * y)%float e1' e2'
  | _, _ => acc
  end.

Fixpoint normSqFrom (acc : float) (e : Embedding) : float :=
  match e with
  | x :: e' => normSqFrom (acc + x * x)%float e'
  | [] => acc
  end.

Definition dot (e1 e2 : Embedding) : float := dotFrom 0%float e1 e2.
Definition normSq (e : Embedding) : float := normSqFrom 0%float e.

Definition contextRadius : Z := 5.

Definition createCodeContext
  (fileContent : string) (cursorLine cursorColumn : Z)
  (language framework : string) : string :=
  let lines := Js.split_lines fileContent in
  let startLine := Z.max 0 (cursorLine - contextRadius) in
  let endLine := Z.min (Z.of_nat (List.length lines)) (cursorLine + contextRadius) in
  let contextLines := Js.slice startLine endLine lines in
  let currentLine :=
    match Js.index lines cursorLine with
    | Some l => l
    | None => ""
    end in
  Js.join_lines
    ([ "Language: " ++ language;
       "Framework: " ++ framework;
       "Context:" ]
     ++ contextLines
     ++ [ "Cursor at line " ++ Js.show cursorLine ++ ", column " ++ Js.show cursorColumn;
          "Current line: " ++ currentLine ]).

(** A turn of a conversation, as [createChatContext] reads it. *)
Record ChatMessage : Type := mkChatMessage {
  role : string;
  content : string
}.

Definition createChatContext
  (message mode : string) (history : list ChatMessage) : string :=
  let recentHistory := Js.slice (-3) (Z.of_nat (List.length history)) history in
  Js.join_lines
    ([ "Mode: " ++ mode;
       "Recent conversation:" ]
     ++ map (fun msg => role msg ++ ": " ++ Js.substring 0 200 (content msg))
            recentHistory
     ++ [ "Current message: " ++ message ]).

End EmbeddingService.

(* ================================================================== *)
(** * src/lib/semantic-cache.ts                                        *)
(* ================================================================== *)

Module CodeContextInput.

(** [interface CodeContextInput] *)
Record t : Type := mk {
  fileContent : string;
  cursorLine : Z;
  cursorColumn : Z;
  language : string;
  framework : string;
  suggestionType : string
}.

End CodeContextInput.

Module SemanticCache.

Import Runtime EmbeddingService.

Definition CACHE_PREFIX : string := "code_suggestion:".
Definition SIMILARITY_THRESHOLD : float := 0.85%float.
Definition MAX_CACHE_SIZE : Z := 1000.
Definition CACHE_TTL : Z := 7 * 24 * 60 * 60.

(** The context of a request: the chat builder with an empty history
    when the language is "Chat", the code builder otherwise.  The
    source has this block twice, in the lookup and in the write. *)
Definition buildContext (input : CodeContextInput.t) : string :=
  if (CodeContextInput.language input =? "Chat")%string then
    createChatContext (CodeContextInput.fileContent input)
                      (CodeContextInput.framework input) []
  else
    createCodeContext (CodeContextInput.fileContent input)
                      (CodeContextInput.cursorLine input)
                      (CodeContextInput.cursorColumn input)
                      (CodeContextInput.language input)
                      (CodeContextInput.framework input).

(** The pattern of the keys of one language and framework. *)
Definition categoryPattern (input : CodeContextInput.t) : string :=
  CACHE_PREFIX ++ CodeContextInput.language input ++ ":"
               ++ CodeContextInput.framework input ++ ":*".

(** [bestMatch] *)
Record BestMatch : Type := mkBestMatch {
  bm_key : string;
  bm_similarity : float;
  bm_entry : CacheEntry
}.

(** The condition under which an entry replaces the best match. *)
Definition improves (similarity : float) (bestMatch : option BestMatch) : bool :=
  (SIMILARITY_THRESHOLD <? similarity)%float
  && match bestMatch with
     | None => true
     | Some b => (bm_similarity b <? similarity)%float
     end.

(** The loop over the keys of the category. *)
Fixpoint scanKeys (queryEmbedding : Embedding) (ks : list string)
  (bestMatch : option BestMatch) : M (option BestMatch) :=
  match ks with
  | [] => ret bestMatch
  | key :: rest =>
      cachedData <- get key ;;
      match cachedData with
      | None => scanKeys queryEmbedding rest bestMatch
      | Some data =>
          if negb (valueTruthy data) then scanKeys queryEmbedding rest bestMatch
          else
            match JSON_parse data with
            | Some entry =>
                let similarity := calculateSimilarity queryEmbedding (embedding entry) in
                if improves similarity bestMatch
                then scanKeys queryEmbedding rest
                       (Some (mkBestMatch key similarity entry))
                else scanKeys queryEmbedding rest bestMatch
            | None =>
                console_error ErrParseEntry ;;;
                scanKeys queryEmbedding rest bestMatch
            end
      end
  end.

(** The entry of a hit: [hitCount++] and [timestamp = Date.now()]. *)
Definition touch (now : Z) (e : CacheEntry) : CacheEntry :=
  mkCacheEntry (id e) (context e) (embedding e) (suggestion e)
               (language e) (framework e) now (hitCount e + 1).

(** The body of the [try] of [getCachedSuggestion]. *)
Definition lookupBody (input : CodeContextInput.t) : M (option string) :=
  getRedisClient ;;;
  let context := buildContext input in
  queryEmbedding <- generateEmbedding context ;;
  ks <- keys (categoryPattern input) ;;
  if (List.length ks =? 0)%nat then ret None
  else
    bestMatch <- scanKeys queryEmbedding ks None ;;
    match bestMatch with
    | Some b =>
        now <- Date_now ;;
        let entry := touch now (bm_entry b) in
        setEx (bm_key b) CACHE_TTL (Json entry) ;;;
        ret (Some (suggestion entry))
    | None => ret None
    end.

Definition getCachedSuggestion (input : CodeContextInput.t) : M (option string) :=
  try_catch (lookupBody input)
            (console_error ErrLookup ;;; ret None).

(** [hash = ((hash << 5) - hash) + char; hash = hash & hash] *)
Definition hashStep (hash char : Z) : Z :=
  Js.toInt32 (Js.toInt32 (hash * 2 ^ 5) - hash + char).

Definition simpleHash (str : string) : string :=
  Js.toString36 (Z.abs (fold_left hashStep (Js.charCodes str) 0)).

(** The string that is hashed into the id. *)
Definition hashInput (input : CodeContextInput.t) : string :=
  Js.substring (Z.max 0 (CodeContextInput.cursorLine input - 2))
               (CodeContextInput.cursorLine input + 3)
               (CodeContextInput.fileContent input)
  ++ CodeContextInput.suggestionType input.

Definition generateCacheId (now : Z) (input : CodeContextInput.t) : string :=
  Js.show now ++ "_" ++ simpleHash (hashInput input).

(** What the sweep keeps of an entry: [{ key, timestamp, hitCount }]. *)
Record Ranked : Type := mkRanked {
  r_key : string;
  r_timestamp : Z;
  r_hitCount : Z
}.

(** The loop of the sweep over all keys: a readable entry is pushed, a
    corrupted one is deleted.  ([entry.timestamp || 0] is the time stamp
    itself, and so for the hit count.) *)
Fixpoint collectEntries (allKeys : list string) (entries : list Ranked)
  : M (list Ranked) :=
  match allKeys with
  | [] => ret entries
  | key :: rest =>
      data <- get key ;;
      match data with
      | None => collectEntries rest entries
      | Some v =>
          if valueTruthy v then
            match JSON_parse v with
            | Some entry =>
                collectEntries rest
                  (entries ++ [mkRanked key (timestamp entry) (hitCount entry)])
            | None =>
                del [key] ;;;
                collectEntries rest entries
            end
          else collectEntries rest entries
      end
  end.

(** The comparator of the sort. *)
Definition compareRanked (a b : Ranked) : Z :=
  if negb (r_hitCount a =? r_hitCount b)%Z
  then r_hitCount a - r_hitCount b
  else r_timestamp a - r_timestamp b.

(** [entries.sort(compare)]: the sort of an array is stable. *)
Fixpoint insertRanked (x : Ranked) (sorted : list Ranked) : list Ranked :=
  match sorted with
  | [] => [x]
  | y :: sorted' =>
      if (compareRanked x y <=? 0)%Z then x :: sorted
      else y :: insertRanked x sorted'
  end.

Fixpoint sortRanked (entries : list Ranked) : list Ranked :=
  match entries with
  | [] => []
  | x :: entries' => insertRanked x (sortRanked entries')
  end.

(** The body of the [try] of [cleanupOldEntries]. *)
Definition cleanupBody : M unit :=
  allKeys <- keys (CACHE_PREFIX ++ "*") ;;
  if (Z.of_nat (List.length allKeys) <=? MAX_CACHE_SIZE)%Z then ret tt
  else
    entries <- collectEntries allKeys [] ;;
    let sorted := sortRanked entries in
    let toDelete :=
      Js.slice 0 (Z.of_nat (List.length sorted) - MAX_CACHE_SIZE + 100) sorted in
    if (0 <? Z.of_nat (List.length toDelete))%Z
    then del (map r_key toDelete)
    else ret tt.

Definition cleanupOldEntries : M unit :=
  try_catch cleanupBody (console_error ErrCleanup).

(** The body of the [try] of [cacheSuggestion]. *)
Definition cacheBody (input : CodeContextInput.t) (suggestion : string) : M unit :=
  getRedisClient ;;;
  let context := buildContext input in
  embedding <- generateEmbedding context ;;
  idTime <- Date_now ;;
  now <- Date_now ;;
  let entry :=
    mkCacheEntry (generateCacheId idTime input) context embedding
                 (Js.trim suggestion)
                 (CodeContextInput.language input)
                 (CodeContextInput.framework input)
                 now 0 in
  let key := CACHE_PREFIX ++ CodeContextInput.language input ++ ":"
                          ++ CodeContextInput.framework input ++ ":" ++ id entry in
  setEx key CACHE_TTL (Json entry) ;;;
  cleanupOldEntries.

Definition cacheSuggestion (input : CodeContextInput.t) (suggestion : string) : M unit :=
  try_catch (cacheBody input suggestion) (console_error ErrCaching).

End SemanticCache.

(* ================================================================== *)
(** * The streaming endpoints                                          *)
(* ================================================================== *)

Module Http.

(** An event of the outbound stream. *)
Inductive StreamEvent : Type :=
| EvChunk (chunk : string) (cached : bool)
| EvDone (cached : bool)
| EvError.

(** A response is a JSON error with a status, or an event stream. *)
Inductive Response : Type :=
| JsonError (status : Z) (error : string)
| EventStream (events : list StreamEvent).

(** [x || fallback] for an optional string. *)
Definition orElse (x : option string) (fallback : string) : string :=
  match x with
  | Some s => if Js.falsy s then fallback else s
  | None => fallback
  end.

(** The stream of a cache hit: the whole text as one chunk, then the
    terminal event, both flagged as cached. *)
Definition cachedStream (text : string) : Response :=
  EventStream [EvChunk text true; EvDone true].

(** What a handler gets from [await request.json()] and the
    destructuring of the result: the promise is rejected when the body
    of the request is not JSON; the value [null] has no fields to read,
    and the destructuring throws; of any other value the fields are
    read, a field that is absent being [undefined] (a number, a string
    or an array has none of the fields). *)
Inductive Request (Body : Type) : Type :=
| Unparsable
| JsonNull
| Parsed (body : Body).

Arguments Unparsable {Body}.
Arguments JsonNull {Body}.
Arguments Parsed {Body} body.

End Http.

(** ** src/app/api/code-suggestion/stream/route.ts *)

Module CodeRoute.

Import Runtime Http.

(** The fields read from the body of the request; a field that is
    absent is [None].  A field that is present has the type the
    interface of the request gives it. *)
Record Body : Type := mkBody {
  fileContent : option string;
  cursorLine : Z;
  cursorColumn : Z;
  suggestionType : option string;
  fileName : option string
}.

Section Handler.

(** The helpers of the route: the detection of the language and of the
    framework, the construction of the prompt, the removal of duplicate
    import lines from a suggestion. *)
Variable detectLanguage : string -> option string -> string.
Variable detectFramework : string -> string.
Variable buildPrompt : string -> Z -> Z -> option string -> string -> string.
Variable dedupeImports : string -> string.

(** The generation of a miss, and the write of the whole suggestion.
    The chunks are the pieces of text the stream relays, after its
    filters; a request to the backend that fails ends the stream with an
    error and writes nothing. *)
Definition generateAndCache (cacheInput : CodeContextInput.t) (prompt : string)
  : M Response :=
  reply <- fetchGenerate prompt ;;
  match reply with
  | None => ret (EventStream [EvError])
  | Some chunks =>
      let fullSuggestion := String.concat "" chunks in
      (if Js.truthy (Js.trim fullSuggestion)
       then SemanticCache.cacheSuggestion cacheInput
              (Js.trim (dedupeImports (Js.trim fullSuggestion)))
       else ret tt) ;;;
      ret (EventStream (map (fun c => EvChunk c false) chunks ++ [EvDone false])%list)
  end.

(** The code of the handler after the validation. *)
Definition serve (fileContent : string) (cursorLine cursorColumn : Z)
  (suggestionType : string) (fileName : option string) : M Response :=
  let cacheInput :=
    CodeContextInput.mk fileContent cursorLine cursorColumn
      (detectLanguage fileContent fileName) (detectFramework fileContent)
      suggestionType in
  let prompt :=
    buildPrompt fileContent cursorLine cursorColumn fileName suggestionType in
  cachedSuggestion <- SemanticCache.getCachedSuggestion cacheInput ;;
  match cachedSuggestion with
  | Some text =>
      if Js.truthy text then ret (cachedStream text)
      else generateAndCache cacheInput prompt
  | None => generateAndCache cacheInput prompt
  end.

(** The handler from the validation on:
    [!fileContent || cursorLine < 0 || cursorColumn < 0 || !suggestionType] *)
Definition respond (body : Body) : M Response :=
  match fileContent body, suggestionType body with
  | Some content, Some type =>
      if Js.falsy content
         || (cursorLine body <? 0)%Z
         || (cursorColumn body <? 0)%Z
         || Js.falsy type
      then ret (JsonError 400 "Invalid input parameters")
      else serve content (cursorLine body) (cursorColumn body) type (fileName body)
  | _, _ => ret (JsonError 400 "Invalid input parameters")
  end.

(** The handler: the body is read and destructured inside the [try];
    whatever is thrown there is logged and answered with status 500. *)
Definition POST (request : Request Body) : M Response :=
  try_catch
    (match request with
     | Unparsable => throw
     | JsonNull => throw
     | Parsed body => respond body
     end)
    (console_error ErrStreaming ;;; ret (JsonError 500 "Streaming failed")).

End Handler.

End CodeRoute.

(** ** The chat streaming endpoint *)

Module ChatRoute.

Import Runtime Http EmbeddingService.

(** The fields read from the body of the request: [message] is [None]
    when it is absent or not a string, [history] is empty when it is
    absent or not an array. *)
Record Body : Type := mkBody {
  message : option string;
  history : list ChatMessage;
  mode : option string
}.

(** The filter of the history: the role is "user" or "assistant". *)
Definition validTurn (msg : ChatMessage) : bool :=
  (role msg =? "user")%string || (role msg =? "assistant")%string.

Definition getSystemPrompt (mode : string) : string :=
  if (mode =? "review")%string then
    "You are an expert code reviewer. Provide detailed, constructive feedback on code quality, performance, security, and best practices. Be specific and actionable in your suggestions."
  else if (mode =? "fix")%string then
    "You are a debugging expert. Help identify and fix bugs, errors, and issues in code. Provide clear explanations and working solutions."
  else if (mode =? "optimize")%string then
    "You are a performance optimization expert. Analyze code for performance bottlenecks and suggest specific improvements for speed, memory usage, and efficiency."
  else
    "You are an expert AI coding assistant. Help developers with code explanations, debugging, best practices, architecture advice, and writing clean, efficient code. Always provide clear, practical answers with proper code formatting.".

(** The prompt sent to the backend: system prompt, the last ten valid
    turns, the message. *)
Definition buildPrompt (text : string) (body : Body) : string :=
  let validHistory := filter validTurn (history body) in
  let recentHistory :=
    Js.slice (-10) (Z.of_nat (List.length validHistory)) validHistory in
  let fullMessages :=
    ([mkChatMessage "system" (getSystemPrompt (orElse (mode body) "chat"))]
     ++ recentHistory
     ++ [mkChatMessage "user" text])%list in
  String.concat (String "010"%char (String "010"%char ""))
    (map (fun msg => role msg ++ ": " ++ content msg) fullMessages).

(** The input of the cache for a chat request. *)
Definition cacheInput (text : string) (body : Body) : CodeContextInput.t :=
  CodeContextInput.mk text 0 0 "Chat"
    (orElse (mode body) "chat")
    ("chat_" ++ orElse (mode body) "general").

(** The generation of a miss, and the write of the whole answer.  A
    request to the backend that fails is logged, and the stream ends
    with an error. *)
Definition generateAndCache (text : string) (body : Body) : M Response :=
  reply <- fetchGenerate (buildPrompt text body) ;;
  match reply with
  | None => console_error ErrStreamingChat ;;; ret (EventStream [EvError])
  | Some chunks =>
      let fullResponse := String.concat "" chunks in
      (if Js.truthy (Js.trim fullResponse)
       then SemanticCache.cacheSuggestion (cacheInput text body) (Js.trim fullResponse)
       else ret tt) ;;;
      ret (EventStream (map (fun c => EvChunk c false) chunks ++ [EvDone false])%list)
  end.

Definition serve (text : string) (body : Body) : M Response :=
  cachedResponse <- SemanticCache.getCachedSuggestion (cacheInput text body) ;;
  match cachedResponse with
  | Some answer =>
      if Js.truthy answer then ret (cachedStream answer)
      else generateAndCache text body
  | None => generateAndCache text body
  end.

(** The handler from the validation on:
    [!message || typeof message !== "string"] *)
Definition respond (body : Body) : M Response :=
  match message body with
  | Some text =>
      if Js.falsy text
      then ret (JsonError 400 "Message is required and must be a string")
      else serve text body
  | None => ret (JsonError 400 "Message is required and must be a string")
  end.

(** The handler: the body is read and destructured inside the [try];
    whatever is thrown there is logged and answered with status 500. *)
Definition POST (request : Request Body) : M Response :=
  try_catch
    (match request with
     | Unparsable => throw
     | JsonNull => throw
     | Parsed body => respond body
     end)
    (console_error ErrChatSetup ;;; ret (JsonError 500 "Failed to setup streaming")).

End ChatRoute.

(* ================================================================== *)
(** * The vocabulary of the statements                                 *)
(* ================================================================== *)

Module CacheSpec.

Import Runtime EmbeddingService SemanticCache.

(** The keys [redis.keys(pattern)] lists in a world. *)
Definition matchingKeys (w : World) (pattern : string) : list string :=
  map item_key
    (filter (fun it => live (clock w) it && stringmatch w pattern (item_key it))
            (items w)).

(** The entries that can be read under the given keys, in the order of
    the keys: the value is there, and it parses. *)
Definition readableUnder (w : World) (ks : list string) : list (string * CacheEntry) :=
  flat_map
    (fun key =>
       match lookupItem (clock w) key (items w) with
       | Some (Json e) => [(key, e)]
       | _ => []
       end) ks.

(** The best match the loop of the lookup ends with, as a function of
    the readable entries. *)
Fixpoint selectFrom (q : Embedding) (cands : list (string * CacheEntry))
  (best : option BestMatch) : option BestMatch :=
  match cands with
  | [] => best
  | (key, entry) :: rest =>
      let similarity := calculateSimilarity q (embedding entry) in
      selectFrom q rest
        (if improves similarity best
         then Some (mkBestMatch key similarity entry)
         else best)
  end.

(** Two worlds that differ at most by the commands recorded, the faults
    consumed and the console. *)
Definition sameData (w w' : World) : Prop :=
  clock w' = clock w /\ items w' = items w /\ stringmatch w' = stringmatch w
  /\ embedder w' = embedder w /\ backend w' = backend w /\ generated w' = generated w.

(** What [generateEmbedding] returns in a world. *)
Definition embeddingOf (w : World) (text : string) : Embedding :=
  match embedder w text with
  | Some output => output
  | None => zeroVector
  end.

Definition similarityTo (q : Embedding) (e : CacheEntry) : float :=
  calculateSimilarity q (embedding e).

(** The similarity of the entry to the query strictly exceeds the
    threshold. *)
Definition exceeds (q : Embedding) (e : CacheEntry) : bool :=
  (SIMILARITY_THRESHOLD <? similarityTo q e)%float.

(** The entry the lookup selects among the candidates: it exceeds the
    threshold, no candidate is more similar, and it is the first such
    entry in the order of the keys. *)
Definition Selected (q : Embedding) (cands : list (string * CacheEntry))
  (key : string) (entry : CacheEntry) : Prop :=
  exceeds q entry = true
  /\ (forall k e, In (k, e) cands ->
        (similarityTo q entry <? similarityTo q e)%float = false)
  /\ exists pre post,
       cands = (pre ++ (key, entry) :: post)%list
       /\ forall k e, In (k, e) pre -> exceeds q e = true ->
            (similarityTo q e <? similarityTo q entry)%float = true.

(** What the loop knows about its best match after a prefix of the
    candidates. *)
Definition scanInvariant (q : Embedding) (seen : list (string * CacheEntry))
  (best : option BestMatch) : Prop :=
  match best with
  | None => forall k e, In (k, e) seen -> exceeds q e = false
  | Some b =>
      bm_similarity b = similarityTo q (bm_entry b)
      /\ Selected q seen (bm_key b) (bm_entry b)
  end.

(** The next command is rejected. *)
Definition failsNext (w : World) : bool :=
  match faults w with
  | true :: _ => true
  | _ => false
  end.

(** The candidates of a lookup: the readable entries under the keys of
    the category of the input. *)
Definition candidates (w : World) (input : CodeContextInput.t)
  : list (string * CacheEntry) :=
  readableUnder w (matchingKeys w (categoryPattern input)).

(** The query embedding of a lookup. *)
Definition queryOf (w : World) (input : CodeContextInput.t) : Embedding :=
  embeddingOf w (buildContext input).

(** The best match of a lookup that no failure interrupts. *)
Definition selection (w : World) (input : CodeContextInput.t) : option BestMatch :=
  selectFrom (queryOf w input) (candidates w input) None.


(** The item a hit writes back. *)
Definition refreshed (w : World) (b : BestMatch) : Item :=
  mkItem (bm_key b) (Json (touch (clock w) (bm_entry b)))
         (clock w + CACHE_TTL * 1000).

(** The outcome of the body of the lookup: it fails at some command and
    leaves the data as they were, or it misses, or it hits and writes the
    matched entry back. *)
Inductive LookupOutcome (w : World) (input : CodeContextInput.t)
  : Outcome (option string) * World -> Prop :=
| LookupFailed w' :
    clock w' = clock w -> stringmatch w' = stringmatch w ->
    items w' = items w -> faults w <> [] ->
    LookupOutcome w input (Thrown, w')
| LookupMiss w' :
    clock w' = clock w -> stringmatch w' = stringmatch w ->
    items w' = items w ->
    selection w input = None ->
    LookupOutcome w input (Returned None, w')
| LookupHit w' b :
    clock w' = clock w -> stringmatch w' = stringmatch w ->
    items w' = upsert (refreshed w b) (items w) ->
    selection w input = Some b ->
    LookupOutcome w input (Returned (Some (suggestion (bm_entry b))), w').

(** All the keys of the cache. *)
Definition allKeys (w : World) : list string :=
  matchingKeys w (CACHE_PREFIX ++ "*").

(** The readable entries of the cache. *)
Definition cacheEntries (w : World) : list (string * CacheEntry) :=
  readableUnder w (allKeys w).

(** A key holds a corrupted entry: a non-empty value that does not parse. *)
Definition corruptedAt (now : Z) (its : list Item) (key : string) : bool :=
  match lookupItem now key its with
  | Some (Raw s) => Js.truthy s
  | _ => false
  end.

(** What the sweep keeps of a readable entry. *)
Definition toRanked (p : string * CacheEntry) : Ranked :=
  mkRanked (fst p) (timestamp (snd p)) (hitCount (snd p)).

(** The order of the eviction: by hit count, then by time stamp. *)
Definition rankLe (a b : CacheEntry) : Prop :=
  hitCount a < hitCount b
  \/ (hitCount a = hitCount b /\ timestamp a <= timestamp b).

Definition rankedLe (a b : Ranked) : Prop :=
  r_hitCount a < r_hitCount b
  \/ (r_hitCount a = r_hitCount b /\ r_timestamp a <= r_timestamp b).

(** No key occurs twice (Redis holds one value per key). *)
Fixpoint uniqueKeys (ks : list string) : bool :=
  match ks with
  | [] => true
  | k :: rest => negb (memString k rest) && uniqueKeys rest
  end.

(** The loop of the sweep when no command fails, on the data alone. *)
Fixpoint sweep (now : Z) (ks : list string) (entries : list Ranked)
  (its : list Item) : list Ranked * list Item :=
  match ks with
  | [] => (entries, its)
  | key :: rest =>
      match lookupItem now key its with
      | Some (Json e) =>
          sweep now rest (entries ++ [mkRanked key (timestamp e) (hitCount e)]) its
      | Some (Raw s) =>
          if Js.truthy s then sweep now rest entries (removeKeys [key] its)
          else sweep now rest entries its
      | None => sweep now rest entries its
      end
  end.

(** The keys the sweep deletes among the sorted readable entries. *)
Definition evicted (entries : list Ranked) : list Ranked :=
  Js.slice 0 (Z.of_nat (List.length (sortRanked entries)) - MAX_CACHE_SIZE + 100)
           (sortRanked entries).

(** The string has no colon. *)
Fixpoint noColon (s : string) : bool :=
  match s with
  | EmptyString => true
  | String c s' => negb (Ascii.eqb c ":"%char) && noColon s'
  end.

(** The string has none of the characters that a pattern of [KEYS]
    reads as more than themselves: star, question mark, opening bracket,
    backslash. *)
Fixpoint plainText (s : string) : bool :=
  match s with
  | EmptyString => true
  | String c s' =>
      negb (Ascii.eqb c "*"%char) && negb (Ascii.eqb c "?"%char)
      && negb (Ascii.eqb c "["%char) && negb (Ascii.eqb c "\"%char)
      && plainText s'
  end.

(** Every component of the vector is a zero, of either sign. *)
Definition allZero (e : Embedding) : bool :=
  forallb (fun x => (x =? 0)%float) e.

(** The key under which [cacheSuggestion] stores an entry. *)
Definition keyOf (e : CacheEntry) : string :=
  CACHE_PREFIX ++ language e ++ ":" ++ framework e ++ ":" ++ id e.

(** The items of the store are the ones the cache writes: an entry is
    stored under its own key, and the names of its category have no
    colon. *)
Definition wellKeyed (its : list Item) : Prop :=
  forall it e,
    In it its -> item_value it = Json e ->
    item_key it = keyOf e
    /\ noColon (language e) = true /\ noColon (framework e) = true.
End CacheSpec.

(* ================================================================== *)
(** * Sample worlds                                                    *)
(* ================================================================== *)

Module Samples.

Import Runtime EmbeddingService SemanticCache.

(** A model that maps every context to the vector (3, 4). *)
Definition constantModel (text : string) : option (list float) :=
  Some [3; 4]%float.

(** A model that always fails. *)
Definition brokenModel (text : string) : option (list float) := None.

Definition noBackend (prompt : string) : option (list string) := None.

(** The request of the scenario of the specification. *)
Definition addInput : CodeContextInput.t :=
  CodeContextInput.mk "function add(a,b){return " 0 25
                      "JavaScript" "None" "completion".

Definition entryMinus : CacheEntry :=
  mkCacheEntry "1_a" "ctx minus" [4; 3]%float "a - b;" "JavaScript" "None" 500 2.

Definition entryPlus : CacheEntry :=
  mkCacheEntry "2_b" "ctx plus" [3; 4]%float "a + b;" "JavaScript" "None" 600 0.

Definition entryFar : CacheEntry :=
  mkCacheEntry "5_e" "ctx far" [0; 1]%float "return 0;" "JavaScript" "None" 700 9.

Definition entryPython : CacheEntry :=
  mkCacheEntry "4_d" "ctx python" [3; 4]%float "a + b" "Python" "None" 800 1.

Definition sampleItems : list Item :=
  [ mkItem "code_suggestion:JavaScript:None:1_a" (Json entryMinus) 2000000;
    mkItem "code_suggestion:JavaScript:None:2_b" (Json entryPlus) 2000000;
    mkItem "code_suggestion:JavaScript:None:3_c" (Raw "{oops") 2000000;
    mkItem "code_suggestion:Python:None:4_d" (Json entryPython) 2000000;
    mkItem "code_suggestion:JavaScript:None:5_e" (Json entryFar) 2000000 ].

(** A world at time 1000000 in which no command fails. *)
Definition sampleWorld : World :=
  mkWorld 1000000 sampleItems globMatch [] [] constantModel noBackend [] [].

(** The same world with a model that fails. *)
Definition brokenModelWorld : World :=
  mkWorld 1000000 sampleItems globMatch [] [] brokenModel noBackend [] [].

(** The same world with a Redis server that cannot be reached. *)
Definition unreachableWorld : World :=
  mkWorld 1000000 sampleItems globMatch [true] [] constantModel noBackend [] [].


(** The request body of the scenario of the specification. *)
Definition addBody : CodeRoute.Body :=
  CodeRoute.mkBody (Some "function add(a,b){return ") 0 25 (Some "completion") None.

(** Helpers of the route, fixed for the samples. *)
Definition sampleLanguage (content : string) (fileName : option string) : string :=
  "JavaScript".
Definition sampleFramework (content : string) : string := "None".
Definition samplePrompt (content : string) (line column : Z)
  (fileName : option string) (type : string) : string := content.
Definition sampleDedupe (text : string) : string := text.

(** A file of twelve lines, "L0" to "L11". *)
Definition twelveLines : string :=
  Js.join_lines ["L0"; "L1"; "L2"; "L3"; "L4"; "L5";
                 "L6"; "L7"; "L8"; "L9"; "L10"; "L11"].

(** Two files of seven lines that agree on their first line only, with
    the cursor on the fourth line. *)
Definition fileOne : string :=
  Js.join_lines ["line0"; "const a = 1;"; "const b = 2;"; "return a + b;";
                 "// sum"; "// end"; "}"].
Definition fileTwo : string :=
  Js.join_lines ["line0"; "let x = [];"; "x.push(1);"; "x.pop();";
                 "// stack"; "// done"; "]"].
Definition inputOne : CodeContextInput.t :=
  CodeContextInput.mk fileOne 3 0 "JavaScript" "None" "completion".
Definition inputTwo : CodeContextInput.t :=
  CodeContextInput.mk fileTwo 3 0 "JavaScript" "None" "completion".

(** A readable entry for the bulk worlds: its hit count cycles through
    0..6 and its time stamp is its number. *)
Definition bulkEntry (i : nat) : Item :=
  mkItem ("code_suggestion:JavaScript:None:" ++ Js.show (Z.of_nat i) ++ "_x")
         (Json (mkCacheEntry (Js.show (Z.of_nat i) ++ "_x") "ctx" [3; 4]%float
                             "text" "JavaScript" "None"
                             (Z.of_nat i) (Z.of_nat (i mod 7))))
         2000000.

(** A corrupted entry. *)
Definition bulkGarbage (i : nat) : Item :=
  mkItem ("code_suggestion:JavaScript:None:" ++ Js.show (Z.of_nat i) ++ "_bad")
         (Raw "{corrupted") 2000000.

Definition worldOf (its : list Item) : World :=
  mkWorld 1000000 its globMatch [] [] constantModel noBackend [] [].

(** A backend that streams the same answer, in two chunks, whatever the
    prompt. *)
Definition fixedBackend (prompt : string) : option (list string) :=
  Some ["Check the "; "index."].

(** A world whose store is empty and whose backend answers. *)
Definition emptyWorld : World :=
  mkWorld 1000000 [] globMatch [] [] constantModel fixedBackend [] [].

(** A chat question, and the input of the cache for it in a mode. *)
Definition chatQuestion : string := "Why does it crash?".

Definition chatInput (mode : string) : CodeContextInput.t :=
  ChatRoute.cacheInput chatQuestion (ChatRoute.mkBody (Some chatQuestion) [] (Some mode)).

(** 1001 readable entries. *)
Definition fullWorld : World := worldOf (map bulkEntry (seq 0 1001)).

(** 899 readable entries and 102 corrupted ones: 1001 keys. *)
Definition corruptedWorld : World :=
  worldOf (map bulkEntry (seq 0 899) ++ map bulkGarbage (seq 0 102)).

(** A store with one entry of the chat mode "fix:1", whose embedding has
    the similarity 0.8 with the vector (3, 4) of the model. *)
Definition distantChatWorld : World :=
  worldOf [ mkItem "code_suggestion:Chat:fix:1:5_e"
              (Json (mkCacheEntry "5_e" "ctx far" [0; 1]%float "Restart it."
                                  "Chat" "fix:1" 700 9))
              2000000 ].

(** 898 readable entries and 102 corrupted ones: 1000 keys. *)
Definition nearlyFullWorld : World :=
  worldOf (map bulkEntry (seq 0 898) ++ map bulkGarbage (seq 0 102)).

End Samples.

(* ================================================================== *)
(** * More of the sources: statistics, monitor, helpers of the routes  *)
(* ================================================================== *)

(** ** More JavaScript string primitives *)

Module Text.

(** [s.startsWith(p)] *)
Fixpoint startsWith (s p : string) : bool :=
  match p, s with
  | EmptyString, _ => true
  | String a p', String b s' => Ascii.eqb a b && startsWith s' p'
  | String _ _, EmptyString => false
  end.

(** [s.includes(p)] *)
Fixpoint includes (s p : string) : bool :=
  startsWith s p
  || match s with
     | EmptyString => false
     | String _ s' => includes s' p
     end.

(** [s.toLowerCase()]: among the characters of a code below 256 the
    capital letters are A to Z and, but for the multiplication sign
    (215), the characters 192 to 222; the small letter is 32 further. *)
Definition lowerChar (c : ascii) : ascii :=
  let n := nat_of_ascii c in
  if ((65 <=? n) && (n <=? 90))%nat
     || ((192 <=? n) && (n <=? 222) && negb (n =? 215))%nat
  then ascii_of_nat (n + 32) else c.

Fixpoint toLowerCase (s : string) : string :=
  match s with
  | EmptyString => ""
  | String c s' => String (lowerChar c) (toLowerCase s')
  end.

(** [s.split(sep)] for a separator of one character. *)
Fixpoint split (sep : ascii) (s : string) : list string :=
  match s with
  | EmptyString => [""]
  | String c s' =>
      if Ascii.eqb c sep then "" :: split sep s'
      else match split sep s' with
           | l :: ls => String c l :: ls
           | [] => [String c ""]
           end
  end.

(** The double quote *)
Definition quote : string := String "034"%char "".

(** The line break *)
Definition nl : string := String "010"%char "".

End Text.

(** ** Regular expressions

    The patterns of the sources use character classes, sequence,
    alternation, repetition and the two anchors, and only ask whether
    there is a match ([test], or [match] used as a condition).  For such
    patterns the answer is the membership of a regular language, which
    is decided here with derivatives. *)

Module Regex.

Inductive Re : Type :=
| Never
| Eps
| Class (p : ascii -> bool)
| Seq (a b : Re)
| Alt (a b : Re)
| Star (a : Re).

(** The characters of a literal, in sequence. *)
Fixpoint lit (s : string) : Re :=
  match s with
  | EmptyString => Eps
  | String c s' => Seq (Class (Ascii.eqb c)) (lit s')
  end.

(** [a+] *)
Definition plus (a : Re) : Re := Seq a (Star a).

Definition seqs (rs : list Re) : Re := fold_right Seq Eps rs.
Definition alts (rs : list Re) : Re := fold_right Alt Never rs.

(** [\s] (the characters below 128 of it) *)
Definition space : Re := Class Js.is_space.

(** [\w] *)
Definition isWord (c : ascii) : bool :=
  let n := nat_of_ascii c in
  (((48 <=? n) && (n <=? 57)) || ((65 <=? n) && (n <=? 90))
   || (n =? 95) || ((97 <=? n) && (n <=? 122)))%nat.

Definition word : Re := Class isWord.

(** [.]: any character but a line terminator. *)
Definition isLineTerminator (c : ascii) : bool :=
  let n := nat_of_ascii c in ((n =? 10) || (n =? 13))%nat.

Definition dot : Re := Class (fun c => negb (isLineTerminator c)).

Fixpoint nullable (r : Re) : bool :=
  match r with
  | Never => false
  | Eps => true
  | Class _ => false
  | Seq a b => nullable a && nullable b
  | Alt a b => nullable a || nullable b
  | Star _ => true
  end.

Fixpoint deriv (c : ascii) (r : Re) : Re :=
  match r with
  | Never => Never
  | Eps => Never
  | Class p => if p c then Eps else Never
  | Seq a b =>
      if nullable a then Alt (Seq (deriv c a) b) (deriv c b)
      else Seq (deriv c a) b
  | Alt a b => Alt (deriv c a) (deriv c b)
  | Star a => Seq (deriv c a) (Star a)
  end.

(** The whole of [s] matches. *)
Fixpoint matchesAll (r : Re) (s : string) : bool :=
  match s with
  | EmptyString => nullable r
  | String c s' => matchesAll (deriv c r) s'
  end.

(** Some prefix of [s] matches. *)
Fixpoint matchesPrefix (r : Re) (s : string) : bool :=
  nullable r
  || match s with
     | EmptyString => false
     | String c s' => matchesPrefix (deriv c r) s'
     end.

(** A pattern [/^body$/], each anchor being optional. *)
Record Pattern : Type := mkPattern {
  fromStart : bool;
  body : Re;
  toEnd : bool
}.

Definition matchesHere (p : Pattern) (s : string) : bool :=
  if toEnd p then matchesAll (body p) s else matchesPrefix (body p) s.

Fixpoint search (p : Pattern) (s : string) : bool :=
  matchesHere p s
  || match s with
     | EmptyString => false
     | String _ s' => search p s'
     end.

(** [pattern.test(s)], and the truth of [s.match(pattern)]. *)
Definition test (p : Pattern) (s : string) : bool :=
  if fromStart p then matchesHere p s else search p s.

(** The strings of the language of an expression. *)
Inductive Matches : Re -> string -> Prop :=
| MEps : Matches Eps ""
| MClass (p : ascii -> bool) (c : ascii) :
    p c = true -> Matches (Class p) (String c "")
| MSeq (a b : Re) (s t : string) :
    Matches a s -> Matches b t -> Matches (Seq a b) (s ++ t)
| MAltL (a b : Re) (s : string) : Matches a s -> Matches (Alt a b) s
| MAltR (a b : Re) (s : string) : Matches b s -> Matches (Alt a b) s
| MStarNil (a : Re) : Matches (Star a) ""
| MStarApp (a : Re) (s t : string) :
    Matches a s -> Matches (Star a) t -> Matches (Star a) (s ++ t).

End Regex.

(** ** src/lib/semantic-cache.ts: the statistics of the cache *)

Module CacheStats.

Import Runtime SemanticCache.

(** The result of [getCacheStats].  [entriesByLanguage] is an object
    used as a map from the language to a count; it is kept as the list
    of its own properties, in the order of their creation.  (A language
    that names a property every object inherits, such as "constructor",
    is outside this model; the languages the endpoints store are the
    names of [detectLanguage] and "Chat".) *)
Record Stats : Type := mkStats {
  totalEntries : Z;
  entriesByLanguage : list (string * Z);
  oldestEntry : Z;
  newestEntry : Z
}.

(** [counts[language]], [None] standing for [undefined]. *)
Fixpoint countOf (language : string) (counts : list (string * Z)) : option Z :=
  match counts with
  | [] => None
  | (l, n) :: rest => if (l =? language)%string then Some n else countOf language rest
  end.

(** [counts[language] = (counts[language] || 0) + 1] *)
Fixpoint tally (language : string) (counts : list (string * Z)) : list (string * Z) :=
  match counts with
  | [] => [(language, 0 + 1)]
  | (l, n) :: rest =>
      if (l =? language)%string
      then (l, (if (n =? 0)%Z then 0 else n) + 1) :: rest
      else (l, n) :: tally language rest
  end.

(** The body of the loop for an entry that parses. *)
Definition account (entry : CacheEntry) (stats : Stats) : Stats :=
  let counts := tally (language entry) (entriesByLanguage stats) in
  let oldest :=
    if (timestamp entry <? oldestEntry stats)%Z
    then timestamp entry else oldestEntry stats in
  let newest :=
    if (newestEntry stats <? timestamp entry)%Z
    then timestamp entry else newestEntry stats in
  mkStats (totalEntries stats) counts oldest newest.

(** The loop over all keys: a value that is absent, empty or corrupted
    is skipped. *)
Fixpoint statsLoop (allKeys : list string) (stats : Stats) : M Stats :=
  match allKeys with
  | [] => ret stats
  | key :: rest =>
      data <- get key ;;
      match data with
      | None => statsLoop rest stats
      | Some v =>
          if valueTruthy v then
            match JSON_parse v with
            | Some entry => statsLoop rest (account entry stats)
            | None => statsLoop rest stats
            end
          else statsLoop rest stats
      end
  end.

(** The body of the [try] of [getCacheStats]. *)
Definition statsBody : M Stats :=
  getRedisClient ;;;
  allKeys <- keys (CACHE_PREFIX ++ "*") ;;
  now <- Date_now ;;
  statsLoop allKeys (mkStats (Z.of_nat (List.length allKeys)) [] now 0).

(** The statistics returned when the body throws. *)
Definition noStats : Stats := mkStats 0 [] 0 0.

(** [getCacheStats]: the handler logs the error and returns the empty
    statistics. *)
Definition getCacheStats : M Stats :=
  try_catch statsBody (console_error ErrStats ;;; ret noStats).

End CacheStats.

(** ** The statistics endpoint *)

Module StatsRoute.

Import Runtime CacheStats.

(** The JSON of the answer: the statistics, the two ages, and the
    instant that [new Date().toISOString()] prints. *)
Inductive Reply : Type :=
| StatsOk (stats : Stats) (oldestEntryAge newestEntryAge : Z) (timestamp : Z)
| StatsFailed (status : Z).

(** [x ? Date.now() - x : 0] *)
Definition ageOf (x : Z) : M Z :=
  if (x =? 0)%Z then ret 0
  else now <- Date_now ;; ret (now - x).

Definition GET : M Reply :=
  try_catch
    (stats <- getCacheStats ;;
     oldestEntryAge <- ageOf (oldestEntry stats) ;;
     newestEntryAge <- ageOf (newestEntry stats) ;;
     timestamp <- Date_now ;;
     ret (StatsOk stats oldestEntryAge newestEntryAge timestamp))
    (console_error ErrStats ;;; ret (StatsFailed 500)).

End StatsRoute.

(** ** src/lib/semantic-cache.ts: the performance monitor *)

Module PerformanceMonitor.

(** [interface PerformanceMetrics].  The three counters are integers
    (they are only incremented, and stay below 2^53 where the numbers of
    JavaScript are exact); the two times are floats. *)
Record Metrics : Type := mkMetrics {
  requestCount : Z;
  totalTime : float;
  averageTime : float;
  cacheHits : Z;
  errors : Z
}.

(** The metrics of a new monitor, and of [reset()]. *)
Definition initial : Metrics := mkMetrics 0 0%float 0%float 0 0.

(** The float of an integer. *)
Definition number (n : Z) : float :=
  if (n <? 0)%Z then (- PrimFloat.of_uint63 (Uint63.of_Z (- n)))%float
  else PrimFloat.of_uint63 (Uint63.of_Z n).

Definition recordRequest (duration : float) (fromCache error : bool)
  (m : Metrics) : Metrics :=
  let count := requestCount m + 1 in
  if error then
    mkMetrics count (totalTime m) (averageTime m) (cacheHits m) (errors m + 1)
  else
    let hits := if fromCache then cacheHits m + 1 else cacheHits m in
    let total := if fromCache then totalTime m else (totalTime m + duration)%float in
    mkMetrics count total (total / number (count - hits))%float hits (errors m).

(** The field [cacheHitRate] of [getMetrics()]; the other fields are the
    metrics themselves. *)
Definition cacheHitRate (m : Metrics) : float :=
  if (0 <? requestCount m)%Z
  then (number (cacheHits m) / number (requestCount m) * 100)%float
  else 0%float.

Definition reset (m : Metrics) : Metrics := initial.

(** A call of [recordRequest]: duration, [fromCache], [error]. *)
Definition Call : Type := (float * bool * bool)%type.

(** The metrics after a sequence of calls. *)
Definition recordAll (calls : list Call) (m : Metrics) : Metrics :=
  fold_left (fun m c => let '(d, fromCache, error) := c in
                        recordRequest d fromCache error m) calls m.

End PerformanceMonitor.

(** ** The Redis client *)

Module RedisClient.

(** [reconnectStrategy]: [None] stands for [false] (give up), [Some d]
    for a delay of [d] milliseconds. *)
Definition reconnectStrategy (retries : Z) : option Z :=
  if (10 <? retries)%Z then None
  else Some (Z.min (retries * 50) 1000).

End RedisClient.

(** ** src/app/api/code-suggestion/stream/route.ts: the helpers *)

Module CodeAnalysis.

Import Regex.

(** The value of [detectLanguage].  The table of extensions is an object
    literal, and [extMap[ext]] also finds what every object inherits: for
    the lower-case names "constructor" and "__proto__" the value returned
    is not a string. *)
Inductive Detected : Type :=
| Language (name : string)
| Inherited (property : string).

Definition extMap : list (string * string) :=
  [ ("ts", "TypeScript"); ("tsx", "TypeScript");
    ("js", "JavaScript"); ("jsx", "JavaScript");
    ("py", "Python"); ("java", "Java"); ("go", "Go");
    ("rs", "Rust"); ("php", "PHP") ].

Fixpoint ownProperty (key : string) (m : list (string * string)) : option string :=
  match m with
  | [] => None
  | (k, v) :: rest => if (k =? key)%string then Some v else ownProperty key rest
  end.

Definition inheritedProperty (key : string) : bool :=
  (key =? "constructor")%string || (key =? "__proto__")%string.

(** The detection from the content alone. *)
Definition languageOfContent (content : string) : string :=
  if Text.includes content "interface " || Text.includes content ": string"
  then "TypeScript"
  else if Text.includes content "import React" || Text.includes content "useState"
  then "JavaScript"
  else if Text.includes content "def " || Text.includes content "import "
  then "Python"
  else if Text.includes content "func " || Text.includes content "package "
  then "Go"
  else "JavaScript".

(** [fileName.split(".").pop()?.toLowerCase()] *)
Definition extensionOf (fileName : string) : string :=
  Text.toLowerCase (List.last (Text.split "."%char fileName) "").

Definition detectLanguage (content : string) (fileName : option string) : Detected :=
  match fileName with
  | Some name =>
      if Js.truthy name then
        let ext := extensionOf name in
        if Js.truthy ext then
          match ownProperty ext extMap with
          | Some language => Language language
          | None =>
              if inheritedProperty ext then Inherited ext
              else Language (languageOfContent content)
          end
        else Language (languageOfContent content)
      else Language (languageOfContent content)
  | None => Language (languageOfContent content)
  end.

Definition detectFramework (content : string) : string :=
  if Text.includes content "import React" || Text.includes content "useState"
  then "React"
  else if Text.includes content "import Vue" || Text.includes content "<template>"
  then "Vue"
  else if Text.includes content "@angular/" || Text.includes content "@Component"
  then "Angular"
  else if Text.includes content "next/" || Text.includes content "getServerSideProps"
  then "Next.js"
  else "None".

(** [/^\s*(function|def|const\s+\w+\s*=|let\s+\w+\s*=)/] *)
Definition declarationPattern : Pattern :=
  mkPattern true
    (Seq (Star space)
       (alts [ lit "function"; lit "def";
               seqs [lit "const"; plus space; plus word; Star space; lit "="];
               seqs [lit "let"; plus space; plus word; Star space; lit "="] ]))
    false.

(** [/^\s*}/] *)
Definition closingPattern : Pattern :=
  mkPattern true (Seq (Star space) (lit "}")) false.

(** [/^\s*(class|interface)\s+/] *)
Definition classPattern : Pattern :=
  mkPattern true
    (seqs [Star space; alts [lit "class"; lit "interface"]; plus space])
    false.

(** The loop of [detectInFunction] over the lines [n - 1] down to 0; a
    line that does not exist matches nothing. *)
Fixpoint inFunctionFrom (n : nat) (lines : list string) : bool :=
  match n with
  | O => false
  | S i =>
      match nth_error lines i with
      | Some line =>
          if test declarationPattern line then true
          else if test closingPattern line then false
          else inFunctionFrom i lines
      | None => inFunctionFrom i lines
      end
  end.

Definition detectInFunction (lines : list string) (currentLine : Z) : bool :=
  inFunctionFrom (Z.to_nat currentLine) lines.

Fixpoint inClassFrom (n : nat) (lines : list string) : bool :=
  match n with
  | O => false
  | S i =>
      match nth_error lines i with
      | Some line =>
          if test classPattern line then true else inClassFrom i lines
      | None => inClassFrom i lines
      end
  end.

Definition detectInClass (lines : list string) (currentLine : Z) : bool :=
  inClassFrom (Z.to_nat currentLine) lines.

(** [/\/\/.*$/] and [/#.*$/] *)
Definition slashCommentPattern : Pattern :=
  mkPattern false (Seq (lit "//") (Star dot)) true.

Definition hashCommentPattern : Pattern :=
  mkPattern false (Seq (lit "#") (Star dot)) true.

Definition detectAfterComment (line : string) (column : Z) : bool :=
  let beforeCursor := Js.substring 0 column line in
  test slashCommentPattern beforeCursor || test hashCommentPattern beforeCursor.

(** The six patterns of [detectIncompletePatterns]. *)
Definition conditionalPattern : Pattern :=
  mkPattern true
    (seqs [Star space; alts [lit "if"; lit "while"; lit "for"]; Star space; lit "("])
    true.

Definition functionPattern : Pattern :=
  mkPattern true
    (seqs [Star space; alts [lit "function"; lit "def"]; Star space])
    true.

Definition trailing (c : string) : Pattern :=
  mkPattern false (Seq (lit c) (Star space)) true.

Definition detectIncompletePatterns (line : string) (column : Z) : list string :=
  let beforeCursor := Js.substring 0 column line in
  ((if test conditionalPattern (Js.trim beforeCursor) then ["conditional"] else [])
   ++ (if test functionPattern (Js.trim beforeCursor) then ["function"] else [])
   ++ (if test (trailing "{") beforeCursor then ["object"] else [])
   ++ (if test (trailing "[") beforeCursor then ["array"] else [])
   ++ (if test (trailing "=") beforeCursor then ["assignment"] else [])
   ++ (if test (trailing ".") beforeCursor then ["method-call"] else []))%list.

(** The value of [analyzeCodeContext]. *)
Record Context : Type := mkContext {
  language : Detected;
  framework : string;
  beforeContext : string;
  currentLine : string;
  afterContext : string;
  cursorLine : Z;
  cursorColumn : Z;
  isInFunction : bool;
  isInClass : bool;
  isAfterComment : bool;
  incompletePatterns : list string
}.

Definition contextRadius : Z := 10.

Definition analyzeCodeContext (content : string) (line column : Z)
  (fileName : option string) : Context :=
  let lines := Js.split_lines content in
  let currentLine :=
    match Js.index lines line with
    | Some l => l
    | None => ""
    end in
  let startLine := Z.max 0 (line - contextRadius) in
  let endLine := Z.min (Z.of_nat (List.length lines)) (line + contextRadius) in
  let beforeContext := Js.join_lines (Js.slice startLine line lines) in
  let afterContext := Js.join_lines (Js.slice (line + 1) endLine lines) in
  mkContext (detectLanguage content fileName) (detectFramework content)
            beforeContext currentLine afterContext line column
            (detectInFunction lines line) (detectInClass lines line)
            (detectAfterComment currentLine column)
            (detectIncompletePatterns currentLine column).

(** The condition of the filter of [extractImports]. *)
Definition importLike (line : string) : bool :=
  Text.startsWith (Js.trim line) "import "
  || Text.startsWith (Js.trim line) "from "
  || (Text.startsWith (Js.trim line) "const " && Text.includes line "require(")
  || Text.startsWith (Js.trim line) "#include"
  || Text.startsWith (Js.trim line) "using ".

Definition extractImports (code : string) : string :=
  let lines := Js.split_lines code in
  let imports := filter importLike lines in
  Js.join_lines (Js.slice 0 5 imports).

(** [/^\s*(function|def|const\s+\w+\s*=|let\s+\w+\s*=|class\s+|interface\s+)/] *)
Definition scopePattern : Pattern :=
  mkPattern true
    (Seq (Star space)
       (alts [ lit "function"; lit "def";
               seqs [lit "const"; plus space; plus word; Star space; lit "="];
               seqs [lit "let"; plus space; plus word; Star space; lit "="];
               Seq (lit "class") (plus space);
               Seq (lit "interface") (plus space) ]))
    false.

(** The loop of [extractFunctionContext] over the lines [n - 1] down to
    0: the index of the last line that opens a scope, or -1. *)
Fixpoint functionStartFrom (n : nat) (lines : list string) : Z :=
  match n with
  | O => -1
  | S i =>
      match nth_error lines i with
      | Some line =>
          if test scopePattern line then Z.of_nat i
          else functionStartFrom i lines
      | None => functionStartFrom i lines
      end
  end.

Definition extractFunctionContext (beforeContext : string) (cursorLine : Z) : string :=
  let lines := Js.split_lines beforeContext in
  let functionStart := functionStartFrom (List.length lines) lines in
  if (0 <=? functionStart)%Z then
    Js.join_lines
      (Js.slice (Z.max 0 (functionStart - 2)) (Z.of_nat (List.length lines)) lines)
  else
    Js.join_lines (Js.slice (-8) (Z.of_nat (List.length lines)) lines).

Definition detectReactPatterns (beforeContext : string) : bool :=
  Text.includes beforeContext "useState"
  || Text.includes beforeContext "useEffect"
  || Text.includes beforeContext "import React".

Definition codeRequestPatterns : list string :=
  [ "add"; "create"; "build"; "make"; "implement";
    "component"; "function"; "class"; "method";
    "navbar"; "button"; "form"; "modal"; "card";
    "tailwind"; "css"; "style"; "react"; "jsx" ].

(** [language === name] *)
Definition isLanguage (d : Detected) (name : string) : bool :=
  match d with
  | Language l => (l =? name)%string
  | Inherited _ => false
  end.

(** The prompt of a comment that asks for code. *)
Definition commentPrompt (language framework imports functionContext
                          lineBeforeCursor : string) : string :=
  "You are a code completion AI. The user has written a comment requesting code implementation."
  ++ Text.nl ++ Text.nl
  ++ "Context:" ++ Text.nl
  ++ "- Language: " ++ language ++ Text.nl
  ++ "- Framework: " ++ framework ++ Text.nl
  ++ "- Comment: " ++ Text.quote ++ Js.trim lineBeforeCursor ++ Text.quote ++ Text.nl
  ++ Text.nl
  ++ (if Js.truthy imports then "Imports:" ++ Text.nl ++ imports ++ Text.nl else "")
  ++ Text.nl
  ++ Text.nl
  ++ "Current function context:" ++ Text.nl
  ++ functionContext ++ Text.nl
  ++ Text.nl
  ++ "IMPORTANT: Generate ONLY the actual code that should come after the comment, not explanations. "
  ++ Text.nl
  ++ "Start writing code immediately. If it's a React component request, write JSX. "
  ++ Text.nl
  ++ "If it's a function request, write the function. Be concise and practical."
  ++ Text.nl
  ++ Text.nl
  ++ "Complete this code:" ++ Text.nl
  ++ lineBeforeCursor.

(** The prompt of a completion. *)
Definition completionPrompt (imports functionContext lineBeforeCursor : string)
  : string :=
  imports ++ Text.nl ++ Text.nl ++ functionContext ++ Text.nl ++ lineBeforeCursor.

Definition buildPrompt (context : Context) (suggestionType : string) : string :=
  let imports := extractImports (beforeContext context) in
  let functionContext :=
    extractFunctionContext (beforeContext context) (cursorLine context) in
  let lineBeforeCursor :=
    Js.substring 0 (cursorColumn context) (currentLine context) in
  let lineAfterCursor :=
    Js.substring (cursorColumn context) (Js.strlen (currentLine context))
                 (currentLine context) in
  let commentText := Text.toLowerCase lineBeforeCursor in
  let isCodeRequest :=
    existsb (fun pattern => Text.includes commentText pattern) codeRequestPatterns in
  if isAfterComment context && isCodeRequest
     && (isLanguage (language context) "JavaScript"
         || isLanguage (language context) "TypeScript")
  then
    commentPrompt
      (match language context with Language l => l | Inherited _ => "" end)
      (framework context) imports functionContext lineBeforeCursor
  else if (isLanguage (language context) "TypeScript"
           || isLanguage (language context) "JavaScript")
          && detectReactPatterns (beforeContext context)
          && Text.includes lineBeforeCursor "useState"
  then completionPrompt imports functionContext lineBeforeCursor
  else if (isLanguage (language context) "TypeScript"
           || isLanguage (language context) "JavaScript")
          && (Text.includes lineBeforeCursor "return ("
              || Text.includes lineBeforeCursor "<"
              || Text.includes (beforeContext context) "return (")
  then completionPrompt imports functionContext lineBeforeCursor
  else if (isLanguage (language context) "TypeScript"
           || isLanguage (language context) "JavaScript")
          && detectReactPatterns (beforeContext context)
  then completionPrompt imports functionContext lineBeforeCursor
  else if Js.truthy (Js.trim (afterContext context))
  then completionPrompt imports functionContext lineBeforeCursor
  else completionPrompt imports functionContext lineBeforeCursor.

(** The filter of the lines of a suggestion: a line whose trimmed text
    starts with "import " is dropped when that text has been seen. *)
Fixpoint dedupeLines (lines : list string) (seenImports : list string) : list string :=
  match lines with
  | [] => []
  | line :: rest =>
      let trimmedLine := Js.trim line in
      if Text.startsWith trimmedLine "import " then
        if Runtime.memString trimmedLine seenImports
        then dedupeLines rest seenImports
        else line :: dedupeLines rest (trimmedLine :: seenImports)
      else line :: dedupeLines rest seenImports
  end.

(** The removal of duplicate imports from a suggestion, between the two
    [trim]s of the route. *)
Definition dedupeImports (suggestion : string) : string :=
  Js.join_lines (dedupeLines (Js.split_lines suggestion) []).

End CodeAnalysis.

(** ** The cache test endpoint *)

Module CacheTestRoute.

Import Runtime.

Definition testCases : list CodeContextInput.t :=
  [ CodeContextInput.mk
      (Js.join_lines
         [ "function calculateSum(a: number, b: number): number {";
           "  return a + b;";
           "}";
           "";
           "const result = calculateSum(5, 3);";
           "console.log(result);" ])
      4 20 "TypeScript" "None" "code_completion";
    CodeContextInput.mk
      (Js.join_lines
         [ "import React, { useState } from 'react';";
           "";
           "export default function Counter() {";
           "  const [count, setCount] = useState(0);";
           "  ";
           "  return (";
           "    <div>";
           "      <p>Count: {count}</p>";
           "      <button onClick={() => }>";
           "        Increment";
           "      </button>";
           "    </div>";
           "  );";
           "}" ])
      8 26 "TypeScript" "React" "code_completion";
    CodeContextInput.mk "How do I optimize React performance?"
      0 0 "Chat" "chat" "chat_general";
    CodeContextInput.mk "Explain async/await in JavaScript"
      0 0 "Chat" "review" "chat_review" ].

(** The suggestion stored for a test case. *)
Definition suggestionFor (testCase : CodeContextInput.t) : string :=
  if (CodeContextInput.language testCase =? "Chat")%string then
    if Text.includes (CodeContextInput.suggestionType testCase) "review"
    then "Async/await is a modern JavaScript feature that makes asynchronous code more readable..."
    else "To optimize React performance, consider using React.memo, useMemo, and useCallback..."
  else "setCount(count + 1)".

(** An element of [results] of the action "populate". *)
Record Populated : Type := mkPopulated {
  p_cached : bool;
  p_testCase : string
}.

(** An element of [results] of the action "test". *)
Record Tested : Type := mkTested {
  t_testCase : string;
  t_cached : bool;
  t_responseTime : Z;
  t_suggestion : string
}.

Inductive Reply : Type :=
| PopulateDone (results : list Populated)
| TestDone (results : list Tested)
| InvalidAction (status : Z)
| TestFailed (status : Z).

Fixpoint populate (cases : list CodeContextInput.t) (results : list Populated)
  : M (list Populated) :=
  match cases with
  | [] => ret results
  | testCase :: rest =>
      SemanticCache.cacheSuggestion testCase (suggestionFor testCase) ;;;
      populate rest
        (results ++ [mkPopulated true (CodeContextInput.suggestionType testCase)])%list
  end.

(** [cachedResult?.substring(0, 50) + "..." || "No cache hit"]: the sum
    is evaluated first, and [undefined + "..."] is "undefined...". *)
Definition preview (cachedResult : option string) : string :=
  let text :=
    match cachedResult with
    | Some s => Js.substring 0 50 s ++ "..."
    | None => "undefined" ++ "..."
    end in
  if Js.truthy text then text else "No cache hit".

(** [!!cachedResult] *)
Definition found (cachedResult : option string) : bool :=
  match cachedResult with
  | Some s => Js.truthy s
  | None => false
  end.

Fixpoint runTests (cases : list CodeContextInput.t) (results : list Tested)
  : M (list Tested) :=
  match cases with
  | [] => ret results
  | testCase :: rest =>
      startTime <- Date_now ;;
      cachedResult <- SemanticCache.getCachedSuggestion testCase ;;
      endTime <- Date_now ;;
      runTests rest
        (results ++ [mkTested (CodeContextInput.suggestionType testCase)
                              (found cachedResult)
                              (endTime - startTime)
                              (preview cachedResult)])%list
  end.

(** The request: a body that is not an object makes the handler throw;
    otherwise [action] is a string, or something else ([None]). *)
Inductive Request : Type :=
| Unreadable
| Action (action : option string).

Definition POST (request : Request) : M Reply :=
  try_catch
    (match request with
     | Unreadable => throw
     | Action (Some action) =>
         if (action =? "populate")%string then
           results <- populate testCases [] ;;
           ret (PopulateDone results)
         else if (action =? "test")%string then
           results <- runTests testCases [] ;;
           ret (TestDone results)
         else ret (InvalidAction 400)
     | Action None => ret (InvalidAction 400)
     end)
    (console_error ErrCacheTest ;;; ret (TestFailed 500)).

End CacheTestRoute.
(** ** More vocabulary of the statements *)

Module Vocabulary.

Import Runtime CacheStats.

(** A call of [recordRequest] that is flagged as an error; one that is
    not and is flagged as served from the cache; one that is neither. *)
Definition isError (c : PerformanceMonitor.Call) : bool := snd c.
Definition isHit (c : PerformanceMonitor.Call) : bool := negb (snd c) && snd (fst c).
Definition isMiss (c : PerformanceMonitor.Call) : bool :=
  negb (snd c) && negb (snd (fst c)).

Definition countIf (p : PerformanceMonitor.Call -> bool)
  (calls : list PerformanceMonitor.Call) : Z :=
  Z.of_nat (List.length (filter p calls)).

(** A command that reads the store. *)
Definition readOnly (c : RedisCmd) : bool :=
  match c with
  | CmdConnect | CmdKeys _ | CmdGet _ => true
  | CmdSetEx _ _ _ | CmdDel _ => false
  end.

(** The statistics of a list of readable entries, in their order. *)
Definition summarise (entries : list (string * CacheEntry)) (stats : Stats) : Stats :=
  fold_left (fun s p => account (snd p) s) entries stats.

(** The entry is of the language. *)
Definition inLanguage (l : string) (p : string * CacheEntry) : bool :=
  (language (snd p) =? l)%string.

(** The commands sent between two worlds only read. *)
Definition readsOnly (w w' : World) : Prop :=
  exists cmds, issued w' = (cmds ++ issued w)%list /\ forallb readOnly cmds = true.

(** The statistics of a store that answers every command. *)
Definition statsOf (w : World) : Stats :=
  summarise (CacheSpec.cacheEntries w)
    (mkStats (Z.of_nat (List.length (CacheSpec.allKeys w))) [] (clock w) 0).

(** What running the body of [getCacheStats] amounts to. *)
Definition statsOutcome (w : World) (r : Outcome Stats * World) : Prop :=
  CacheSpec.sameData w (snd r)
  /\ readsOnly w (snd r)
  /\ (fst r = Thrown \/ fst r = Returned (statsOf w))
  /\ (faults w = [] -> fst r = Returned (statsOf w))
  /\ (CacheSpec.failsNext w = true -> fst r = Thrown).

(** The number of entries of a language. *)
Definition entriesIn (l : string) (entries : list (string * CacheEntry)) : Z :=
  Z.of_nat (List.length (filter (inLanguage l) entries)).

(** Two worlds with the same surroundings: clock, matcher, model,
    backend and prompts sent; and no fault is to come in the second when
    none is in the first. *)
Definition sameEnv (w w' : World) : Prop :=
  clock w' = clock w /\ stringmatch w' = stringmatch w
  /\ embedder w' = embedder w /\ backend w' = backend w
  /\ generated w' = generated w
  /\ (faults w = [] -> faults w' = []).

(** A computation that leaves the surroundings as they are. *)
Definition keepsEnv {A : Type} (m : M A) : Prop :=
  forall w, sameEnv w (snd (m w)).

(** The entry [cacheSuggestion] builds, and the item it stores. *)
Definition newEntry (w : World) (input : CodeContextInput.t) (text : string)
  : CacheEntry :=
  mkCacheEntry (SemanticCache.generateCacheId (clock w) input)
               (SemanticCache.buildContext input)
               (CacheSpec.queryOf w input)
               (Js.trim text)
               (CodeContextInput.language input)
               (CodeContextInput.framework input)
               (clock w) 0.

Definition newItem (w : World) (input : CodeContextInput.t) (text : string) : Item :=
  mkItem (CacheSpec.keyOf (newEntry w input text))
         (Json (newEntry w input text))
         (clock w + SemanticCache.CACHE_TTL * 1000).

(** Every readable entry has been hit at least once. *)
Definition allHit (entries : list (string * CacheEntry)) : bool :=
  forallb (fun p => (1 <=? hitCount (snd p))%Z) entries.

(** The string has no dot; no line break. *)
Fixpoint noDot (s : string) : bool :=
  match s with
  | EmptyString => true
  | String c s' => negb (Ascii.eqb c "."%char) && noDot s'
  end.

Fixpoint oneLine (s : string) : bool :=
  match s with
  | EmptyString => true
  | String c s' => negb (Ascii.eqb c "010"%char) && oneLine s'
  end.

(** The line is an import for the removal of duplicates. *)
Definition isImport (line : string) : bool :=
  Text.startsWith (Js.trim line) "import ".

(** The names [detectLanguage] can return. *)
Definition languageNames : list string :=
  [ "TypeScript"; "JavaScript"; "Python"; "Java"; "Go"; "Rust"; "PHP" ].

(** Every character of the string is of the class. *)
Fixpoint allChars (q : ascii -> bool) (s : string) : bool :=
  match s with
  | EmptyString => true
  | String c s' => q c && allChars q s'
  end.

(** The character is not a line terminator. *)
Definition notTerminator (c : ascii) : bool := negb (Regex.isLineTerminator c).

(** The input of the cache for a code request, given the two detectors
    of the route. *)
Definition codeInput (detectLanguage : string -> option string -> string)
  (detectFramework : string -> string)
  (content : string) (line column : Z) (type : string)
  (fileName : option string) : CodeContextInput.t :=
  CodeContextInput.mk content line column
    (detectLanguage content fileName) (detectFramework content) type.

(** The last character of a string, if any. *)
Fixpoint lastChar (s : string) : option ascii :=
  match s with
  | EmptyString => None
  | String c s' => match lastChar s' with
                   | Some d => Some d
                   | None => Some c
                   end
  end.

(** What the test endpoint shows for a lookup without result. *)
Definition previewOfNothing (text : string) : Prop :=
  text = "undefined..." \/ text = "...".

(** A turn with its content cut to 200 characters. *)
Definition clipTurn (msg : EmbeddingService.ChatMessage) : EmbeddingService.ChatMessage :=
  EmbeddingService.mkChatMessage (EmbeddingService.role msg)
    (Js.substring 0 200 (EmbeddingService.content msg)).

End Vocabulary.
(** ** More sample worlds *)

Module MoreSamples.

Import Runtime.

(** A readable entry that has been hit: its hit count cycles through
    1..7 and its time stamp is its number. *)
Definition busyEntry (i : nat) : Item :=
  mkItem ("code_suggestion:JavaScript:None:" ++ Js.show (Z.of_nat i) ++ "_x")
         (Json (mkCacheEntry (Js.show (Z.of_nat i) ++ "_x") "ctx" [3; 4]%float
                             "text" "JavaScript" "None"
                             (Z.of_nat i) (Z.of_nat (1 + i mod 7))))
         2000000.

(** A full cache: 1000 readable entries, each hit at least once. *)
Definition busyWorld : World := Samples.worldOf (map busyEntry (seq 0 1000)).

End MoreSamples.

(* ================================================================== *)
(** * Facts about binary64 arithmetic                                  *)
(* ================================================================== *)

Module FloatFacts.

Lemma SFmul_comm (x y : spec_float) : SF64mul x y = SF64mul y x.
Proof.
  unfold SF64mul, SFmul.
  destruct x as [sx | sx | | sx mx ex], y as [sy | sy | | sy my ey];
    try reflexivity; try (now rewrite xorb_comm).
  now rewrite xorb_comm, Pos.mul_comm, Z.add_comm.
Qed.

Lemma mul_comm (x y : float) : (x * y = y * x)%float.
Proof.
  apply Prim2SF_inj. rewrite !mul_spec. apply SFmul_comm.
Qed.

Lemma SFcompare_lt_trans (a b c : spec_float) :
  SFcompare a b = Some Lt -> SFcompare b c = Some Lt -> SFcompare a c = Some Lt.
Proof.
  destruct a as [sa | sa | | sa ma ea], b as [sb | sb | | sb mb eb],
           c as [sc | sc | | sc mc ec];
    try destruct sa; try destruct sb; try destruct sc; simpl;
    try congruence; try discriminate.
  - change (Pos.compare_cont Eq) with Pos.compare.
    destruct (Z.compare_spec ea eb), (Z.compare_spec eb ec), (Z.compare_spec ea ec);
      try lia; try congruence;
      destruct (Pos.compare_spec ma mb), (Pos.compare_spec mb mc),
               (Pos.compare_spec ma mc); simpl; try lia; try congruence.
  - change (Pos.compare_cont Eq) with Pos.compare.
    destruct (Z.compare_spec ea eb), (Z.compare_spec eb ec), (Z.compare_spec ea ec);
      try lia; try congruence;
      destruct (Pos.compare_spec ma mb), (Pos.compare_spec mb mc),
               (Pos.compare_spec ma mc); simpl; try lia; try congruence.
Qed.

Lemma ltb_trans (x y z : float) :
  (x <? y)%float = true -> (y <? z)%float = true -> (x <? z)%float = true.
Proof.
  rewrite !ltb_spec. unfold SFltb.
  destruct (SFcompare (Prim2SF x) (Prim2SF y)) as [[]|] eqn:E1; try discriminate.
  destruct (SFcompare (Prim2SF y) (Prim2SF z)) as [[]|] eqn:E2; try discriminate.
  intros _ _. now rewrite (SFcompare_lt_trans _ _ _ E1 E2).
Qed.

Lemma SFcompare_irrefl (a : spec_float) : SFcompare a a <> Some Lt.
Proof.
  destruct a as [sa | sa | | sa ma ea]; try destruct sa; simpl; try congruence.
  - rewrite Z.compare_refl. change (Pos.compare_cont Eq) with Pos.compare.
    rewrite Pos.compare_refl. discriminate.
  - rewrite Z.compare_refl. change (Pos.compare_cont Eq) with Pos.compare.
    rewrite Pos.compare_refl. discriminate.
Qed.

Lemma ltb_irrefl (x : float) : (x <? x)%float = false.
Proof.
  rewrite ltb_spec. unfold SFltb.
  destruct (SFcompare (Prim2SF x) (Prim2SF x)) as [[]|] eqn:E; try reflexivity.
  now apply SFcompare_irrefl in E.
Qed.

Lemma SFcompare_neg_trans (b x s : spec_float) :
  SFcompare b s = Some Lt ->
  SFcompare b x = Some Eq \/ SFcompare b x = Some Gt ->
  SFcompare x s = Some Lt.
Proof.
  intros H1 [H2 | H2]; revert H1 H2;
  destruct b as [sb | sb | | sb mb eb], x as [sx | sx | | sx mx ex],
           s as [ss | ss | | ss ms es];
    try destruct sb; try destruct sx; try destruct ss; simpl;
    try congruence; try discriminate;
    change (Pos.compare_cont Eq) with Pos.compare;
    destruct (Z.compare_spec eb es), (Z.compare_spec eb ex), (Z.compare_spec ex es);
      try lia; try congruence;
      destruct (Pos.compare_spec mb ms), (Pos.compare_spec mb mx),
               (Pos.compare_spec mx ms); simpl; try lia; try congruence.
Qed.

Lemma SFcompare_lt_comparable (t x b : spec_float) :
  SFcompare t x = Some Lt -> SFcompare b b <> None -> SFcompare b x <> None.
Proof.
  destruct t as [st | st | | st mt et], x as [sx | sx | | sx mx ex],
           b as [sb | sb | | sb mb eb]; simpl; congruence.
Qed.

Lemma SFcompare_lt_self (b s : spec_float) :
  SFcompare b s = Some Lt -> SFcompare b b <> None.
Proof.
  destruct b as [sb | sb | | sb mb eb], s as [ss | ss | | ss ms es]; simpl; congruence.
Qed.

(** When [x] exceeds some [t] (so [x] is a number), and [b] is not below
    [x] but is below [s], then [x] is below [s]. *)
Lemma ltb_neg_trans (t b x s : float) :
  (t <? x)%float = true -> (b <? x)%float = false -> (b <? s)%float = true ->
  (x <? s)%float = true.
Proof.
  rewrite !ltb_spec. unfold SFltb. intros Ht Hbx Hbs.
  destruct (SFcompare (Prim2SF t) (Prim2SF x)) as [[] |] eqn:E1; try discriminate.
  destruct (SFcompare (Prim2SF b) (Prim2SF s)) as [[] |] eqn:E2; try discriminate.
  pose proof (SFcompare_lt_comparable _ _ (Prim2SF b) E1 (SFcompare_lt_self _ _ E2)) as Hc.
  destruct (SFcompare (Prim2SF b) (Prim2SF x)) as [[] |] eqn:E3;
    try discriminate; try congruence.
  - now rewrite (SFcompare_neg_trans _ _ _ E2 (or_introl E3)).
  - now rewrite (SFcompare_neg_trans _ _ _ E2 (or_intror E3)).
Qed.

Lemma is_nan_of_spec (x : float) : Prim2SF x = S754_nan -> x = nan.
Proof. intros H. apply Prim2SF_inj. rewrite H. reflexivity. Qed.

Lemma mul_zero_l (y : float) :
  ((0 * y =? 0)%float = true) \/ (0 * y)%float = nan.
Proof.
  rewrite eqb_spec. 
  assert (H : Prim2SF (0 * y)%float = SF64mul (S754_zero false) (Prim2SF y))
    by (rewrite mul_spec; reflexivity).
  destruct (Prim2SF y) as [sy | sy | | sy my ey]; simpl in H.
  - left. rewrite H. reflexivity.
  - right. now apply is_nan_of_spec.
  - right. now apply is_nan_of_spec.
  - left. rewrite H. reflexivity.
Qed.

Lemma div_nan_r (x : float) : (x / nan)%float = nan.
Proof.
  apply is_nan_of_spec. rewrite div_spec.
  change (Prim2SF nan) with S754_nan.
  unfold SF64div, SFdiv. now destruct (Prim2SF x).
Qed.

Lemma SFcompare_refl_finite (s : bool) (m : positive) (e : Z) :
  SFcompare (S754_finite s m e) (S754_finite s m e) = Some Eq.
Proof.
  destruct s; cbn; rewrite Z.compare_refl;
    change (Pos.compare_cont Eq) with Pos.compare; now rewrite Pos.compare_refl.
Qed.

(** A float is finite when it is a zero or a finite number. *)
Lemma is_finite_spec (y : float) :
  is_finite y
  = match Prim2SF y with
    | S754_zero _ | S754_finite _ _ _ => true
    | S754_infinity _ | S754_nan => false
    end.
Proof.
  unfold is_finite, is_nan, is_infinity.
  rewrite !eqb_spec, abs_spec.
  change (Prim2SF infinity) with (S754_infinity false).
  destruct (Prim2SF y) as [s | s | | s m e]; try reflexivity.
  - destruct s; reflexivity.
  - unfold SFeqb. rewrite SFcompare_refl_finite. reflexivity.
Qed.

Lemma zero_mul_finite (y : float) :
  is_finite y = true -> (0 * y =? 0)%float = true.
Proof.
  rewrite is_finite_spec, eqb_spec, mul_spec.
  change (Prim2SF 0) with (S754_zero false).
  destruct (Prim2SF y) as [s | s | | s m e]; try discriminate; intros _;
    destruct s; reflexivity.
Qed.

Lemma zero_mul_not_finite (y : float) :
  is_finite y = false -> (0 * y)%float = nan.
Proof.
  rewrite is_finite_spec. intros H. apply is_nan_of_spec. rewrite mul_spec.
  change (Prim2SF 0) with (S754_zero false).
  destruct (Prim2SF y) as [s | s | | s m e]; try discriminate; reflexivity.
Qed.

Lemma eqb_zero_inv (x : float) :
  (x =? 0)%float = true -> exists s, Prim2SF x = S754_zero s.
Proof.
  rewrite eqb_spec. change (Prim2SF 0) with (S754_zero false).
  destruct (Prim2SF x) as [s | s | | s m e]; try discriminate.
  - intros _. now exists s.
  - destruct s; discriminate.
  - destruct s; discriminate.
Qed.

(** The square of a zero, of either sign, added to 0 is 0. *)
Lemma add_square_of_zero (x : float) :
  (x =? 0)%float = true -> (0 + x * x)%float = 0%float.
Proof.
  intros H. destruct (eqb_zero_inv x H) as [s E].
  apply Prim2SF_inj. rewrite add_spec, mul_spec, E.
  change (Prim2SF 0) with (S754_zero false).
  destruct s; reflexivity.
Qed.

End FloatFacts.

(* ================================================================== *)
(** * The similarity engine                                            *)
(* ================================================================== *)

Section Similarity.

Import EmbeddingService.

(** The loop computes the three sums independently of one another. *)
Lemma similarityLoop_sums (e1 e2 : Embedding) :
  forall d n1 n2 : float,
    List.length e1 = List.length e2 ->
    similarityLoop e1 e2 d n1 n2 = (dotFrom d e1 e2, normSqFrom n1 e1, normSqFrom n2 e2).
Proof.
  revert e2. induction e1 as [| x e1 IH]; intros [| y e2] d n1 n2 Hlen;
    simpl in *; try discriminate; try reflexivity.
  apply IH. now injection Hlen.
Qed.

Lemma dotFrom_comm (e1 e2 : Embedding) :
  forall d : float, dotFrom d e1 e2 = dotFrom d e2 e1.
Proof.
  revert e2. induction e1 as [| x e1 IH]; intros [| y e2] d; simpl; try reflexivity.
  rewrite (FloatFacts.mul_comm x y). apply IH.
Qed.

(** What [calculateSimilarity] returns, in closed form. *)
Lemma calculateSimilarity_eq (a b : Embedding) :
  calculateSimilarity a b =
    if negb (List.length a =? List.length b)%nat then 0%float
    else if (sqrt (normSq a) * sqrt (normSq b) =? 0)%float then 0%float
    else (dot a b / (sqrt (normSq a) * sqrt (normSq b)))%float.
Proof.
  unfold calculateSimilarity, dot, normSq.
  destruct (List.length a =? List.length b)%nat eqn:Hlen; simpl; [| reflexivity].
  apply Nat.eqb_eq in Hlen.
  now rewrite (similarityLoop_sums a b _ _ _ Hlen).
Qed.

Lemma calculateSimilarity_sym (a b : Embedding) :
  calculateSimilarity a b = calculateSimilarity b a.
Proof.
  rewrite !calculateSimilarity_eq.
  rewrite (Nat.eqb_sym (List.length b) (List.length a)).
  unfold dot. rewrite (dotFrom_comm a b).
  now rewrite (FloatFacts.mul_comm (sqrt (normSq a)) (sqrt (normSq b))).
Qed.

(** The squared norm of a vector of zeros, of either sign, is 0. *)
Lemma normSq_allZero (a : Embedding) :
  CacheSpec.allZero a = true -> normSq a = 0%float.
Proof.
  unfold normSq. induction a as [| x a IH]; cbn; [reflexivity |].
  intros H. apply andb_true_iff in H. destruct H as [Hx Ha].
  rewrite (FloatFacts.add_square_of_zero x Hx). exact (IH Ha).
Qed.

(** The similarity of a vector of zeros with a vector of the same
    length: 0 when the computed magnitude of the other vector is finite,
    and otherwise NaN. *)
Lemma calculateSimilarity_allZero (a b : Embedding) :
  List.length a = List.length b -> CacheSpec.allZero a = true ->
  calculateSimilarity a b = if is_finite (sqrt (normSq b)) then 0%float else nan.
Proof.
  intros Hlen Zero. rewrite calculateSimilarity_eq.
  rewrite Hlen, Nat.eqb_refl. cbn [negb].
  rewrite (normSq_allZero a Zero). change (sqrt 0)%float with 0%float.
  destruct (is_finite (sqrt (normSq b))) eqn:Fin.
  - now rewrite (FloatFacts.zero_mul_finite _ Fin).
  - rewrite (FloatFacts.zero_mul_not_finite _ Fin).
    change (nan =? 0)%float with false. cbv iota. apply FloatFacts.div_nan_r.
Qed.

(** C5 (as amended).  [calculateSimilarity] never raises, and it is
    symmetric.  It returns 0 when the dimensions differ.  When they
    agree, it returns 0 if the product of the two computed magnitudes
    (the square roots of the sums of the squares, in binary64
    arithmetic) is zero, and otherwise the quotient of the computed dot
    product by that product.  For a vector of zeros this is 0 when the
    computed magnitude of the other vector is finite, and NaN when it is
    not. *)
Theorem calculateSimilarity_contract (a b : EmbeddingService.Embedding) :
  EmbeddingService.calculateSimilarity a b = EmbeddingService.calculateSimilarity b a
  /\ (List.length a <> List.length b ->
      EmbeddingService.calculateSimilarity a b = 0%float)
  /\ (List.length a = List.length b ->
      EmbeddingService.calculateSimilarity a b
      = if (sqrt (normSq a) * sqrt (normSq b) =? 0)%float then 0%float
        else (dot a b / (sqrt (normSq a) * sqrt (normSq b)))%float)
  /\ (List.length a = List.length b -> CacheSpec.allZero a = true ->
      EmbeddingService.calculateSimilarity a b
      = if is_finite (sqrt (normSq b)) then 0%float else nan).
Proof.
  split; [apply calculateSimilarity_sym |]. split; [| split].
  - intros Hlen. unfold calculateSimilarity.
    apply Nat.eqb_neq in Hlen. now rewrite Hlen.
  - intros Hlen. rewrite calculateSimilarity_eq, Hlen, Nat.eqb_refl. reflexivity.
  - apply calculateSimilarity_allZero.
Qed.

(** C5 (counterexample).  The result is not confined to [-1, 1], and a
    vector of zero magnitude does not always give 0.  The similarity of
    (1, 5) with itself is 26 / (sqrt 26 * sqrt 26), which is
    1.0000000000000002; the similarity of (2.7e-162) with (1) is above
    1.2, the square of the small component being rounded among the
    subnormal numbers; the similarity of (1e200) with itself is NaN, the
    squares overflowing to Infinity; and the similarity of (0) with
    (1e200) is NaN, not 0. *)
Lemma calculateSimilarity_above_one :
  EmbeddingService.calculateSimilarity [1; 5]%float [1; 5]%float = 1.0000000000000002%float
  /\ (EmbeddingService.calculateSimilarity [1; 5]%float [1; 5]%float <=? 1)%float = false
  /\ (1.2 <? EmbeddingService.calculateSimilarity [2.7e-162]%float [1]%float)%float = true
  /\ EmbeddingService.calculateSimilarity [1e200]%float [1e200]%float = nan
  /\ EmbeddingService.calculateSimilarity [0]%float [1e200]%float = nan.
Proof. repeat split; vm_compute; reflexivity. Qed.

Lemma normSq_zeros (n : nat) : normSq (repeat 0%float n) = 0%float.
Proof. unfold normSq. induction n as [| n IH]; simpl; [reflexivity | exact IH]. Qed.

Lemma similarity_zeros_cases (n : nat) (b : Embedding) :
  calculateSimilarity (repeat 0%float n) b = 0%float
  \/ calculateSimilarity (repeat 0%float n) b = nan.
Proof.
  rewrite calculateSimilarity_eq.
  destruct (negb _); [now left |].
  rewrite !normSq_zeros.
  change (sqrt 0)%float with 0%float.
  destruct (FloatFacts.mul_zero_l (sqrt (normSq b))) as [H | H]; rewrite H.
  - now left.
  - right. change (nan =? 0)%float with false. cbv iota. apply FloatFacts.div_nan_r.
Qed.

(** The similarity of the zero vector of [generateEmbedding]. *)
Lemma similarity_zeroVector (b : Embedding) :
  calculateSimilarity zeroVector b
  = if (List.length b =? 384)%nat && negb (is_finite (sqrt (normSq b)))
    then nan else 0%float.
Proof.
  destruct (List.length b =? 384)%nat eqn:Hlen; cbn [andb].
  - apply Nat.eqb_eq in Hlen.
    rewrite (calculateSimilarity_allZero zeroVector b).
    + now destruct (is_finite (sqrt (normSq b))).
    + unfold zeroVector. now rewrite repeat_length.
    + reflexivity.
  - unfold calculateSimilarity, zeroVector. rewrite repeat_length.
    rewrite Nat.eqb_sym, Hlen. reflexivity.
Qed.

Lemma improves_zeros (n : nat) (b : Embedding) (best : option SemanticCache.BestMatch) :
  SemanticCache.improves (calculateSimilarity (repeat 0%float n) b) best = false.
Proof.
  unfold SemanticCache.improves.
  destruct (similarity_zeros_cases n b) as [H | H]; rewrite H; reflexivity.
Qed.

End Similarity.

(* ================================================================== *)
(** * The lookup                                                       *)
(* ================================================================== *)

Import Runtime EmbeddingService SemanticCache CacheSpec.

Lemma sameData_refl w : sameData w w.
Proof. repeat split. Qed.

Lemma sameData_trans w1 w2 w3 : sameData w1 w2 -> sameData w2 w3 -> sameData w1 w3.
Proof.
  unfold sameData. intros (?&?&?&?&?&?) (?&?&?&?&?&?).
  repeat split; congruence.
Qed.

Lemma sameData_command c w : sameData w (with_command c w).
Proof. repeat split. Qed.

Lemma sameData_error e w : sameData w (with_error e w).
Proof. repeat split. Qed.

(** A command that reads: it throws, or it returns what the data say. *)
Lemma get_cases key w :
  (get key w = (Thrown, with_command (CmdGet key) w)
   /\ exists fs, faults w = true :: fs)
  \/ (get key w = (Returned (lookupItem (clock w) key (items w)),
                  with_command (CmdGet key) w)
      /\ forall fs, faults w <> true :: fs).
Proof.
  unfold get, command. destruct w as [c its sm fl iss em bk gen con]; simpl.
  destruct fl as [| [] fl]; simpl.
  - right. split; [reflexivity | congruence].
  - left. split; [reflexivity | eauto].
  - right. split; [reflexivity | congruence].
Qed.

Lemma faults_command c w : faults (with_command c w) = tl (faults w).
Proof. reflexivity. Qed.

Lemma scanKeys_cons (q : Embedding) key rest best w :
  scanKeys q (key :: rest) best w =
    match get key w with
    | (Returned cachedData, w1) =>
        match cachedData with
        | None => scanKeys q rest best w1
        | Some data =>
            if negb (valueTruthy data) then scanKeys q rest best w1
            else
              match JSON_parse data with
              | Some entry =>
                  scanKeys q rest
                    (if improves (calculateSimilarity q (embedding entry)) best
                     then Some (mkBestMatch key
                                  (calculateSimilarity q (embedding entry)) entry)
                     else best) w1
              | None => scanKeys q rest best (with_error ErrParseEntry w1)
              end
        end
    | (Thrown, w1) => (Thrown, w1)
    end.
Proof.
  cbn [scanKeys]. unfold bind at 1.
  destruct (get key w) as [[[[e | s] |] |] w1]; try reflexivity.
  - cbn. now destruct (improves _ best).
  - cbn. now destruct (Js.truthy s).
Qed.

Lemma scanKeys_spec (q : Embedding) (ks : list string) :
  forall (best : option BestMatch) (w : World),
    sameData w (snd (scanKeys q ks best w))
    /\ (fst (scanKeys q ks best w) = Thrown
        \/ fst (scanKeys q ks best w)
           = Returned (selectFrom q (readableUnder w ks) best))
    /\ (faults w = [] ->
        faults (snd (scanKeys q ks best w)) = []
        /\ fst (scanKeys q ks best w)
           = Returned (selectFrom q (readableUnder w ks) best)).
Proof.
  induction ks as [| key rest IH]; intros best w.
  - simpl. repeat split; auto using sameData_refl.
  - rewrite scanKeys_cons.
    destruct (get_cases key w) as [[E [fs Hf]] | [E Hf]]; rewrite E.
    + simpl. split; [apply sameData_command |]. split; [now left |].
      rewrite Hf. discriminate.
    + set (w1 := with_command (CmdGet key) w).
      assert (S1 : sameData w w1) by apply sameData_command.
      assert (R1 : forall l, readableUnder w1 l = readableUnder w l) by reflexivity.
      assert (F1 : faults w = [] -> faults w1 = [])
        by (intros H; unfold w1; rewrite faults_command, H; reflexivity).
      unfold readableUnder. cbn [flat_map]. fold (readableUnder w rest).
      destruct (lookupItem (clock w) key (items w)) as [[e | s] |] eqn:L; cbn -[scanKeys].
      * destruct (IH (if improves (calculateSimilarity q (embedding e)) best
                      then Some (mkBestMatch key (calculateSimilarity q (embedding e)) e)
                      else best) w1) as (S & C & F).
        rewrite R1 in C, F.
        destruct (improves _ best);
          (split; [exact (sameData_trans _ _ _ S1 S) | split; [exact C | auto]]).
      * destruct (Js.truthy s) eqn:T; cbn -[scanKeys].
        -- destruct (IH best (with_error ErrParseEntry w1)) as (S & C & F).
           split; [exact (sameData_trans _ _ _ S1
                           (sameData_trans _ _ _ (sameData_error _ _) S)) |].
           split; [exact C |].
           intros H. apply F. simpl. now apply F1.
        -- destruct (IH best w1) as (S & C & F).
           rewrite R1 in C, F.
           split; [exact (sameData_trans _ _ _ S1 S) | split; [exact C | auto]].
      * destruct (IH best w1) as (S & C & F).
        rewrite R1 in C, F.
        split; [exact (sameData_trans _ _ _ S1 S) | split; [exact C | auto]].
Qed.

Section Selection.

Variable q : Embedding.

Lemma exceeds_not_below (e1 e2 : CacheEntry) :
  exceeds q e1 = true -> exceeds q e2 = false ->
  (similarityTo q e1 <? similarityTo q e2)%float = false.
Proof.
  unfold exceeds. intros H1 H2.
  destruct (similarityTo q e1 <? similarityTo q e2)%float eqn:E; [| reflexivity].
  rewrite (FloatFacts.ltb_trans _ _ _ H1 E) in H2. discriminate.
Qed.

Lemma scanInvariant_step seen key entry best :
  scanInvariant q seen best ->
  scanInvariant q (seen ++ [(key, entry)])
    (if improves (similarityTo q entry) best
     then Some (mkBestMatch key (similarityTo q entry) entry)
     else best).
Proof.
  intros Inv. unfold improves. fold (exceeds q entry).
  destruct (exceeds q entry) eqn:Ex; cbn [andb].
  - destruct best as [b |]; cbn [scanInvariant] in *.
    + destruct Inv as (Eb & Exb & Max & pre & post & Eseen & First).
      rewrite Eb.
      destruct (similarityTo q (bm_entry b) <? similarityTo q entry)%float eqn:Lt.
      * (* the entry replaces the best match *)
        cbn. split; [reflexivity |]. split; [exact Ex |]. split.
        -- intros k e Hin. apply in_app_or in Hin. destruct Hin as [Hin | [Hin | []]].
           ++ destruct (similarityTo q entry <? similarityTo q e)%float eqn:E;
                [| reflexivity].
              pose proof (Max k e Hin) as M. rewrite (FloatFacts.ltb_trans _ _ _ Lt E) in M.
              discriminate.
           ++ injection Hin as _ <-. apply FloatFacts.ltb_irrefl.
        -- exists seen, []. split; [reflexivity |].
           intros k e Hin Exe.
           eapply FloatFacts.ltb_neg_trans; [exact Exe | apply (Max k e Hin) | exact Lt].
      * (* the best match stays *)
        cbn. split; [exact Eb |]. split; [exact Exb |]. split.
        -- intros k e Hin. apply in_app_or in Hin. destruct Hin as [Hin | [Hin | []]].
           ++ now apply (Max k e).
           ++ injection Hin as _ <-. exact Lt.
        -- exists pre, (post ++ [(key, entry)])%list. split.
           ++ rewrite Eseen, <- app_assoc. reflexivity.
           ++ exact First.
    + cbn. split; [reflexivity |]. split; [exact Ex |]. split.
      * intros k e Hin. apply in_app_or in Hin. destruct Hin as [Hin | [Hin | []]].
        -- apply exceeds_not_below; [exact Ex | now apply (Inv k e)].
        -- injection Hin as _ <-. apply FloatFacts.ltb_irrefl.
      * exists seen, []. split; [reflexivity |].
        intros k e Hin Exe. rewrite (Inv k e Hin) in Exe. discriminate.
  - destruct best as [b |]; cbn [scanInvariant] in *.
    + destruct Inv as (Eb & Exb & Max & pre & post & Eseen & First).
      split; [exact Eb |]. split; [exact Exb |]. split.
      * intros k e Hin. apply in_app_or in Hin. destruct Hin as [Hin | [Hin | []]].
        -- now apply (Max k e).
        -- injection Hin as _ <-. now apply exceeds_not_below.
      * exists pre, (post ++ [(key, entry)])%list. split.
        -- rewrite Eseen, <- app_assoc. reflexivity.
        -- exact First.
    + intros k e Hin. apply in_app_or in Hin. destruct Hin as [Hin | [Hin | []]].
      * now apply (Inv k e).
      * injection Hin as _ <-. exact Ex.
Qed.

Lemma selectFrom_invariant cands :
  forall seen best,
    scanInvariant q seen best ->
    scanInvariant q (seen ++ cands) (selectFrom q cands best).
Proof.
  induction cands as [| [key entry] rest IH]; intros seen best Inv.
  - rewrite app_nil_r. exact Inv.
  - cbn [selectFrom].
    replace (seen ++ (key, entry) :: rest)%list
      with ((seen ++ [(key, entry)]) ++ rest)%list
      by (rewrite <- app_assoc; reflexivity).
    apply IH. now apply scanInvariant_step.
Qed.

Lemma selectFrom_correct cands :
  scanInvariant q cands (selectFrom q cands None).
Proof.
  apply (selectFrom_invariant cands [] None). intros k e [].
Qed.

End Selection.

Lemma command_eq {A : Type} (c : RedisCmd) (run : World -> A * list Item) (w : World) :
  command c run w =
    if failsNext w then (Thrown, with_command c w)
    else (Returned (fst (run w)), with_items (snd (run w)) (with_command c w)).
Proof.
  unfold command, failsNext.
  destruct (faults w) as [| [] fs]; destruct (run w); reflexivity.
Qed.

Lemma failsNext_nil w : faults w = [] -> failsNext w = false.
Proof. unfold failsNext. now intros ->. Qed.

Lemma matchingKeys_same w w' p : sameData w w' -> matchingKeys w' p = matchingKeys w p.
Proof. unfold sameData, matchingKeys. intros (-> & -> & -> & _). reflexivity. Qed.

Lemma readableUnder_same w w' ks : sameData w w' -> readableUnder w' ks = readableUnder w ks.
Proof. unfold sameData, readableUnder. intros (-> & -> & _). reflexivity. Qed.

Lemma generateEmbedding_eq text w :
  generateEmbedding text w
  = (Returned (embeddingOf w text),
     match embedder w text with Some _ => w | None => with_error ErrEmbedding w end).
Proof. unfold generateEmbedding, embeddingOf. now destruct (embedder w text). Qed.

Lemma faults_cons_not_nil w : failsNext w = true -> faults w <> [].
Proof. unfold failsNext. destruct (faults w); [discriminate | discriminate]. Qed.

Lemma lookupBody_outcome input w : LookupOutcome w input (lookupBody input w).
Proof.
  unfold lookupBody, getRedisClient.
  unfold bind at 1. rewrite command_eq.
  destruct (failsNext w) eqn:F0.
  { apply LookupFailed; [reflexivity | reflexivity | reflexivity |
                         now apply faults_cons_not_nil]. }
  cbn [fst snd].
  set (w1 := with_items (items w) (with_command CmdConnect w)).
  assert (S1 : sameData w w1) by (repeat split).
  assert (N1 : faults w = [] -> faults w1 = []) by (intros H; cbn; now rewrite H).
  assert (N1' : faults w1 <> [] -> faults w <> []) by (intros H H'; now apply H, N1).
  unfold bind at 1. rewrite generateEmbedding_eq.
  set (w2 := match embedder w1 (buildContext input) with
             | Some _ => w1 | None => with_error ErrEmbedding w1 end).
  assert (S2 : sameData w w2).
  { apply (sameData_trans _ w1); [exact S1 |].
    unfold w2. destruct (embedder w1 _); [apply sameData_refl | apply sameData_error]. }
  assert (N2 : faults w2 = faults w1) by (unfold w2; now destruct (embedder w1 _)).
  assert (Q : embeddingOf w1 (buildContext input) = queryOf w input) by reflexivity.
  rewrite Q.
  unfold bind at 1. unfold keys. rewrite command_eq.
  destruct (failsNext w2) eqn:F2.
  { apply LookupFailed; [apply S2 | apply S2 | apply S2 |].
    apply N1'. rewrite <- N2. now apply faults_cons_not_nil. }
  cbn [fst snd]. fold (matchingKeys w2 (categoryPattern input)).
  rewrite (matchingKeys_same _ _ _ S2).
  set (ks := matchingKeys w (categoryPattern input)).
  set (w3 := with_items (items w2) (with_command (CmdKeys (categoryPattern input)) w2)).
  assert (S3 : sameData w w3).
  { apply (sameData_trans _ w2); [exact S2 | repeat split]. }
  assert (N3 : faults w = [] -> faults w3 = []).
  { intros H. cbn. rewrite N2, (N1 H). reflexivity. }
  destruct (List.length ks =? 0)%nat eqn:L.
  { apply LookupMiss; [apply S3 | apply S3 | apply S3 |].
    unfold selection, candidates. fold ks.
    apply Nat.eqb_eq in L. destruct ks; [reflexivity | discriminate]. }
  unfold bind at 1.
  destruct (scanKeys_spec (queryOf w input) ks None w3) as (S4 & C4 & N4).
  rewrite (readableUnder_same _ _ _ S3) in C4, N4.
  fold (candidates w input) in C4, N4. fold (selection w input) in C4, N4.
  destruct (scanKeys (queryOf w input) ks None w3) as [o4 w4]. cbn [fst snd] in *.
  assert (S4' : sameData w w4) by (apply (sameData_trans _ w3); assumption).
  assert (C : clock w4 = clock w) by apply S4'.
  assert (I : items w4 = items w) by apply S4'.
  assert (M : stringmatch w4 = stringmatch w) by apply S4'.
  destruct C4 as [-> | ->].
  { apply LookupFailed; [exact C | exact M | exact I |].
    intros H. destruct (N4 (N3 H)) as [_ H']. discriminate. }
  change (selectFrom (queryOf w input) (readableUnder w ks) None)
    with (selection w input) in *.
  destruct (selection w input) as [b |] eqn:Sel.
  2:{ apply LookupMiss; [exact C | exact M | exact I | exact Sel]. }
  unfold bind at 1. unfold Date_now at 1. unfold bind at 1.
  unfold setEx. rewrite command_eq.
  destruct (failsNext w4) eqn:F4.
  { apply LookupFailed; [exact C | exact M | exact I |].
    intros H. destruct (N4 (N3 H)) as [H' _].
    apply faults_cons_not_nil in F4. contradiction. }
  cbn [fst snd]. rewrite C, I.
  apply LookupHit; [exact C | exact M | reflexivity | exact Sel].
Qed.

(** ** The entry a lookup selects *)

Lemma app_cons_split {A : Type} (x1 x2 : A) :
  forall pre1 post1 pre2 post2 : list A,
    (pre1 ++ x1 :: post1 = pre2 ++ x2 :: post2)%list ->
    In x1 pre2 \/ (pre1 = pre2 /\ x1 = x2) \/ In x2 pre1.
Proof.
  induction pre1 as [| a pre1 IH]; intros post1 [| b pre2] post2 E; cbn in E.
  - injection E as -> _. right. left. split; reflexivity.
  - injection E as -> _. left. now left.
  - injection E as -> _. right. right. now left.
  - injection E as -> E. destruct (IH _ _ _ E) as [H | [[-> ->] | H]].
    + left. now right.
    + right. left. split; reflexivity.
    + right. right. now right.
Qed.

(** There is at most one selected entry, and it sits at one place of the
    list of candidates. *)
Lemma Selected_unique (q : Embedding) (cands : list (string * CacheEntry))
  (k1 k2 : string) (e1 e2 : CacheEntry) :
  Selected q cands k1 e1 -> Selected q cands k2 e2 -> k1 = k2 /\ e1 = e2.
Proof.
  intros (Ex1 & Max1 & pre1 & post1 & E1 & F1) (Ex2 & Max2 & pre2 & post2 & E2 & F2).
  assert (In1 : In (k1, e1) cands) by (rewrite E1; apply in_elt).
  assert (In2 : In (k2, e2) cands) by (rewrite E2; apply in_elt).
  rewrite E1 in E2.
  destruct (app_cons_split _ _ _ _ _ _ E2) as [H | [[_ H] | H]].
  - pose proof (F2 _ _ H Ex1) as L. rewrite (Max1 _ _ In2) in L. discriminate.
  - injection H as -> ->. split; reflexivity.
  - pose proof (F1 _ _ H Ex2) as L. rewrite (Max2 _ _ In1) in L. discriminate.
Qed.

(** A similarity equal to the threshold does not exceed it. *)
Lemma threshold_is_exclusive (q : Embedding) (e : CacheEntry) :
  similarityTo q e = SIMILARITY_THRESHOLD -> exceeds q e = false.
Proof. unfold exceeds. intros ->. apply FloatFacts.ltb_irrefl. Qed.

Lemma selection_correct (w : World) (input : CodeContextInput.t) :
  scanInvariant (queryOf w input) (candidates w input) (selection w input).
Proof. apply selectFrom_correct. Qed.

(** Conversely, the selected candidate is the one a lookup returns. *)
Lemma selected_candidate_is_returned
  (input : CodeContextInput.t) (w : World) (key : string) (entry : CacheEntry) :
  faults w = [] ->
  Selected (queryOf w input) (candidates w input) key entry ->
  fst (getCachedSuggestion input w) = Returned (Some (suggestion entry)).
Proof.
  intros NoFault Sel. unfold getCachedSuggestion, try_catch.
  pose proof (lookupBody_outcome input w) as O.
  pose proof (selection_correct w input) as Inv.
  destruct (lookupBody input w) as [o w'].
  inversion O as [w1 C M I F | w1 C M I S | w1 b C M I S]; subst.
  - contradiction.
  - rewrite S in Inv. destruct Sel as (Ex & _ & pre & post & E & _).
    rewrite (Inv key entry) in Ex; [discriminate |]. rewrite E. apply in_elt.
  - rewrite S in Inv. destruct Inv as [_ Sb].
    destruct (Selected_unique _ _ _ _ _ _ Sel Sb) as [_ ->]. reflexivity.
Qed.

(** What a lookup returns, whatever fails.  The candidates are the
    readable entries under the keys that the store matches against the
    pattern made of the prefix, the language and the framework of the
    request.  A result is the suggestion of the selected candidate: its
    similarity to the query embedding strictly exceeds 0.85, no
    candidate is more similar, and it is the first such candidate in the
    order of the keys; the entry is written back for seven days with its
    hit count incremented by one and its time stamp set to the current
    time.  No result means that no candidate exceeds 0.85, or that a
    command of the store failed; the store is then left as it was.  When
    no command fails, the selected candidate is the one returned. *)
Theorem getCachedSuggestion_selects_best
  (input : CodeContextInput.t) (w : World) :
  let cands :=
    readableUnder w
      (matchingKeys w ("code_suggestion:" ++ CodeContextInput.language input ++ ":"
                         ++ CodeContextInput.framework input ++ ":*")) in
  let similarity e := calculateSimilarity (queryOf w input) (embedding e) in
  let selected pre key entry post :=
    cands = (pre ++ (key, entry) :: post)%list
    /\ (0.85 <? similarity entry)%float = true
    /\ (forall k e, In (k, e) cands ->
          (similarity entry <? similarity e)%float = false)
    /\ (forall k e, In (k, e) pre -> (0.85 <? similarity e)%float = true ->
          (similarity e <? similarity entry)%float = true) in
  match getCachedSuggestion input w with
  | (Returned (Some text), w') =>
      exists pre key entry post,
        selected pre key entry post
        /\ text = suggestion entry
        /\ items w'
           = upsert (mkItem key
                       (Json (mkCacheEntry (id entry) (context entry) (embedding entry)
                                (suggestion entry) (language entry) (framework entry)
                                (clock w) (hitCount entry + 1)))
                       (clock w + 604800 * 1000))
                    (items w)
  | (Returned None, w') =>
      items w' = items w
      /\ ((forall k e, In (k, e) cands -> (0.85 <? similarity e)%float = false)
          \/ faults w <> [])
  | (Thrown, _) => False
  end
  /\ (faults w = [] ->
      forall pre key entry post,
        selected pre key entry post ->
        fst (getCachedSuggestion input w) = Returned (Some (suggestion entry))).
Proof.
  cbv zeta.
  change (readableUnder w (matchingKeys w _)) with (candidates w input).
  split.
  - unfold getCachedSuggestion, try_catch.
    pose proof (lookupBody_outcome input w) as O.
    pose proof (selection_correct w input) as Inv.
    destruct (lookupBody input w) as [o w'].
    inversion O as [w1 C M I F | w1 C M I Sel | w1 b C M I Sel]; subst.
    + cbn. split; [exact I | right; exact F].
    + rewrite Sel in Inv. split; [exact I | left; exact Inv].
    + rewrite Sel in Inv. destruct Inv as (_ & Ex & Max & pre & post & E & First).
      exists pre, (bm_key b), (bm_entry b), post.
      split; [| split; [reflexivity | exact I]].
      split; [exact E |]. split; [exact Ex |]. split; [exact Max | exact First].
  - intros NF pre key entry post (E & Ex & Max & First).
    apply (selected_candidate_is_returned input w key entry NF).
    split; [exact Ex |]. split; [exact Max |].
    exists pre, post. split; [exact E | exact First].
Qed.

(** C1 (the failing input).  The store is empty.  A chat question asked
    in the mode "fix:1" is answered by the backend, and the answer is
    written, under a key of the namespace Chat:fix:1.  The same question
    asked in the mode "fix" then gets that answer from the cache,
    although the namespace Chat:fix holds no entry: the pattern of the
    lookup, made of the prefix, the language and the mode as they are,
    matches the key of the other namespace.  So does the pattern of the
    mode "*", which matches every namespace of the chat.  The mode
    "review" finds nothing; and an entry of the other namespace whose
    similarity is 0.8 is not returned. *)
Theorem lookup_crosses_namespaces :
  let ask mode :=
    ChatRoute.POST
      (Http.Parsed (ChatRoute.mkBody (Some Samples.chatQuestion) [] (Some mode))) in
  let written := snd (ask "fix:1" Samples.emptyWorld) in
  fst (ask "fix:1" Samples.emptyWorld)
  = Returned (Http.EventStream [ Http.EvChunk "Check the " false;
                                 Http.EvChunk "index." false;
                                 Http.EvDone false ])
  /\ map (fun p => (fst p, language (snd p), framework (snd p))) (cacheEntries written)
     = [("code_suggestion:Chat:fix:1:1000000_hmv2fh", "Chat", "fix:1")]
  /\ List.length (items written) = 1%nat
  /\ categoryPattern (Samples.chatInput "fix") = "code_suggestion:Chat:fix:*"
  /\ fst (getCachedSuggestion (Samples.chatInput "fix") written)
     = Returned (Some "Check the index.")
  /\ fst (ask "fix" written) = Returned (Http.cachedStream "Check the index.")
  /\ fst (ask "*" written) = Returned (Http.cachedStream "Check the index.")
  /\ fst (getCachedSuggestion (Samples.chatInput "review") written) = Returned None
  /\ fst (getCachedSuggestion (Samples.chatInput "fix") Samples.distantChatWorld)
     = Returned None.
Proof.
  cbv zeta.
  split; [vm_compute; reflexivity |].
  split; [vm_compute; reflexivity |]. split; [vm_compute; reflexivity |].
  split; [vm_compute; reflexivity |]. split; [vm_compute; reflexivity |].
  split; [vm_compute; reflexivity |]. split; [vm_compute; reflexivity |].
  split; vm_compute; reflexivity.
Qed.

(** In the sample world the lookup returns the suggestion of the entry
    of similarity 1, not the one of similarity 0.96 that comes first. *)
Example lookup_sample_hit :
  fst (getCachedSuggestion Samples.addInput Samples.sampleWorld)
  = Returned (Some "a + b;").
Proof. vm_compute. reflexivity. Qed.

(** ** A failed embedding *)

Lemma exceeds_zeroVector (b : CacheEntry) : exceeds zeroVector b = false.
Proof.
  unfold exceeds, similarityTo, zeroVector.
  pose proof (improves_zeros 384 (embedding b) None) as H.
  unfold improves in H. now rewrite andb_true_r in H.
Qed.

(** C4 (as amended).  When the model fails, [generateEmbedding] returns
    the zero vector of length 384 and throws nothing.  The similarity of
    the zero vector with a vector is 0, except that it is NaN when the
    vector has 384 components and its computed magnitude (the square
    root of the sum of their squares, in binary64 arithmetic) is not
    finite.  It never exceeds 0.85, and the lookup whose query embedding
    is the zero vector returns no result, whatever the store holds and
    whatever fails. *)
Theorem embedding_failure_is_a_miss (input : CodeContextInput.t) (w : World) :
  embedder w (buildContext input) = None ->
  generateEmbedding (buildContext input) w
    = (Returned zeroVector, with_error ErrEmbedding w)
  /\ List.length zeroVector = 384%nat
  /\ (forall b : Embedding,
        calculateSimilarity zeroVector b
        = if (List.length b =? 384)%nat && negb (is_finite (sqrt (normSq b)))
          then nan else 0%float)
  /\ (forall b : Embedding,
        (0.85 <? calculateSimilarity zeroVector b)%float = false)
  /\ fst (getCachedSuggestion input w) = Returned None.
Proof.
  intros Fail. split; [| split; [| split; [| split]]].
  - unfold generateEmbedding. now rewrite Fail.
  - apply repeat_length.
  - intros b. apply similarity_zeroVector.
  - intros b. rewrite similarity_zeroVector.
    now destruct ((List.length b =? 384)%nat && negb (is_finite (sqrt (normSq b)))).
  - unfold getCachedSuggestion, try_catch.
    pose proof (lookupBody_outcome input w) as O.
    pose proof (selection_correct w input) as Inv.
    destruct (lookupBody input w) as [o w'].
    inversion O as [w1 C M I F | w1 C M I Sel | w1 b C M I Sel]; subst; try reflexivity.
    rewrite Sel in Inv. destruct Inv as [_ [Ex _]].
    unfold queryOf, embeddingOf in Ex. rewrite Fail in Ex.
    rewrite exceeds_zeroVector in Ex. discriminate.
Qed.

(** The lookup of the sample request when the model fails. *)
Lemma embedding_failure_is_a_miss_witness :
  embedder Samples.brokenModelWorld (buildContext Samples.addInput) = None
  /\ fst (getCachedSuggestion Samples.addInput Samples.brokenModelWorld)
     = Returned None.
Proof.
  split; [reflexivity |].
  apply (embedding_failure_is_a_miss Samples.addInput Samples.brokenModelWorld).
  reflexivity.
Defined.

(** C4 (counterexample).  The similarity of the zero vector with the
    vector of 384 components 1e200 is not 0: the squared norm overflows
    to Infinity, the magnitude is 0 * Infinity, and the result is NaN.
    With a single component 1e200 the lengths differ and the result is
    0, whatever the norm. *)
Lemma similarity_of_zero_vector_is_nan :
  calculateSimilarity zeroVector (repeat 1e200%float 384) = nan
  /\ (calculateSimilarity zeroVector (repeat 1e200%float 384) =? 0)%float = false
  /\ calculateSimilarity zeroVector [1e200]%float = 0%float.
Proof. split; [| split]; vm_compute; reflexivity. Qed.

(** ** The write-back of a hit *)

Lemma lookupItem_upsert (t : Z) (key : string) (v : RedisValue) (x : Z)
  (its : list Item) :
  t < x -> lookupItem t key (upsert (mkItem key v x) its) = Some v.
Proof.
  intros Ht. unfold lookupItem.
  assert (L : live t (mkItem key v x) = true) by (apply Z.ltb_lt; exact Ht).
  induction its as [| y its IH]; cbn [upsert find].
  - rewrite L. cbn. now rewrite String.eqb_refl.
  - cbn [item_key]. destruct (item_key y =? key)%string eqn:K; cbn [find].
    + rewrite L. cbn. now rewrite String.eqb_refl.
    + rewrite K, andb_false_r. exact IH.
Qed.

Lemma upsert_In (it : Item) (its : list Item) : In it (upsert it its).
Proof.
  induction its as [| y its IH]; cbn; [now left |].
  destruct (item_key y =? item_key it)%string; [now left | now right].
Qed.

Lemma readableUnder_In (w : World) (ks : list string) (key : string) (e : CacheEntry) :
  In (key, e) (readableUnder w ks)
  <-> In key ks /\ lookupItem (clock w) key (items w) = Some (Json e).
Proof.
  unfold readableUnder. rewrite in_flat_map. split.
  - intros (k & Hk & Hin).
    destruct (lookupItem (clock w) k (items w)) as [[e' | s] |] eqn:L;
      cbn in Hin; try contradiction.
    destruct Hin as [Hin | []]. injection Hin as -> ->. now split.
  - intros [Hk L]. exists key. split; [exact Hk |]. rewrite L. now left.
Qed.

Lemma matchingKeys_In (w : World) (pattern key : string) :
  In key (matchingKeys w pattern)
  <-> exists it, In it (items w) /\ item_key it = key
                 /\ live (clock w) it = true
                 /\ stringmatch w pattern key = true.
Proof.
  unfold matchingKeys. rewrite in_map_iff. split.
  - intros (it & K & Hin). apply filter_In in Hin. destruct Hin as [Hin C].
    apply andb_true_iff in C. destruct C as [L M].
    exists it. rewrite K in M. now repeat split.
  - intros (it & Hin & K & L & M). exists it. split; [exact K |].
    apply filter_In. split; [exact Hin |]. rewrite K, L, M. reflexivity.
Qed.

(** A hit comes from the selection of the lookup and writes the
    selected entry back. *)
Lemma lookup_hit_inversion (input : CodeContextInput.t) (w : World) (text : string) :
  fst (getCachedSuggestion input w) = Returned (Some text) ->
  exists b,
    selection w input = Some b
    /\ text = suggestion (bm_entry b)
    /\ stringmatch (snd (getCachedSuggestion input w)) = stringmatch w
    /\ items (snd (getCachedSuggestion input w)) = upsert (refreshed w b) (items w).
Proof.
  unfold getCachedSuggestion, try_catch.
  pose proof (lookupBody_outcome input w) as O.
  destruct (lookupBody input w) as [o w0].
  inversion O as [w1 C M I F | w1 C M I Sel | w1 b C M I Sel]; subst; cbn;
    try discriminate.
  intros [= <-]. exists b. repeat split; assumption.
Qed.

(** C9.  A hit writes the matched entry back under its key with the time
    to live of seven days: the key expires seven days after the hit, so
    until then it is readable and remains a candidate of the category;
    the entry written back differs from the one read in its hit count
    and its time stamp only. *)
Theorem hit_resets_expiration
  (input : CodeContextInput.t) (w : World) (text : string) :
  fst (getCachedSuggestion input w) = Returned (Some text) ->
  exists key entry,
    In (key, entry) (candidates w input)
    /\ text = suggestion entry
    /\ CACHE_TTL * 1000 = 7 * 24 * 60 * 60 * 1000
    /\ In (mkItem key (Json (touch (clock w) entry)) (clock w + CACHE_TTL * 1000))
          (items (snd (getCachedSuggestion input w)))
    /\ (forall t, clock w <= t < clock w + CACHE_TTL * 1000 ->
          lookupItem t key (items (snd (getCachedSuggestion input w)))
            = Some (Json (touch (clock w) entry))
          /\ In (key, touch (clock w) entry)
                (candidates (with_clock t (snd (getCachedSuggestion input w))) input))
    /\ id (touch (clock w) entry) = id entry
    /\ context (touch (clock w) entry) = context entry
    /\ embedding (touch (clock w) entry) = embedding entry
    /\ suggestion (touch (clock w) entry) = suggestion entry
    /\ language (touch (clock w) entry) = language entry
    /\ framework (touch (clock w) entry) = framework entry
    /\ hitCount (touch (clock w) entry) = hitCount entry + 1
    /\ timestamp (touch (clock w) entry) = clock w.
Proof.
  intros Hit.
  destruct (lookup_hit_inversion input w text Hit) as (b & Sel & -> & SM & I).
  pose proof (selection_correct w input) as Inv. rewrite Sel in Inv.
  destruct Inv as (_ & Ex & Max & pre & post & E & First).
  set (key := bm_key b) in *. set (entry := bm_entry b) in *.
  set (w' := snd (getCachedSuggestion input w)) in *.
  assert (Hin : In (key, entry) (candidates w input)) by (rewrite E; apply in_elt).
  exists key, entry.
  split; [exact Hin |]. split; [reflexivity |]. split; [reflexivity |].
  split; [rewrite I; apply upsert_In |].
  split; [| repeat split; reflexivity].
  intros t [Ht1 Ht2].
  assert (L : lookupItem t key (items w') = Some (Json (touch (clock w) entry))).
  { rewrite I. now apply lookupItem_upsert. }
  split; [exact L |].
  unfold candidates. apply readableUnder_In. cbn [clock with_clock items].
  split; [| exact L].
  apply matchingKeys_In. cbn [clock with_clock items stringmatch].
  exists (mkItem key (Json (touch (clock w) entry)) (clock w + CACHE_TTL * 1000)).
  split; [rewrite I; apply upsert_In |]. split; [reflexivity |].
  split; [apply Z.ltb_lt; exact Ht2 |].
  unfold candidates in Hin. apply readableUnder_In in Hin. destruct Hin as [Hk _].
  apply matchingKeys_In in Hk. destruct Hk as (it & _ & _ & _ & M).
  rewrite SM. exact M.
Qed.

(** The hit of the sample request in the sample world. *)
Lemma hit_resets_expiration_witness :
  fst (getCachedSuggestion Samples.addInput Samples.sampleWorld)
  = Returned (Some "a + b;")
  /\ exists key entry,
       In (key, entry) (candidates Samples.sampleWorld Samples.addInput)
       /\ In (mkItem key (Json (touch 1000000 entry)) (1000000 + CACHE_TTL * 1000))
             (items (snd (getCachedSuggestion Samples.addInput Samples.sampleWorld))).
Proof.
  split; [vm_compute; reflexivity |].
  destruct (hit_resets_expiration Samples.addInput Samples.sampleWorld "a + b;")
    as (key & entry & Hin & _ & _ & Hitem & _).
  - vm_compute. reflexivity.
  - exists key, entry. split; [exact Hin | exact Hitem].
Defined.

(** ** The category of the candidates *)

Lemma append_nil_r (s : string) : s ++ "" = s.
Proof. induction s as [| c s IH]; cbn; [reflexivity | now rewrite IH]. Qed.

Lemma append_assoc (a b c : string) : (a ++ b) ++ c = a ++ b ++ c.
Proof. induction a as [| x a IH]; cbn; [reflexivity | now rewrite IH]. Qed.

Lemma append_same_prefix (p a b : string) : p ++ a = p ++ b -> a = b.
Proof.
  induction p as [| c p IH]; cbn; intros H; [exact H |].
  injection H as H. now apply IH.
Qed.

(** The pattern of one star matches every key. *)
Lemma globFrom_star (fuel : nat) (key : string) :
  globFrom (S (S fuel)) "*" key = true.
Proof.
  cbn [globFrom]. change (Ascii.eqb "*" "*") with true. cbv iota.
  induction key as [| k key IH]; [reflexivity |].
  rewrite IH. apply orb_true_r.
Qed.

Lemma plainText_app (a b : string) :
  plainText (a ++ b) = plainText a && plainText b.
Proof.
  induction a as [| c a IH]; [reflexivity |].
  cbn [append plainText]. rewrite IH, !andb_assoc. reflexivity.
Qed.

(** A pattern made of characters that stand for themselves and of a
    final star matches the keys that start with these characters. *)
Lemma globFrom_plain_prefix (literal : string) :
  forall (fuel : nat) (key : string),
    plainText literal = true ->
    (String.length literal + 2 <= fuel)%nat ->
    globFrom fuel (literal ++ "*") key = true <-> exists rest, key = literal ++ rest.
Proof.
  induction literal as [| c literal IH]; intros fuel key Plain Fuel.
  - destruct fuel as [| [| fuel]]; try (cbn in Fuel; lia).
    change ("" ++ "*") with "*". rewrite globFrom_star.
    split; [intros _; now exists key | reflexivity].
  - destruct fuel as [| fuel]; [cbn in Fuel; lia |].
    cbn [plainText] in Plain.
    apply andb_true_iff in Plain. destruct Plain as [Plain P'].
    apply andb_true_iff in Plain. destruct Plain as [Plain Pb].
    apply andb_true_iff in Plain. destruct Plain as [Plain Pk].
    apply andb_true_iff in Plain. destruct Plain as [Ps Pq].
    apply negb_true_iff in Ps, Pq, Pk, Pb.
    cbn [append globFrom]. rewrite Ps.
    destruct key as [| k key].
    + split; [discriminate | intros [rest H]; discriminate].
    + rewrite Pq, Pk, Pb.
      assert (F : (String.length literal + 2 <= fuel)%nat) by (cbn in Fuel; lia).
      split.
      * intros H. apply andb_true_iff in H. destruct H as [E H].
        apply Ascii.eqb_eq in E. subst k.
        apply (IH fuel key P' F) in H. destruct H as [rest ->]. now exists rest.
      * intros [rest H]. injection H as -> ->.
        rewrite Ascii.eqb_refl. apply (IH fuel _ P' F). now exists rest.
Qed.

Lemma globMatch_plain_prefix (literal key : string) :
  plainText literal = true ->
  globMatch (literal ++ "*") key = true <-> exists rest, key = literal ++ rest.
Proof.
  intros Plain. unfold globMatch. apply globFrom_plain_prefix; [exact Plain |].
  clear Plain. induction literal as [| c literal IH]; cbn in *; lia.
Qed.

(** Two strings that agree up to a colon each, with no colon before it,
    agree on what comes before the colon and on what comes after it. *)
Lemma segment_split (a b x y : string) :
  noColon a = true -> noColon b = true ->
  a ++ ":" ++ x = b ++ ":" ++ y -> a = b /\ x = y.
Proof.
  revert b. induction a as [| c a IH]; intros [| d b] Na Nb H; cbn in *.
  - injection H as ->. now split.
  - injection H as <- _. rewrite Ascii.eqb_refl in Nb. discriminate.
  - injection H as -> _. rewrite Ascii.eqb_refl in Na. discriminate.
  - injection H as -> H.
    apply andb_true_iff in Na, Nb. destruct Na as [_ Na], Nb as [_ Nb].
    destruct (IH b Na Nb H) as [-> ->]. now split.
Qed.

(** Only the keys of the category of the request match its pattern, when
    the names of the category have no colon and stand for themselves in
    a pattern. *)
Lemma category_pattern_is_exact (input : CodeContextInput.t) (e : CacheEntry) :
  noColon (CodeContextInput.language input) = true ->
  noColon (CodeContextInput.framework input) = true ->
  plainText (CodeContextInput.language input) = true ->
  plainText (CodeContextInput.framework input) = true ->
  noColon (language e) = true -> noColon (framework e) = true ->
  globMatch (categoryPattern input) (keyOf e) = true ->
  language e = CodeContextInput.language input
  /\ framework e = CodeContextInput.framework input.
Proof.
  intros NL NF PL PF NLe NFe. unfold categoryPattern, keyOf.
  set (L := CodeContextInput.language input) in *.
  set (F := CodeContextInput.framework input) in *.
  replace (CACHE_PREFIX ++ L ++ ":" ++ F ++ ":*")
    with ((CACHE_PREFIX ++ L ++ ":" ++ F ++ ":") ++ "*")
    by (rewrite !append_assoc; reflexivity).
  rewrite globMatch_plain_prefix.
  2:{ rewrite !plainText_app, PL, PF. reflexivity. }
  intros [rest H]. rewrite !append_assoc in H.
  apply append_same_prefix in H.
  apply segment_split in H; try assumption. destruct H as [-> H].
  apply segment_split in H; try assumption. destruct H as [-> _].
  now split.
Qed.

Lemma lookupItem_In (now : Z) (key : string) (its : list Item) (v : RedisValue) :
  lookupItem now key its = Some v ->
  exists it, In it its /\ item_key it = key /\ item_value it = v.
Proof.
  unfold lookupItem. destruct (find _ its) as [it |] eqn:F; [| discriminate].
  intros [= <-]. apply find_some in F. destruct F as [Hin C].
  apply andb_true_iff in C. destruct C as [_ K]. apply String.eqb_eq in K.
  now exists it.
Qed.

(** X1.  Namespace isolation.  In a store that the cache wrote and that
    Redis matches by its glob patterns, every candidate of a lookup has
    the language and the framework of the request, provided that these
    two names have no colon and none of the characters that a pattern
    reads as more than themselves (star, question mark, opening bracket,
    backslash). *)
Theorem candidates_share_category (input : CodeContextInput.t) (w : World)
  (key : string) (e : CacheEntry) :
  stringmatch w = globMatch ->
  wellKeyed (items w) ->
  noColon (CodeContextInput.language input) = true ->
  noColon (CodeContextInput.framework input) = true ->
  plainText (CodeContextInput.language input) = true ->
  plainText (CodeContextInput.framework input) = true ->
  In (key, e) (candidates w input) ->
  language e = CodeContextInput.language input
  /\ framework e = CodeContextInput.framework input.
Proof.
  intros SM WK NL NF PL PF Hin. unfold candidates in Hin.
  apply readableUnder_In in Hin. destruct Hin as [Hk L].
  apply matchingKeys_In in Hk. destruct Hk as (_ & _ & _ & _ & M).
  apply lookupItem_In in L. destruct L as (it & Hit & K & V).
  destruct (WK it e Hit V) as (KE & NLe & NFe).
  rewrite SM, <- K, KE in M.
  now apply category_pattern_is_exact.
Qed.

(** Without these provisos the patterns of two categories overlap: the
    pattern of the mode "fix" matches a key of the mode "fix:1", and the
    pattern of the mode "*" matches a key of every mode. *)
Example category_overlap_with_colon :
  globMatch
    (categoryPattern (CodeContextInput.mk "q" 0 0 "Chat" "fix" "chat_fix"))
    (keyOf (mkCacheEntry "1_a" "ctx" [] "answer" "Chat" "fix:1" 0 0))
  = true
  /\ globMatch
       (categoryPattern (CodeContextInput.mk "q" 0 0 "Chat" "*" "chat_*"))
       (keyOf (mkCacheEntry "1_a" "ctx" [] "answer" "Chat" "review" 0 0))
     = true.
Proof. split; vm_compute; reflexivity. Qed.

(** The patterns of [KEYS] on small examples. *)
Example globMatch_samples :
  globMatch "h?llo" "hello" = true
  /\ globMatch "h?llo" "hllo" = false
  /\ globMatch "h*llo" "hllo" = true
  /\ globMatch "h*llo" "heeeello" = true
  /\ globMatch "h[ae]llo" "hallo" = true
  /\ globMatch "h[ae]llo" "hillo" = false
  /\ globMatch "h[^e]llo" "hallo" = true
  /\ globMatch "h[^e]llo" "hello" = false
  /\ globMatch "h[a-b]llo" "hbllo" = true
  /\ globMatch "h[a-b]llo" "hcllo" = false
  /\ globMatch "h\*llo" "h*llo" = true
  /\ globMatch "h\*llo" "hello" = false
  /\ globMatch "code_suggestion:*" "code_suggestion:Chat:fix:1_a" = true.
Proof. repeat split. Qed.

(** ** Failures of the caching path *)


Lemma collectEntries_cons key rest entries w :
  collectEntries (key :: rest) entries w =
    match get key w with
    | (Returned data, w1) =>
        match data with
        | None => collectEntries rest entries w1
        | Some v =>
            if valueTruthy v then
              match JSON_parse v with
              | Some entry =>
                  collectEntries rest
                    (entries ++ [mkRanked key (timestamp entry) (hitCount entry)]) w1
              | None =>
                  match del [key] w1 with
                  | (Returned _, w2) => collectEntries rest entries w2
                  | (Thrown, w2) => (Thrown, w2)
                  end
              end
            else collectEntries rest entries w1
        end
    | (Thrown, w1) => (Thrown, w1)
    end.
Proof.
  cbn [collectEntries]. unfold bind at 1.
  destruct (get key w) as [[[[e | s] |] |] w1]; try reflexivity.
  cbn. destruct (Js.truthy s); reflexivity.
Qed.


Lemma cleanupOldEntries_returns (w : World) :
  fst (cleanupOldEntries w) = Returned tt.
Proof.
  unfold cleanupOldEntries, try_catch.
  destruct (cleanupBody w) as [[[] |] w']; reflexivity.
Qed.






(** The two operations in the world whose Redis server cannot be reached. *)
Example unreachable_store_sample :
  fst (getCachedSuggestion Samples.addInput Samples.unreachableWorld) = Returned None
  /\ fst (cacheSuggestion Samples.addInput "a + b;" Samples.unreachableWorld)
     = Returned tt
  /\ items (snd (cacheSuggestion Samples.addInput "a + b;" Samples.unreachableWorld))
     = Samples.sampleItems.
Proof. repeat split. Qed.

(* ================================================================== *)
(** * The streaming endpoints                                          *)
(* ================================================================== *)

Section CodeEndpoint.

Import Http.

Variable detectLanguage : string -> option string -> string.
Variable detectFramework : string -> string.
Variable buildPrompt : string -> Z -> Z -> option string -> string -> string.
Variable dedupeImports : string -> string.


(** X2.  A request whose [fileContent] or [suggestionType] is the empty
    string is rejected like one that lacks the field: status 400, and
    the world is left as it was. *)
Lemma empty_code_request_is_rejected (body : CodeRoute.Body) (w : World) :
  CodeRoute.fileContent body = Some "" \/ CodeRoute.suggestionType body = Some "" ->
  CodeRoute.POST detectLanguage detectFramework buildPrompt dedupeImports
    (Parsed body) w
  = (Returned (JsonError 400 "Invalid input parameters"), w).
Proof.
  intros [H | H]; unfold CodeRoute.POST, try_catch, CodeRoute.respond; rewrite H.
  - now destruct (CodeRoute.suggestionType body).
  - destruct (CodeRoute.fileContent body); [| reflexivity].
    rewrite !orb_true_r. reflexivity.
Qed.

End CodeEndpoint.



(** A valid request does reach the cache: in the sample world it sends
    commands to the store and is answered from it. *)
Example valid_code_request_sample :
  fst (CodeRoute.POST Samples.sampleLanguage Samples.sampleFramework
         Samples.samplePrompt Samples.sampleDedupe
         (Http.Parsed Samples.addBody) Samples.sampleWorld)
  = Returned (Http.cachedStream "a + b;")
  /\ List.length
       (issued (snd (CodeRoute.POST Samples.sampleLanguage Samples.sampleFramework
                       Samples.samplePrompt Samples.sampleDedupe
                       (Http.Parsed Samples.addBody) Samples.sampleWorld))) = 7%nat.
Proof. split; vm_compute; reflexivity. Qed.

(** C10.  The input of the cache for a chat request holds the message
    and the mode and nothing of the history; the cache builds the
    context of a "Chat" input with an empty history.  Two chat requests
    with the same message and mode therefore have the same context, the
    same lookup and the same write in a given world, whatever their
    histories, and when the lookup hits they get the same response. *)
Theorem chat_cache_ignores_history
  (text : string) (mode : option string)
  (history1 history2 : list ChatMessage) (answer : string) (w : World) :
  ChatRoute.cacheInput text (ChatRoute.mkBody (Some text) history1 mode)
  = ChatRoute.cacheInput text (ChatRoute.mkBody (Some text) history2 mode)
  /\ buildContext (ChatRoute.cacheInput text (ChatRoute.mkBody (Some text) history1 mode))
     = createChatContext text (Http.orElse mode "chat") []
  /\ createChatContext text (Http.orElse mode "chat") []
     = Js.join_lines [ "Mode: " ++ Http.orElse mode "chat";
                       "Recent conversation:";
                       "Current message: " ++ text ]
  /\ getCachedSuggestion
       (ChatRoute.cacheInput text (ChatRoute.mkBody (Some text) history1 mode)) w
     = getCachedSuggestion
         (ChatRoute.cacheInput text (ChatRoute.mkBody (Some text) history2 mode)) w
  /\ cacheSuggestion
       (ChatRoute.cacheInput text (ChatRoute.mkBody (Some text) history1 mode)) answer w
     = cacheSuggestion
         (ChatRoute.cacheInput text (ChatRoute.mkBody (Some text) history2 mode)) answer w
  /\ (forall cached,
        fst (getCachedSuggestion
               (ChatRoute.cacheInput text (ChatRoute.mkBody (Some text) history1 mode)) w)
        = Returned (Some cached) ->
        Js.truthy cached = true ->
        ChatRoute.POST (Http.Parsed (ChatRoute.mkBody (Some text) history1 mode)) w
        = ChatRoute.POST (Http.Parsed (ChatRoute.mkBody (Some text) history2 mode)) w).
Proof.
  repeat split.
  intros cached Hit T.
  unfold ChatRoute.POST, try_catch, ChatRoute.respond. cbn [ChatRoute.message].
  destruct (Js.falsy text); [reflexivity |].
  unfold ChatRoute.serve, bind.
  change (ChatRoute.cacheInput text (ChatRoute.mkBody (Some text) history2 mode))
    with (ChatRoute.cacheInput text (ChatRoute.mkBody (Some text) history1 mode)).
  destruct (getCachedSuggestion _ w) as [[[c |] |] w']; cbn [fst] in Hit;
    try discriminate.
  injection Hit as ->. rewrite T. reflexivity.
Qed.

(** Every input of language "Chat" gets the chat context with an empty
    history. *)
Lemma buildContext_chat (content : string) (line column : Z)
  (mode type : string) :
  buildContext (CodeContextInput.mk content line column "Chat" mode type)
  = createChatContext content mode [].
Proof. reflexivity. Qed.

(** The history does reach the context builder when it is passed: the
    chat context of a non-empty history differs from the one the cache
    uses. *)
Example chat_context_with_history_sample :
  createChatContext "and now?" "chat" [mkChatMessage "user" "hello"]
  <> createChatContext "and now?" "chat" [].
Proof. vm_compute. discriminate. Qed.

(* ================================================================== *)
(** * The context of a code request                                    *)
(* ================================================================== *)

(** The lines of the window of [createCodeContext]. *)
Lemma slice_nth_error {A : Type} (lines : list A) (lo hi : Z) (i : nat) :
  0 <= lo <= hi -> hi <= Z.of_nat (List.length lines) ->
  nth_error (Js.slice lo hi lines) i
  = if (Z.of_nat i <? hi - lo)%Z then nth_error lines (Z.to_nat lo + i) else None.
Proof.
  intros Hlo Hhi. unfold Js.slice, Js.rel_index.
  destruct (lo <? 0)%Z eqn:L; [apply Z.ltb_lt in L; lia |].
  destruct (hi <? 0)%Z eqn:H; [apply Z.ltb_lt in H; lia |].
  rewrite !Z.min_l by lia.
  destruct (Z.of_nat i <? hi - lo)%Z eqn:I.
  - apply Z.ltb_lt in I. rewrite nth_error_firstn.
    destruct (i <? Z.to_nat (hi - lo))%nat eqn:I'.
    + now rewrite nth_error_skipn.
    + apply Nat.ltb_ge in I'. lia.
  - apply Z.ltb_ge in I. rewrite nth_error_firstn.
    destruct (i <? Z.to_nat (hi - lo))%nat eqn:I'; [| reflexivity].
    apply Nat.ltb_lt in I'. lia.
Qed.

(** X3.  The context of a request whose cursor is on a line of the file:
    the two tags, the header, the lines from [cursorLine - 5] up to, but
    not including, [cursorLine + 5] (clamped to the file), the line of
    the cursor position, and the line the cursor is on. *)
Lemma createCodeContext_window
  (fileContent : string) (cursorLine cursorColumn : Z) (language framework : string) :
  0 <= cursorLine < Z.of_nat (List.length (Js.split_lines fileContent)) ->
  exists window currentLine,
    createCodeContext fileContent cursorLine cursorColumn language framework
    = Js.join_lines
        ([ "Language: " ++ language; "Framework: " ++ framework; "Context:" ]
         ++ window
         ++ [ "Cursor at line " ++ Js.show cursorLine ++ ", column "
                ++ Js.show cursorColumn;
              "Current line: " ++ currentLine ])
    /\ nth_error (Js.split_lines fileContent) (Z.to_nat cursorLine) = Some currentLine
    /\ Z.of_nat (List.length window)
       = Z.min (Z.of_nat (List.length (Js.split_lines fileContent))) (cursorLine + 5)
         - Z.max 0 (cursorLine - 5)
    /\ forall i : nat,
         nth_error window i
         = if (Z.of_nat i
               <? Z.min (Z.of_nat (List.length (Js.split_lines fileContent)))
                        (cursorLine + 5)
                  - Z.max 0 (cursorLine - 5))%Z
           then nth_error (Js.split_lines fileContent)
                          (Z.to_nat (Z.max 0 (cursorLine - 5)) + i)
           else None.
Proof.
  intros In. unfold createCodeContext, contextRadius.
  set (lines := Js.split_lines fileContent) in *.
  set (lo := Z.max 0 (cursorLine - 5)).
  set (hi := Z.min (Z.of_nat (List.length lines)) (cursorLine + 5)).
  assert (Hlohi : 0 <= lo <= hi) by (unfold lo, hi; lia).
  assert (Hhi : hi <= Z.of_nat (List.length lines)) by (unfold hi; lia).
  destruct (nth_error lines (Z.to_nat cursorLine)) as [l |] eqn:N.
  2:{ apply nth_error_None in N. lia. }
  exists (Js.slice lo hi lines), l. split; [| split; [| split]].
  - unfold Js.index. destruct (cursorLine <? 0)%Z eqn:C; [apply Z.ltb_lt in C; lia |].
    now rewrite N.
  - reflexivity.
  - unfold Js.slice, Js.rel_index.
    destruct (lo <? 0)%Z eqn:L; [apply Z.ltb_lt in L; lia |].
    destruct (hi <? 0)%Z eqn:H; [apply Z.ltb_lt in H; lia |].
    rewrite !Z.min_l by lia.
    rewrite length_firstn, length_skipn. lia.
  - intros i. now apply slice_nth_error.
Qed.

(** C3 (the failing input).  In a file of twelve lines with the cursor on
    line 5, the window holds the lines 0 to 9: five lines before the line
    of the cursor, that line, and four lines after it.  Line 10, the
    fifth line after the cursor, is not part of the context. *)
Theorem createCodeContext_four_lines_after :
  createCodeContext Samples.twelveLines 5 0 "JavaScript" "None"
  = Js.join_lines
      [ "Language: JavaScript"; "Framework: None"; "Context:";
        "L0"; "L1"; "L2"; "L3"; "L4"; "L5"; "L6"; "L7"; "L8"; "L9";
        "Cursor at line 5, column 0"; "Current line: L5" ].
Proof. vm_compute. reflexivity. Qed.

(* ================================================================== *)
(** * The id of an entry                                               *)
(* ================================================================== *)

Lemma substring_length_le (n m : nat) (s : string) :
  (String.length (String.substring n m s) <= m)%nat.
Proof.
  revert n m. induction s as [| c s IH]; intros [| n] [| m]; cbn; try lia.
  - specialize (IH 0%nat m). lia.
  - apply (IH n 0%nat).
  - apply (IH n (S m)).
Qed.

(** X4.  The id is the time, an underscore, and the hash of at most five
    characters of the file, taken at the character offsets
    [cursorLine - 2] to [cursorLine + 3], followed by the suggestion
    type. *)
Lemma generateCacheId_shape (now : Z) (input : CodeContextInput.t) :
  0 <= CodeContextInput.cursorLine input ->
  exists piece,
    generateCacheId now input
    = Js.show now ++ "_"
        ++ simpleHash (piece ++ CodeContextInput.suggestionType input)
    /\ piece = Js.substring (Z.max 0 (CodeContextInput.cursorLine input - 2))
                            (CodeContextInput.cursorLine input + 3)
                            (CodeContextInput.fileContent input)
    /\ (String.length piece <= 5)%nat.
Proof.
  intros Pos. eexists. split; [reflexivity |]. split; [reflexivity |].
  unfold Js.substring.
  eapply Nat.le_trans; [apply substring_length_le |].
  unfold Js.clamp. lia.
Qed.

(** Numbers as strings: every digit up to 2^53, the shortest digits that
    denote the double beyond, the exponent notation from 1e21 on. *)
Example show_samples :
  Js.show 0 = "0"
  /\ Js.show (-42) = "-42"
  /\ Js.show 1700000000000 = "1700000000000"
  /\ Js.show (2 ^ 53) = "9007199254740992"
  /\ Js.show (2 ^ 60) = "1152921504606847000"
  /\ Js.show (10 ^ 21 - 2 ^ 17) = "999999999999999900000"
  /\ Js.show (10 ^ 21) = "1e+21"
  /\ Js.show (2 ^ 70) = "1.1805916207174113e+21".
Proof. repeat split; vm_compute; reflexivity. Qed.

(** The hash of "abc": ((97 * 31 + 98) * 31 + 99) = 96354, "22ci" in
    base 36. *)
Example simpleHash_abc : simpleHash "abc" = "22ci".
Proof. reflexivity. Qed.

(** The hash wraps around at 32 bits: from 2147483647, the shift gives
    -32, the sum is -2147483678, which is 2147483618 as a 32-bit integer. *)
Example hashStep_wraps : hashStep 2147483647 1 = 2147483618.
Proof. reflexivity. Qed.

(** C6 (the failing input).  Two files of seven lines that share their
    first line and differ in every other line, with the cursor on line 3:
    the string that is hashed is made of the characters 1 to 5 of the
    file and the suggestion type, so both requests get the same id at a
    given time, and no line around the cursor takes part in it. *)
Theorem generateCacheId_hashes_characters :
  hashInput Samples.inputOne = "ine0" ++ String "010"%char "completion"
  /\ hashInput Samples.inputTwo = hashInput Samples.inputOne
  /\ generateCacheId 1700000000000 Samples.inputOne
     = generateCacheId 1700000000000 Samples.inputTwo
  /\ Js.slice 1 6 (Js.split_lines Samples.fileOne)
     <> Js.slice 1 6 (Js.split_lines Samples.fileTwo).
Proof.
  repeat split; try (vm_compute; reflexivity).
  vm_compute. discriminate.
Qed.

(* ================================================================== *)
(** * The eviction sweep                                               *)
(* ================================================================== *)

Lemma collectEntries_fault_free (ks : list string) :
  forall entries w,
    faults w = [] ->
    fst (collectEntries ks entries w)
      = Returned (fst (sweep (clock w) ks entries (items w)))
    /\ items (snd (collectEntries ks entries w))
       = snd (sweep (clock w) ks entries (items w))
    /\ clock (snd (collectEntries ks entries w)) = clock w
    /\ stringmatch (snd (collectEntries ks entries w)) = stringmatch w
    /\ faults (snd (collectEntries ks entries w)) = [].
Proof.
  induction ks as [| key rest IH]; intros entries w NF.
  - cbn. auto.
  - rewrite collectEntries_cons. unfold get. rewrite command_eq.
    rewrite (failsNext_nil _ NF). cbn [fst snd sweep].
    set (w1 := with_items (items w) (with_command (CmdGet key) w)).
    assert (NF1 : faults w1 = []) by (cbn; now rewrite NF).
    destruct (lookupItem (clock w) key (items w)) as [[e | s] |].
    + cbn [valueTruthy JSON_parse]. apply (IH _ w1 NF1).
    + cbn [valueTruthy JSON_parse]. destruct (Js.truthy s).
      * unfold del. rewrite command_eq, (failsNext_nil _ NF1). cbn [fst snd].
        set (w2 := with_items _ _).
        assert (NF2 : faults w2 = []) by (cbn; now rewrite NF).
        apply (IH entries w2 NF2).
      * apply (IH _ w1 NF1).
    + apply (IH _ w1 NF1).
Qed.

(** ** Lists of keys *)

Lemma memString_In (k : string) (ks : list string) :
  memString k ks = true <-> In k ks.
Proof.
  unfold memString. rewrite existsb_exists. split.
  - intros (x & Hin & E). apply String.eqb_eq in E. now subst.
  - intros Hin. exists k. split; [exact Hin | apply String.eqb_refl].
Qed.

Lemma memString_false (k : string) (ks : list string) :
  memString k ks = false <-> ~ In k ks.
Proof.
  rewrite <- memString_In. destruct (memString k ks); split; intros; congruence.
Qed.

Lemma memString_app (k : string) (xs ys : list string) :
  memString k (xs ++ ys) = memString k xs || memString k ys.
Proof. unfold memString. apply existsb_app. Qed.

Lemma uniqueKeys_NoDup (ks : list string) : uniqueKeys ks = true <-> NoDup ks.
Proof.
  induction ks as [| k ks IH]; cbn.
  - split; [constructor | reflexivity].
  - rewrite andb_true_iff, negb_true_iff, memString_false, IH. split.
    + intros [H1 H2]. now constructor.
    + intros H. inversion H. now split.
Qed.

Lemma item_keys_filter_unique (keep : Item -> bool) (its : list Item) :
  NoDup (map item_key its) -> NoDup (map item_key (filter keep its)).
Proof.
  induction its as [| it its IH]; cbn; [auto |].
  intros Unique. inversion Unique as [| ? ? Fresh Rest]; subst.
  destruct (keep it); cbn; [| auto].
  constructor; [| auto].
  intros Hin. apply Fresh. apply in_map_iff in Hin. destruct Hin as (x & E & Hx).
  apply filter_In in Hx. apply in_map_iff. exists x. tauto.
Qed.

Lemma NoDup_map_injective_on {A B : Type} (f : A -> B) (l : list A) (x y : A) :
  NoDup (map f l) -> In x l -> In y l -> f x = f y -> x = y.
Proof.
  induction l as [| a l IH]; cbn; [tauto |].
  intros H. inversion H as [| ? ? Hn Hd]; subst.
  intros [-> | Hx] [-> | Hy] E; auto.
  - exfalso. apply Hn. rewrite E. now apply in_map.
  - exfalso. apply Hn. rewrite <- E. now apply in_map.
Qed.

Lemma Permutation_filter_stable {A : Type} (p : A -> bool) (l l' : list A) :
  Permutation l l' -> Permutation (filter p l) (filter p l').
Proof.
  induction 1 as [| x l l' _ IH | x y l | l l' l'' _ IH1 _ IH2]; cbn.
  - constructor.
  - destruct (p x); [now constructor | exact IH].
  - destruct (p x), (p y); try apply Permutation_refl. apply perm_swap.
  - now apply (Permutation_trans IH1).
Qed.

(** ** The store *)

Lemma removeKeys_nil (its : list Item) : removeKeys [] its = its.
Proof.
  unfold removeKeys. induction its as [| x its IH]; cbn; [reflexivity |].
  now f_equal.
Qed.

Lemma removeKeys_app (A B : list string) (its : list Item) :
  removeKeys B (removeKeys A its) = removeKeys (A ++ B) its.
Proof.
  unfold removeKeys. induction its as [| x its IH]; cbn; [reflexivity |].
  rewrite memString_app.
  destruct (memString (item_key x) A); cbn; [exact IH |].
  destruct (memString (item_key x) B); cbn; [exact IH | now rewrite IH].
Qed.

Lemma lookupItem_removeKeys (now : Z) (key : string) (D : list string)
  (its : list Item) :
  memString key D = false ->
  lookupItem now key (removeKeys D its) = lookupItem now key its.
Proof.
  intros NotIn. unfold lookupItem, removeKeys.
  induction its as [| x its IH]; cbn; [reflexivity |].
  destruct (memString (item_key x) D) eqn:M; cbn.
  - destruct (item_key x =? key)%string eqn:K.
    + apply String.eqb_eq in K. congruence.
    + rewrite andb_false_r. exact IH.
  - destruct (live now x && (item_key x =? key)%string); [reflexivity | exact IH].
Qed.

Lemma removeKeys_keys (X : list string) (its : list Item) (k : string) :
  In k X -> ~ In k (map item_key (removeKeys X its)).
Proof.
  intros HX Hin. apply in_map_iff in Hin. destruct Hin as (it & E & Hit).
  unfold removeKeys in Hit. apply filter_In in Hit. destruct Hit as [_ N].
  apply negb_true_iff, memString_false in N. apply N. now rewrite E.
Qed.

(** ** The loop of the sweep on the data *)

Lemma sweep_spec (now : Z) (its0 : list Item) (ks : list string) :
  forall (entries : list Ranked) (D : list string),
    NoDup ks ->
    (forall k, In k ks -> ~ In k D) ->
    sweep now ks entries (removeKeys D its0)
    = ((entries
        ++ map toRanked
             (flat_map (fun key => match lookupItem now key its0 with
                                   | Some (Json e) => [(key, e)]
                                   | _ => []
                                   end) ks))%list,
       removeKeys (D ++ filter (corruptedAt now its0) ks) its0).
Proof.
  induction ks as [| key rest IH]; intros entries D ND Disj.
  - cbn. now rewrite !app_nil_r.
  - inversion ND as [| ? ? Hn Hd]; subst.
    assert (KD : memString key D = false)
      by (apply memString_false, Disj; now left).
    cbn [sweep flat_map filter]. unfold corruptedAt at 1.
    rewrite (lookupItem_removeKeys _ _ _ _ KD).
    destruct (lookupItem now key its0) as [[e | s] |].
    + rewrite IH; [| exact Hd | intros k Hk; apply Disj; now right].
      cbn [map app toRanked fst snd]. now rewrite <- app_assoc.
    + destruct (Js.truthy s).
      * rewrite removeKeys_app.
        rewrite IH; [| exact Hd |].
        -- cbn [app]. now rewrite <- app_assoc.
        -- intros k Hk Hin. apply in_app_or in Hin. destruct Hin as [Hin | [-> | []]].
           ++ apply (Disj k); [now right | exact Hin].
           ++ contradiction.
      * rewrite IH; [reflexivity | exact Hd | intros k Hk; apply Disj; now right].
    + rewrite IH; [reflexivity | exact Hd | intros k Hk; apply Disj; now right].
Qed.

(** ** The sort of the sweep *)

Lemma compareRanked_le (a b : Ranked) :
  (compareRanked a b <=? 0)%Z = true <-> rankedLe a b.
Proof.
  unfold compareRanked, rankedLe. rewrite Z.leb_le.
  destruct (r_hitCount a =? r_hitCount b)%Z eqn:E; cbn.
  - apply Z.eqb_eq in E. lia.
  - apply Z.eqb_neq in E. lia.
Qed.

Lemma compareRanked_gt (a b : Ranked) :
  (compareRanked a b <=? 0)%Z = false -> rankedLe b a.
Proof.
  unfold compareRanked, rankedLe. rewrite Z.leb_gt.
  destruct (r_hitCount a =? r_hitCount b)%Z eqn:E; cbn.
  - apply Z.eqb_eq in E. lia.
  - apply Z.eqb_neq in E. lia.
Qed.

Lemma rankedLe_trans (a b c : Ranked) : rankedLe a b -> rankedLe b c -> rankedLe a c.
Proof. unfold rankedLe. lia. Qed.

Lemma insertRanked_perm (x : Ranked) (l : list Ranked) :
  Permutation (x :: l) (insertRanked x l).
Proof.
  induction l as [| y l IH]; cbn; [apply Permutation_refl |].
  destruct (compareRanked x y <=? 0)%Z; [apply Permutation_refl |].
  apply (perm_trans (perm_swap y x l)). now constructor.
Qed.

Lemma sortRanked_perm (l : list Ranked) : Permutation l (sortRanked l).
Proof.
  induction l as [| x l IH]; cbn; [constructor |].
  apply (perm_trans (perm_skip x IH)). apply insertRanked_perm.
Qed.

Lemma insertRanked_sorted (x : Ranked) (l : list Ranked) :
  StronglySorted rankedLe l -> StronglySorted rankedLe (insertRanked x l).
Proof.
  induction l as [| y l IH]; intros S; cbn.
  - constructor; constructor.
  - inversion S as [| ? ? S' F]; subst.
    destruct (compareRanked x y <=? 0)%Z eqn:C.
    + apply compareRanked_le in C. constructor; [exact S |].
      constructor; [exact C |].
      eapply Forall_impl; [| exact F]. intros z. now apply rankedLe_trans.
    + apply compareRanked_gt in C. constructor; [now apply IH |].
      apply (Permutation_Forall (insertRanked_perm x l)).
      now constructor.
Qed.

Lemma sortRanked_sorted (l : list Ranked) : StronglySorted rankedLe (sortRanked l).
Proof.
  induction l as [| x l IH]; cbn; [constructor | now apply insertRanked_sorted].
Qed.

Lemma StronglySorted_app {A : Type} (R : A -> A -> Prop) (l1 l2 : list A) :
  StronglySorted R (l1 ++ l2) ->
  forall x y, In x l1 -> In y l2 -> R x y.
Proof.
  induction l1 as [| a l1 IH]; cbn; intros S x y Hx Hy; [contradiction |].
  inversion S as [| ? ? S' F]; subst.
  destruct Hx as [-> | Hx].
  - rewrite Forall_forall in F. apply F. apply in_or_app. now right.
  - now apply IH.
Qed.

(** ** The entries that are deleted *)

Lemma evicted_firstn (entries : list Ranked) :
  MAX_CACHE_SIZE - 100 <= Z.of_nat (List.length entries) ->
  evicted entries
  = firstn (Z.to_nat (Z.of_nat (List.length entries) - (MAX_CACHE_SIZE - 100)))
           (sortRanked entries).
Proof.
  intros Big. unfold evicted, Js.slice, Js.rel_index, MAX_CACHE_SIZE in *.
  rewrite <- (Permutation_length (sortRanked_perm entries)).
  cbn [Z.ltb Z.compare].
  destruct (Z.of_nat (List.length entries) - 1000 + 100 <? 0)%Z eqn:N;
    [apply Z.ltb_lt in N; lia |].
  rewrite !Z.min_l by lia. cbn [Z.to_nat skipn].
  f_equal. lia.
Qed.

Lemma NoDup_app_disjoint {A : Type} (l1 l2 : list A) :
  NoDup (l1 ++ l2) -> forall x, In x l1 -> In x l2 -> False.
Proof.
  induction l1 as [| a l1 IH]; cbn; intros ND x H1 H2; [contradiction |].
  inversion ND as [| ? ? Hn Hd]; subst.
  destruct H1 as [-> | H1].
  - apply Hn. apply in_or_app. now right.
  - now apply (IH Hd x).
Qed.

Lemma filter_none {A : Type} (p : A -> bool) (l : list A) :
  (forall x, In x l -> p x = false) -> filter p l = [].
Proof.
  induction l as [| a l IH]; cbn; intros H; [reflexivity |].
  rewrite (H a (or_introl eq_refl)). apply IH. intros x Hx. apply H. now right.
Qed.

Lemma filter_all {A : Type} (p : A -> bool) (l : list A) :
  (forall x, In x l -> p x = true) -> filter p l = l.
Proof.
  induction l as [| a l IH]; cbn; intros H; [reflexivity |].
  rewrite (H a (or_introl eq_refl)). f_equal. apply IH. intros x Hx. apply H. now right.
Qed.

(** Removing from a list with unique keys the keys of the first [n]
    elements of one of its permutations leaves the other elements. *)
Lemma filter_out_firstn {A : Type} (key : A -> string) (l s : list A) (n : nat) :
  NoDup (map key l) -> Permutation l s -> (n <= List.length s)%nat ->
  let gone := map key (firstn n s) in
  List.length (filter (fun x => negb (memString (key x) gone)) l)
    = (List.length l - n)%nat
  /\ (forall x, In x l -> In (key x) gone -> In x (firstn n s))
  /\ (forall x, In x l -> ~ In (key x) gone -> In x (skipn n s)).
Proof.
  intros ND P Hn gone.
  assert (NDs : NoDup (map key s)).
  { apply (Permutation_NoDup (Permutation_map key P) ND). }
  assert (Split : s = (firstn n s ++ skipn n s)%list)
    by (symmetry; apply firstn_skipn).
  assert (InFirst : forall x, In x s -> In (key x) gone -> In x (firstn n s)).
  { intros x Hx Hg. unfold gone in Hg. apply in_map_iff in Hg.
    destruct Hg as (y & E & Hy).
    assert (Hys : In y s) by (rewrite Split; apply in_or_app; now left).
    now rewrite <- (NoDup_map_injective_on key s y x NDs Hys Hx E). }
  assert (NotSkip : forall x, In x (skipn n s) -> ~ In (key x) gone).
  { intros x Hx Hg.
    rewrite Split in NDs. rewrite map_app in NDs.
    apply (NoDup_app_disjoint _ _ NDs (key x)); [exact Hg | now apply in_map]. }
  split; [| split].
  - rewrite (Permutation_length
               (Permutation_filter_stable
                  (fun x => negb (memString (key x) gone)) l s P)).
    rewrite (Permutation_length P).
    rewrite Split at 1. rewrite filter_app.
    rewrite length_app.
    assert (F1 : filter (fun x => negb (memString (key x) gone)) (firstn n s) = []).
    { apply filter_none. intros x Hx.
      apply negb_false_iff, memString_In. unfold gone. now apply in_map. }
    assert (F2 : filter (fun x => negb (memString (key x) gone)) (skipn n s)
                 = skipn n s).
    { apply filter_all. intros x Hx.
      apply negb_true_iff, memString_false. now apply NotSkip. }
    rewrite F1, F2, length_skipn. cbn. reflexivity.
  - intros x Hx Hg. apply InFirst; [| exact Hg].
    now apply (Permutation_in x P).
  - intros x Hx Hg.
    assert (Hs : In x s) by now apply (Permutation_in x P).
    rewrite Split in Hs. apply in_app_or in Hs. destruct Hs as [Hs | Hs]; [| exact Hs].
    exfalso. apply Hg. unfold gone. now apply in_map.
Qed.

(** ** The sweep when no command fails *)

Lemma cleanupOldEntries_fault_free (w : World) :
  faults w = [] ->
  exists w',
    cleanupOldEntries w = (Returned tt, w')
    /\ clock w' = clock w
    /\ stringmatch w' = stringmatch w
    /\ items w'
       = if (Z.of_nat (List.length (allKeys w)) <=? MAX_CACHE_SIZE)%Z
         then items w
         else removeKeys
                (map r_key (evicted (fst (sweep (clock w) (allKeys w) [] (items w)))))
                (snd (sweep (clock w) (allKeys w) [] (items w))).
Proof.
  intros NF. unfold cleanupOldEntries, try_catch, cleanupBody.
  unfold bind at 1. unfold keys. rewrite command_eq, (failsNext_nil _ NF).
  cbn [fst snd]. fold (matchingKeys w (CACHE_PREFIX ++ "*")). fold (allKeys w).
  set (w1 := with_items (items w) (with_command (CmdKeys (CACHE_PREFIX ++ "*")) w)).
  assert (NF1 : faults w1 = []) by (cbn; now rewrite NF).
  destruct (Z.of_nat (List.length (allKeys w)) <=? MAX_CACHE_SIZE)%Z.
  { exists w1. repeat split. }
  unfold bind at 1.
  destruct (collectEntries_fault_free (allKeys w) [] w1 NF1)
    as (R & I & C & SM & NF2).
  destruct (collectEntries (allKeys w) [] w1) as [o w2]. cbn [fst snd] in *.
  rewrite R. change (clock w1) with (clock w) in *.
  change (items w1) with (items w) in *.
  set (entries := fst (sweep (clock w) (allKeys w) [] (items w))) in *.
  fold (evicted entries).
  destruct (0 <? Z.of_nat (List.length (evicted entries)))%Z eqn:E.
  - unfold del. rewrite command_eq, (failsNext_nil _ NF2). cbn [fst snd].
    eexists. split; [reflexivity |]. cbn. rewrite I. repeat split; assumption.
  - exists w2. split; [reflexivity |]. repeat split; try assumption.
    rewrite I. apply Z.ltb_ge in E.
    destruct (evicted entries); [cbn; now rewrite removeKeys_nil | cbn in E; lia].
Qed.

(** ** The readable entries after keys are removed *)

Lemma matchingKeys_removeKeys (w w' : World) (X : list string) (pattern : string) :
  clock w' = clock w -> stringmatch w' = stringmatch w ->
  items w' = removeKeys X (items w) ->
  matchingKeys w' pattern
  = filter (fun k => negb (memString k X)) (matchingKeys w pattern).
Proof.
  intros C SM I. unfold matchingKeys. rewrite C, SM, I. unfold removeKeys.
  clear C SM I.
  induction (items w) as [| x its IH]; cbn; [reflexivity |].
  destruct (memString (item_key x) X) eqn:M; cbn.
  - destruct (live (clock w) x && stringmatch w pattern (item_key x)); cbn;
      [rewrite M; cbn |]; exact IH.
  - destruct (live (clock w) x && stringmatch w pattern (item_key x)); cbn;
      [rewrite M; cbn; f_equal |]; exact IH.
Qed.

Lemma readableUnder_removeKeys (w w' : World) (X : list string) (ks : list string) :
  clock w' = clock w -> items w' = removeKeys X (items w) ->
  readableUnder w' (filter (fun k => negb (memString k X)) ks)
  = filter (fun p => negb (memString (fst p) X)) (readableUnder w ks).
Proof.
  intros C I. unfold readableUnder. rewrite C, I.
  induction ks as [| k ks IH]; cbn [filter flat_map]; [reflexivity |].
  rewrite filter_app.
  destruct (memString k X) eqn:M; cbn [negb].
  - rewrite IH.
    destruct (lookupItem (clock w) k (items w)) as [[e | s] |]; cbn;
      try reflexivity.
    now rewrite M.
  - cbn [flat_map]. rewrite IH, (lookupItem_removeKeys _ _ _ _ M).
    destruct (lookupItem (clock w) k (items w)) as [[e | s] |]; cbn;
      try reflexivity.
    now rewrite M.
Qed.

Lemma readableUnder_keys (w : World) (ks : list string) :
  NoDup ks -> NoDup (map fst (readableUnder w ks)).
Proof.
  unfold readableUnder. induction ks as [| k ks IH]; cbn; [constructor |].
  intros ND. inversion ND as [| ? ? Hn Hd]; subst.
  destruct (lookupItem (clock w) k (items w)) as [[e | s] |]; cbn; auto.
  constructor; [| auto].
  intros Hin. apply Hn. apply in_map_iff in Hin. destruct Hin as ([k' e'] & E & Hp).
  cbn in E. subst k'. apply in_flat_map in Hp. destruct Hp as (k'' & Hk & Hp).
  destruct (lookupItem (clock w) k'' (items w)) as [[e'' | s] |]; cbn in Hp;
    try contradiction.
  destruct Hp as [Hp | []]. now injection Hp as -> _.
Qed.

Lemma filter_map_comm {A B : Type} (f : A -> B) (p : B -> bool) (l : list A) :
  filter p (map f l) = map f (filter (fun x => p (f x)) l).
Proof.
  induction l as [| a l IH]; cbn; [reflexivity |].
  destruct (p (f a)); cbn; now rewrite IH.
Qed.

Lemma map_r_key_toRanked (l : list (string * CacheEntry)) :
  map r_key (map toRanked l) = map fst l.
Proof. rewrite map_map. apply map_ext. now intros [k e]. Qed.

(** The store after a sweep of more than 1000 keys: the corrupted keys
    and the keys of the evicted entries are removed. *)
Lemma cleanupOldEntries_removes (w : World) :
  faults w = [] ->
  NoDup (allKeys w) ->
  MAX_CACHE_SIZE < Z.of_nat (List.length (allKeys w)) ->
  clock (snd (cleanupOldEntries w)) = clock w
  /\ stringmatch (snd (cleanupOldEntries w)) = stringmatch w
  /\ items (snd (cleanupOldEntries w))
     = removeKeys
         (filter (corruptedAt (clock w) (items w)) (allKeys w)
          ++ map r_key (evicted (map toRanked (cacheEntries w))))
         (items w).
Proof.
  intros NF NDk Big.
  destruct (cleanupOldEntries_fault_free w NF) as (w' & E & C & SM & I).
  rewrite E. cbn [snd]. split; [exact C |]. split; [exact SM |].
  destruct (Z.of_nat (List.length (allKeys w)) <=? MAX_CACHE_SIZE)%Z eqn:Small;
    [apply Z.leb_le in Small; lia |].
  pose proof (sweep_spec (clock w) (items w) (allKeys w) [] [] NDk
                (fun k _ H => H)) as SW.
  rewrite removeKeys_nil in SW. cbn [app] in SW.
  change (flat_map _ (allKeys w)) with (cacheEntries w) in SW.
  rewrite SW in I. cbn [fst snd] in I. now rewrite removeKeys_app in I.
Qed.

(** The sweep where it does what is intended.  It counts the keys of the
    cache, whatever their category.  When there are at most 1000 keys it
    changes nothing.  When there are more, it deletes every corrupted
    entry; and when at least 900 entries are readable, it deletes the
    lowest-ranked readable entries so that exactly 900 readable entries
    remain: the entries that remain are entries that were there, and
    each of them ranks at least as high, by hit count and then by time
    stamp, as every readable entry that was deleted.  (No command of the
    sweep fails, and Redis holds one value per key.) *)
Theorem cleanupOldEntries_evicts_lowest (w : World) :
  faults w = [] ->
  uniqueKeys (map item_key (items w)) = true ->
  (Z.of_nat (List.length (allKeys w)) <= MAX_CACHE_SIZE ->
   items (snd (cleanupOldEntries w)) = items w)
  /\ (MAX_CACHE_SIZE < Z.of_nat (List.length (allKeys w)) ->
      forall k,
        In k (allKeys w) -> corruptedAt (clock w) (items w) k = true ->
        ~ In k (map item_key (items (snd (cleanupOldEntries w)))))
  /\ (MAX_CACHE_SIZE < Z.of_nat (List.length (allKeys w)) ->
      MAX_CACHE_SIZE - 100 <= Z.of_nat (List.length (cacheEntries w)) ->
      Z.of_nat (List.length (cacheEntries (snd (cleanupOldEntries w))))
        = MAX_CACHE_SIZE - 100
      /\ (forall p, In p (cacheEntries (snd (cleanupOldEntries w))) ->
                    In p (cacheEntries w))
      /\ (forall k e k' e',
            In (k, e) (cacheEntries w) ->
            ~ In (k, e) (cacheEntries (snd (cleanupOldEntries w))) ->
            In (k', e') (cacheEntries (snd (cleanupOldEntries w))) ->
            rankLe e e')).
Proof.
  intros NF UK.
  assert (NDk : NoDup (allKeys w)).
  { unfold allKeys, matchingKeys. apply item_keys_filter_unique.
    now apply uniqueKeys_NoDup. }
  split; [| split].
  { intros Small. apply Z.leb_le in Small.
    destruct (cleanupOldEntries_fault_free w NF) as (w' & E & _ & _ & I).
    rewrite E. cbn [snd]. now rewrite Small in I. }
  { intros Big k Hk Hc.
    destruct (cleanupOldEntries_removes w NF NDk Big) as (_ & _ & I).
    rewrite I. apply removeKeys_keys.
    apply in_or_app. left. apply filter_In. now split. }
  intros Big Enough.
  destruct (cleanupOldEntries_removes w NF NDk Big) as (C & SM & I).
  set (w' := snd (cleanupOldEntries w)) in *.
  set (before := cacheEntries w) in *.
  set (ranked := map toRanked before) in *.
  set (corrupt := filter (corruptedAt (clock w) (items w)) (allKeys w)) in *.
  assert (Len : List.length ranked = List.length before) by apply length_map.
  rewrite evicted_firstn in I by (rewrite Len; exact Enough).
  set (n := Z.to_nat (Z.of_nat (List.length ranked) - (MAX_CACHE_SIZE - 100))) in *.
  set (sorted := sortRanked ranked) in *.
  set (gone := map r_key (firstn n sorted)) in *.
  assert (NDr : NoDup (map r_key ranked)).
  { unfold ranked. rewrite map_r_key_toRanked. now apply readableUnder_keys. }
  assert (Hn : (n <= List.length sorted)%nat).
  { unfold sorted. rewrite <- (Permutation_length (sortRanked_perm ranked)).
    unfold n, MAX_CACHE_SIZE. lia. }
  destruct (filter_out_firstn r_key ranked sorted n NDr (sortRanked_perm ranked) Hn)
    as (Count & InFirst & InSkip).
  fold gone in Count, InFirst, InSkip.
  assert (After : cacheEntries w'
                  = filter (fun p => negb (memString (fst p) gone)) before).
  { unfold cacheEntries, allKeys.
    rewrite (matchingKeys_removeKeys w w' (corrupt ++ gone) _ C SM I).
    rewrite (readableUnder_removeKeys w w' (corrupt ++ gone) _ C I).
    apply filter_ext_in. intros [k e] Hin. cbn [fst].
    rewrite memString_app.
    assert (NC : memString k corrupt = false).
    { apply memString_false. intros Hc. unfold corrupt in Hc.
      apply filter_In in Hc. destruct Hc as [_ Hc].
      apply readableUnder_In in Hin. destruct Hin as [_ L].
      unfold corruptedAt in Hc. rewrite L in Hc. discriminate. }
    now rewrite NC. }
  rewrite After.
  split; [| split].
  - assert (L2 : List.length (filter (fun p => negb (memString (fst p) gone)) before)
                 = List.length (filter (fun r => negb (memString (r_key r) gone)) ranked)).
    { unfold ranked. rewrite filter_map_comm, length_map. reflexivity. }
    rewrite L2, Count. unfold n, MAX_CACHE_SIZE in *. lia.
  - intros p Hp. apply filter_In in Hp. tauto.
  - intros k e k' e' Hin Hdel Hkept.
    apply filter_In in Hkept. destruct Hkept as [Hin' Hk'].
    cbn [fst] in Hk'. apply negb_true_iff, memString_false in Hk'.
    assert (Hk : In k gone).
    { apply memString_In. destruct (memString k gone) eqn:M; [reflexivity |].
      exfalso. apply Hdel. apply filter_In. split; [exact Hin |].
      cbn [fst]. now rewrite M. }
    assert (R1 : In (toRanked (k, e)) ranked) by (unfold ranked; now apply in_map).
    assert (R2 : In (toRanked (k', e')) ranked) by (unfold ranked; now apply in_map).
    pose proof (InFirst _ R1 Hk) as F1.
    pose proof (InSkip _ R2 Hk') as F2.
    pose proof (sortRanked_sorted ranked) as Srt. fold sorted in Srt.
    rewrite <- (firstn_skipn n sorted) in Srt.
    exact (StronglySorted_app rankedLe _ _ Srt _ _ F1 F2).
Qed.

(** The world in which the sweep of a write runs: the world after the
    connection, the embedding and the [setEx] of the new entry. *)
Lemma cacheSuggestion_runs_cleanup
  (input : CodeContextInput.t) (text : string) (w : World) :
  faults w = [] ->
  exists w1 entry,
    cacheSuggestion input text w = cleanupOldEntries w1
    /\ faults w1 = []
    /\ clock w1 = clock w
    /\ stringmatch w1 = stringmatch w
    /\ items w1
       = upsert (mkItem (CACHE_PREFIX ++ CodeContextInput.language input ++ ":"
                           ++ CodeContextInput.framework input ++ ":" ++ id entry)
                        (Json entry) (clock w + CACHE_TTL * 1000))
                (items w)
    /\ hitCount entry = 0
    /\ timestamp entry = clock w
    /\ suggestion entry = Js.trim text
    /\ embedding entry = queryOf w input.
Proof.
  intros NF. unfold cacheSuggestion, try_catch, cacheBody, getRedisClient, setEx.
  unfold bind at 1. rewrite command_eq, (failsNext_nil _ NF). cbn [fst snd].
  unfold bind at 1. rewrite generateEmbedding_eq.
  set (w1 := with_items (items w) (with_command CmdConnect w)).
  set (w2 := match embedder w1 (buildContext input) with
             | Some _ => w1 | None => with_error ErrEmbedding w1 end).
  assert (NF2 : faults w2 = [])
    by (unfold w2; destruct (embedder w1 _); cbn; now rewrite NF).
  assert (C2 : clock w2 = clock w) by (unfold w2; now destruct (embedder w1 _)).
  assert (I2 : items w2 = items w) by (unfold w2; now destruct (embedder w1 _)).
  assert (S2 : stringmatch w2 = stringmatch w)
    by (unfold w2; now destruct (embedder w1 _)).
  unfold bind at 1. unfold Date_now at 1.
  unfold bind at 1. unfold Date_now at 1.
  unfold bind at 1. rewrite command_eq, (failsNext_nil _ NF2). cbn [fst snd].
  match goal with |- context [cleanupOldEntries ?x] => set (w3 := x) end.
  pose proof (cleanupOldEntries_returns w3) as R.
  eexists w3, _. split.
  { destruct (cleanupOldEntries w3) as [[[] |] w4]; cbn [fst] in R;
      [reflexivity | discriminate]. }
  split; [cbn; now rewrite NF2 |].
  split; [exact C2 |]. split; [exact S2 |].
  split; [unfold w3; cbn [items with_items]; rewrite I2, C2; reflexivity |].
  split; [reflexivity |]. split; [reflexivity |]. split; reflexivity.
Qed.

(** The sweep of the world of 1001 readable entries. *)
Lemma cleanupOldEntries_evicts_lowest_witness :
  faults Samples.fullWorld = []
  /\ uniqueKeys (map item_key (items Samples.fullWorld)) = true
  /\ MAX_CACHE_SIZE < Z.of_nat (List.length (allKeys Samples.fullWorld))
  /\ MAX_CACHE_SIZE - 100 <= Z.of_nat (List.length (cacheEntries Samples.fullWorld))
  /\ Z.of_nat (List.length (cacheEntries (snd (cleanupOldEntries Samples.fullWorld))))
     = MAX_CACHE_SIZE - 100.
Proof.
  assert (H1 : faults Samples.fullWorld = []) by reflexivity.
  assert (H2 : uniqueKeys (map item_key (items Samples.fullWorld)) = true)
    by (vm_compute; reflexivity).
  assert (H3 : MAX_CACHE_SIZE < Z.of_nat (List.length (allKeys Samples.fullWorld)))
    by (apply Z.ltb_lt; vm_compute; reflexivity).
  assert (H4 : MAX_CACHE_SIZE - 100
               <= Z.of_nat (List.length (cacheEntries Samples.fullWorld)))
    by (apply Z.leb_le; vm_compute; reflexivity).
  split; [exact H1 |]. split; [exact H2 |]. split; [exact H3 |]. split; [exact H4 |].
  exact (proj1 (proj2 (proj2 (cleanupOldEntries_evicts_lowest Samples.fullWorld
                                H1 H2)) H3 H4)).
Defined.

(** C2 (the failing input).  A store of 1001 keys of which 102 hold
    corrupted entries and 899 hold readable ones: the sweep deletes the
    corrupted entries and then 898 of the readable ones (the end index of
    the slice is 899 - 1000 + 100 = -1, which counts from the end), so one
    readable entry remains, not 899, let alone 900.  The same happens to
    the sweep of a write into a store of 1000 keys of which 898 hold
    readable entries: the new entry makes them 899, and one is left. *)
Theorem cleanupOldEntries_leaves_one_entry :
  Z.of_nat (List.length (allKeys Samples.corruptedWorld)) = 1001
  /\ Z.of_nat (List.length (cacheEntries Samples.corruptedWorld)) = 899
  /\ Z.of_nat (List.length
                 (cacheEntries (snd (cleanupOldEntries Samples.corruptedWorld)))) = 1
  /\ Z.of_nat (List.length (allKeys Samples.nearlyFullWorld)) = 1000
  /\ Z.of_nat (List.length (cacheEntries Samples.nearlyFullWorld)) = 898
  /\ Z.of_nat (List.length
                 (cacheEntries
                    (snd (cacheSuggestion Samples.addInput "a + b;"
                            Samples.nearlyFullWorld)))) = 1.
Proof.
  split; [vm_compute; reflexivity |]. split; [vm_compute; reflexivity |].
  split; [vm_compute; reflexivity |]. split; [vm_compute; reflexivity |].
  split; vm_compute; reflexivity.
Qed.

Import Vocabulary.

(* ================================================================== *)
(** * The Redis client                                                 *)
(* ================================================================== *)

(** X5.  The reconnection strategy gives up after the tenth retry; until
    then the delay is fifty milliseconds per retry, so it is at most 500
    milliseconds and the cap of 1000 is never what is returned. *)
Theorem reconnectStrategy_delay (retries : Z) :
  match RedisClient.reconnectStrategy retries with
  | Some delay => retries <= 10 /\ delay = retries * 50 /\ delay <= 500
  | None => 10 < retries
  end.
Proof.
  unfold RedisClient.reconnectStrategy.
  destruct (10 <? retries)%Z eqn:E.
  - now apply Z.ltb_lt.
  - apply Z.ltb_ge in E. repeat split; lia.
Qed.

(* ================================================================== *)
(** * The performance monitor                                          *)
(* ================================================================== *)

Section Monitor.

Import PerformanceMonitor Vocabulary.

Lemma recordAll_app (calls more : list Call) (m : Metrics) :
  recordAll (calls ++ more) m = recordAll more (recordAll calls m).
Proof. unfold recordAll. apply fold_left_app. Qed.

Lemma recordAll_counters (calls : list Call) :
  forall m : Metrics,
    requestCount (recordAll calls m) = requestCount m + Z.of_nat (List.length calls)
    /\ errors (recordAll calls m) = errors m + countIf isError calls
    /\ cacheHits (recordAll calls m) = cacheHits m + countIf isHit calls.
Proof.
  unfold countIf.
  induction calls as [| [[d c] e] calls IH]; intros m.
  - cbn. repeat split; lia.
  - change (recordAll (((d, c), e) :: calls) m)
      with (recordAll calls (recordRequest d c e m)).
    destruct (IH (recordRequest d c e m)) as (R & E & H).
    rewrite R, E, H. unfold recordRequest, isError, isHit.
    cbn [filter snd fst List.length].
    destruct e, c; cbn [requestCount errors cacheHits negb andb List.length];
      repeat split; lia.
Qed.

Lemma countIf_partition (calls : list Call) :
  Z.of_nat (List.length calls)
  = countIf isHit calls + countIf isMiss calls + countIf isError calls.
Proof.
  unfold countIf, isHit, isMiss, isError.
  induction calls as [| [[d c] e] calls IH]; [reflexivity |].
  cbn [filter snd fst List.length]. destruct e, c; cbn [negb andb List.length]; lia.
Qed.

End Monitor.

(** X6.  After a call that is not an error, the average is the total
    time divided by the number of calls so far that were not cache hits:
    the misses, whose durations make up the total, and also the errors,
    whose durations were never added. *)
Theorem monitor_average_counts_errors
  (calls : list PerformanceMonitor.Call) (duration : float) (fromCache : bool) :
  let m := PerformanceMonitor.recordAll (calls ++ [(duration, fromCache, false)])
             PerformanceMonitor.initial in
  PerformanceMonitor.averageTime m
  = (PerformanceMonitor.totalTime m
     / PerformanceMonitor.number
         (countIf isMiss (calls ++ [(duration, fromCache, false)])
          + countIf isError calls))%float.
Proof.
  intros m. unfold m. rewrite recordAll_app.
  destruct (recordAll_counters calls PerformanceMonitor.initial) as (R & E & H).
  set (m0 := PerformanceMonitor.recordAll calls PerformanceMonitor.initial) in *.
  cbn [PerformanceMonitor.initial PerformanceMonitor.requestCount
       PerformanceMonitor.errors PerformanceMonitor.cacheHits] in R, E, H.
  change (PerformanceMonitor.recordAll [(duration, fromCache, false)] m0)
    with (PerformanceMonitor.recordRequest duration fromCache false m0).
  unfold PerformanceMonitor.recordRequest.
  cbn [PerformanceMonitor.averageTime PerformanceMonitor.totalTime].
  f_equal. f_equal. rewrite R, H.
  pose proof (countIf_partition calls) as P.
  unfold countIf in *. rewrite filter_app, length_app.
  unfold isMiss at 2. cbn [filter snd fst negb andb].
  destruct fromCache; cbn [negb List.length]; lia.
Qed.

(** X7.  As long as every request was served from the cache and none
    failed, the average response time is not a number: the total time is
    0 and so is the number of requests that were not cache hits. *)
Theorem monitor_average_of_hits_only (calls : list PerformanceMonitor.Call) :
  calls <> [] ->
  forallb isHit calls = true ->
  PerformanceMonitor.averageTime
    (PerformanceMonitor.recordAll calls PerformanceMonitor.initial) = nan.
Proof.
  intros NE All.
  assert (G : forall m,
             PerformanceMonitor.totalTime m = 0%float ->
             PerformanceMonitor.requestCount m = PerformanceMonitor.cacheHits m ->
             PerformanceMonitor.totalTime (PerformanceMonitor.recordAll calls m) = 0%float
             /\ PerformanceMonitor.requestCount (PerformanceMonitor.recordAll calls m)
                = PerformanceMonitor.cacheHits (PerformanceMonitor.recordAll calls m)
             /\ (calls <> [] ->
                 PerformanceMonitor.averageTime (PerformanceMonitor.recordAll calls m)
                 = nan)).
  { clear NE. induction calls as [| [[d c] e] calls IH]; intros m T Q.
    - repeat split; [exact T | exact Q | congruence].
    - cbn [forallb] in All. apply andb_true_iff in All. destruct All as [A All].
      unfold isHit in A. cbn [snd fst] in A. apply andb_true_iff in A.
      destruct A as [A1 A2]. apply negb_true_iff in A1. subst e c.
      change (PerformanceMonitor.recordAll ((d, true, false) :: calls) m)
        with (PerformanceMonitor.recordAll calls
                (PerformanceMonitor.recordRequest d true false m)).
      set (m1 := PerformanceMonitor.recordRequest d true false m).
      assert (T1 : PerformanceMonitor.totalTime m1 = 0%float) by exact T.
      assert (Q1 : PerformanceMonitor.requestCount m1 = PerformanceMonitor.cacheHits m1)
        by (cbn; lia).
      destruct (IH All m1 T1 Q1) as (T2 & Q2 & A2).
      split; [exact T2 |]. split; [exact Q2 |]. intros _.
      destruct calls as [| c' calls'].
      + cbn [PerformanceMonitor.recordAll fold_left]. unfold m1.
        unfold PerformanceMonitor.recordRequest.
        cbn [PerformanceMonitor.averageTime]. rewrite T.
        replace (PerformanceMonitor.requestCount m + 1
                 - (PerformanceMonitor.cacheHits m + 1)) with 0 by lia.
        vm_compute. reflexivity.
      + apply A2. discriminate. }
  apply (G PerformanceMonitor.initial); [reflexivity | reflexivity | exact NE].
Qed.

Lemma monitor_average_of_hits_only_witness :
  forallb isHit [(12.5%float, true, false); (3%float, true, false)] = true
  /\ PerformanceMonitor.averageTime
       (PerformanceMonitor.recordAll
          [(12.5%float, true, false); (3%float, true, false)]
          PerformanceMonitor.initial) = nan.
Proof.
  split; [reflexivity |].
  apply (monitor_average_of_hits_only
           [(12.5%float, true, false); (3%float, true, false)]).
  - discriminate.
  - reflexivity.
Defined.

(* ================================================================== *)
(** * The statistics of the cache                                      *)
(* ================================================================== *)

Section Statistics.

Import CacheStats.

Lemma statsLoop_cons key rest stats w :
  statsLoop (key :: rest) stats w =
    match get key w with
    | (Returned data, w1) =>
        match data with
        | Some (Json entry) => statsLoop rest (account entry stats) w1
        | _ => statsLoop rest stats w1
        end
    | (Thrown, w1) => (Thrown, w1)
    end.
Proof.
  cbn [statsLoop]. unfold bind at 1.
  destruct (get key w) as [[[[e | s] |] |] w1]; try reflexivity.
  cbn. now destruct (Js.truthy s).
Qed.

Lemma readsOnly_refl w : readsOnly w w.
Proof. now exists []. Qed.

Lemma readsOnly_trans w1 w2 w3 : readsOnly w1 w2 -> readsOnly w2 w3 -> readsOnly w1 w3.
Proof.
  intros (c1 & E1 & R1) (c2 & E2 & R2). exists (c2 ++ c1)%list.
  split; [now rewrite E2, E1, app_assoc |].
  now rewrite forallb_app, R2, R1.
Qed.

Lemma readsOnly_command c w :
  readOnly c = true -> readsOnly w (with_command c w).
Proof. intros R. exists [c]. split; [reflexivity |]. cbn. now rewrite R. Qed.

Lemma statsLoop_spec (ks : list string) :
  forall (stats : Stats) (w : World),
    sameData w (snd (statsLoop ks stats w))
    /\ readsOnly w (snd (statsLoop ks stats w))
    /\ (fst (statsLoop ks stats w) = Thrown
        \/ fst (statsLoop ks stats w)
           = Returned (summarise (readableUnder w ks) stats))
    /\ (faults w = [] ->
        fst (statsLoop ks stats w)
        = Returned (summarise (readableUnder w ks) stats)).
Proof.
  induction ks as [| key rest IH]; intros stats w.
  - cbn. repeat split; auto using sameData_refl, readsOnly_refl.
  - rewrite statsLoop_cons.
    destruct (get_cases key w) as [[E [fs Hf]] | [E Hf]]; rewrite E.
    + cbn [fst snd]. split; [apply sameData_command |].
      split; [now apply readsOnly_command |]. split; [now left |].
      rewrite Hf. discriminate.
    + set (w1 := with_command (CmdGet key) w).
      assert (S1 : sameData w w1) by apply sameData_command.
      assert (O1 : readsOnly w w1) by now apply readsOnly_command.
      assert (R1 : forall l, readableUnder w1 l = readableUnder w l) by reflexivity.
      assert (F1 : faults w = [] -> faults w1 = [])
        by (intros H; unfold w1; rewrite faults_command, H; reflexivity).
      unfold readableUnder. cbn [flat_map]. fold (readableUnder w rest).
      destruct (lookupItem (clock w) key (items w)) as [[e | s] |] eqn:L.
      * destruct (IH (account e stats) w1) as (S & O & C & F). rewrite R1 in C, F.
        split; [exact (sameData_trans _ _ _ S1 S) |].
        split; [exact (readsOnly_trans _ _ _ O1 O) |].
        split; [exact C | auto].
      * destruct (IH stats w1) as (S & O & C & F). rewrite R1 in C, F.
        split; [exact (sameData_trans _ _ _ S1 S) |].
        split; [exact (readsOnly_trans _ _ _ O1 O) |].
        split; [exact C | auto].
      * destruct (IH stats w1) as (S & O & C & F). rewrite R1 in C, F.
        split; [exact (sameData_trans _ _ _ S1 S) |].
        split; [exact (readsOnly_trans _ _ _ O1 O) |].
        split; [exact C | auto].
Qed.

Lemma statsBody_spec (w : World) : statsOutcome w (statsBody w).
Proof.
  unfold statsBody, getRedisClient.
  unfold bind at 1. rewrite command_eq.
  destruct (failsNext w) eqn:F0; cbn [fst snd].
  { unfold statsOutcome. cbn [fst snd]. split; [apply sameData_command |].
    split; [now apply readsOnly_command |].
    split; [now left |]. split; [| reflexivity].
    intros H. rewrite (failsNext_nil _ H) in F0. discriminate. }
  set (w1 := with_items (items w) (with_command CmdConnect w)).
  assert (S1 : sameData w w1) by (repeat split).
  assert (O1 : readsOnly w w1) by (exists [CmdConnect]; now split).
  assert (N1 : faults w = [] -> faults w1 = []) by (intros H; cbn; now rewrite H).
  unfold bind at 1. unfold keys. rewrite command_eq.
  destruct (failsNext w1) eqn:F1; cbn [fst snd].
  { unfold statsOutcome. cbn [fst snd].
    split; [exact (sameData_trans _ _ _ S1 (sameData_command _ _)) |].
    split; [apply (readsOnly_trans _ _ _ O1); now apply readsOnly_command |].
    split; [now left |]. split; [| intros H'; rewrite F0 in H'; discriminate].
    intros H. rewrite (failsNext_nil _ (N1 H)) in F1. discriminate. }
  fold (matchingKeys w1 (CACHE_PREFIX ++ "*")).
  rewrite (matchingKeys_same _ _ _ S1). fold (allKeys w).
  set (w2 := with_items (items w1) (with_command (CmdKeys (CACHE_PREFIX ++ "*")) w1)).
  assert (S2 : sameData w w2) by (repeat split).
  assert (O2 : readsOnly w w2).
  { apply (readsOnly_trans _ _ _ O1).
    exists [CmdKeys (CACHE_PREFIX ++ "*")]. now split. }
  assert (N2 : faults w = [] -> faults w2 = [])
    by (intros H; cbn; now rewrite H).
  unfold bind at 1. unfold Date_now at 1.
  change (clock w2) with (clock w).
  destruct (statsLoop_spec (allKeys w)
              (mkStats (Z.of_nat (List.length (allKeys w))) [] (clock w) 0) w2)
    as (S & O & C & F).
  rewrite (readableUnder_same _ _ _ S2) in C, F.
  fold (cacheEntries w) in C, F. fold (statsOf w) in C, F.
  unfold statsOutcome.
  split; [exact (sameData_trans _ _ _ S2 S) |].
  split; [exact (readsOnly_trans _ _ _ O2 O) |].
  split; [exact C |]. split; [| intros H'; rewrite F0 in H'; discriminate].
  intros H. apply F. now apply N2.
Qed.

Lemma getCacheStats_spec (w : World) :
  sameData w (snd (getCacheStats w))
  /\ readsOnly w (snd (getCacheStats w))
  /\ (fst (getCacheStats w) = Returned noStats
      \/ fst (getCacheStats w) = Returned (statsOf w))
  /\ (faults w = [] -> fst (getCacheStats w) = Returned (statsOf w))
  /\ (fst (statsBody w) = Thrown -> fst (getCacheStats w) = Returned noStats).
Proof.
  destruct (statsBody_spec w) as (S & O & C & F & _).
  unfold getCacheStats, try_catch.
  destruct (statsBody w) as [[stats |] w']; cbn [fst snd] in *.
  - split; [exact S |]. split; [exact O |].
    split; [destruct C as [C | C]; [discriminate | now right] |].
    split; [exact F | discriminate].
  - split; [exact S |]. split; [exact O |]. split; [now left |].
    split; [| reflexivity]. intros H. specialize (F H). discriminate.
Qed.

(** ** The tallies *)

Lemma countOf_tally (l l' : string) (counts : list (string * Z)) :
  countOf l (tally l' counts)
  = if (l' =? l)%string
    then Some (match countOf l counts with Some n => n + 1 | None => 1 end)
    else countOf l counts.
Proof.
  induction counts as [| [k n] counts IH]; cbn [tally countOf].
  - destruct (l' =? l)%string eqn:E; [reflexivity | reflexivity].
  - destruct (k =? l')%string eqn:K.
    + apply String.eqb_eq in K. subst k. cbn [countOf].
      destruct (l' =? l)%string; [| reflexivity].
      f_equal. destruct (n =? 0)%Z eqn:Z0; [apply Z.eqb_eq in Z0; lia | reflexivity].
    + cbn [countOf]. destruct (k =? l)%string eqn:KL.
      * apply String.eqb_eq in KL. subst k. rewrite String.eqb_sym in K.
        now rewrite K.
      * exact IH.
Qed.

Lemma summarise_counts (l : string) (entries : list (string * CacheEntry)) :
  forall stats : Stats,
    countOf l (entriesByLanguage (summarise entries stats))
    = match countOf l (entriesByLanguage stats) with
      | Some k => Some (k + entriesIn l entries)
      | None => if (entriesIn l entries =? 0)%Z then None
                else Some (entriesIn l entries)
      end.
Proof.
  induction entries as [| [key e] entries IH]; intros stats.
  - cbn. destruct (countOf l (entriesByLanguage stats)); [f_equal; lia | reflexivity].
  - change (summarise ((key, e) :: entries) stats)
      with (summarise entries (account e stats)).
    rewrite IH. cbn [account entriesByLanguage]. rewrite countOf_tally.
    assert (E : entriesIn l ((key, e) :: entries)
                = (if (language e =? l)%string then 1 else 0) + entriesIn l entries).
    { unfold entriesIn. cbn [filter]. unfold inLanguage at 1. cbn [snd].
      destruct (language e =? l)%string; cbn [List.length]; lia. }
    rewrite E. assert (P : 0 <= entriesIn l entries) by (unfold entriesIn; lia).
    destruct (language e =? l)%string.
    + destruct (countOf l (entriesByLanguage stats)) as [k |].
      * f_equal. lia.
      * destruct (1 + entriesIn l entries =? 0)%Z eqn:Z0;
          [apply Z.eqb_eq in Z0; lia |].
        reflexivity.
    + reflexivity.
Qed.

Lemma summarise_total (entries : list (string * CacheEntry)) :
  forall stats : Stats,
    totalEntries (summarise entries stats) = totalEntries stats.
Proof.
  induction entries as [| [key e] entries IH]; intros stats; [reflexivity |].
  change (summarise ((key, e) :: entries) stats)
    with (summarise entries (account e stats)).
  now rewrite IH.
Qed.

Lemma readableUnder_length (w : World) (ks : list string) :
  (List.length (readableUnder w ks) <= List.length ks)%nat.
Proof.
  unfold readableUnder. induction ks as [| k ks IH]; cbn [flat_map]; [cbn; lia |].
  rewrite length_app. cbn [List.length].
  destruct (lookupItem (clock w) k (items w)) as [[e | s] |]; cbn [List.length];
    apply le_n_S in IH; cbn [Nat.add]; try exact IH; apply Nat.le_le_succ_r;
    apply le_S_n; exact IH.
Qed.

(** ** The oldest and the newest entry *)

Lemma summarise_times (entries : list (string * CacheEntry)) :
  forall stats : Stats,
    oldestEntry (summarise entries stats) <= oldestEntry stats
    /\ newestEntry stats <= newestEntry (summarise entries stats)
    /\ (forall key e, In (key, e) entries ->
          oldestEntry (summarise entries stats) <= timestamp e
          /\ timestamp e <= newestEntry (summarise entries stats))
    /\ (oldestEntry (summarise entries stats) = oldestEntry stats
        \/ exists key e, In (key, e) entries
             /\ oldestEntry (summarise entries stats) = timestamp e)
    /\ (newestEntry (summarise entries stats) = newestEntry stats
        \/ exists key e, In (key, e) entries
             /\ newestEntry (summarise entries stats) = timestamp e).
Proof.
  induction entries as [| [key e] entries IH]; intros stats.
  - cbn. repeat split; try lia; try (now left); try contradiction.
  - change (summarise ((key, e) :: entries) stats)
      with (summarise entries (account e stats)).
    destruct (IH (account e stats)) as (O & N & B & Omin & Nmax).
    set (s' := summarise entries (account e stats)) in *.
    assert (O1 : oldestEntry (account e stats) <= oldestEntry stats
                 /\ oldestEntry (account e stats) <= timestamp e
                 /\ (oldestEntry (account e stats) = oldestEntry stats
                     \/ oldestEntry (account e stats) = timestamp e)).
    { cbn [account oldestEntry].
      destruct (timestamp e <? oldestEntry stats)%Z eqn:T;
        [ apply Z.ltb_lt in T; repeat split; try lia; now right
        | apply Z.ltb_ge in T; repeat split; try lia; now left ]. }
    assert (N1 : newestEntry stats <= newestEntry (account e stats)
                 /\ timestamp e <= newestEntry (account e stats)
                 /\ (newestEntry (account e stats) = newestEntry stats
                     \/ newestEntry (account e stats) = timestamp e)).
    { cbn [account newestEntry].
      destruct (newestEntry stats <? timestamp e)%Z eqn:T;
        [ apply Z.ltb_lt in T; repeat split; try lia; now right
        | apply Z.ltb_ge in T; repeat split; try lia; now left ]. }
    destruct O1 as (Oa & Ob & Oc), N1 as (Na & Nb & Nc).
    split; [lia |]. split; [lia |]. split; [| split].
    + intros k' e' [H | H].
      * injection H as <- <-. lia.
      * exact (B k' e' H).
    + destruct Omin as [H | (k' & e' & Hin & H)].
      * destruct Oc as [Oc | Oc].
        -- left. lia.
        -- right. exists key, e. split; [now left | lia].
      * right. exists k', e'. split; [now right | exact H].
    + destruct Nmax as [H | (k' & e' & Hin & H)].
      * destruct Nc as [Nc | Nc].
        -- left. lia.
        -- right. exists key, e. split; [now left | lia].
      * right. exists k', e'. split; [now right | exact H].
Qed.

End Statistics.

(** X8.  [getCacheStats] never throws and never changes the store: the
    commands it sends only read, whatever fails.  When its body throws,
    in particular when the store cannot be reached, it returns the empty
    statistics: no entry, no language, both time stamps 0. *)
Theorem getCacheStats_only_reads (w : World) :
  match CacheStats.getCacheStats w with
  | (Returned stats, w') =>
      items w' = items w
      /\ (exists cmds, issued w' = (cmds ++ issued w)%list
                       /\ forallb readOnly cmds = true)
      /\ (fst (CacheStats.statsBody w) = Thrown -> stats = CacheStats.noStats)
      /\ (failsNext w = true -> stats = CacheStats.noStats)
  | (Thrown, _) => False
  end.
Proof.
  destruct (getCacheStats_spec w) as (S & O & C & _ & T).
  destruct (statsBody_spec w) as (_ & _ & _ & _ & F).
  destruct (CacheStats.getCacheStats w) as [[stats |] w']; cbn [fst snd] in *.
  - split; [apply S |]. split; [exact O |]. split.
    + intros H. specialize (T H). now injection T.
    + intros H. specialize (T (F H)). now injection T.
  - destruct C as [C | C]; discriminate.
Qed.

(** X9.  When no command fails, [getCacheStats] reports as the total the
    number of keys of the cache, readable or not, and for each language
    the number of readable entries of that language; a language without
    a readable entry has no count.  The counts of the languages add up to
    the number of readable entries, which the total can exceed. *)
Theorem getCacheStats_counts (w : World) :
  faults w = [] ->
  exists stats,
    fst (CacheStats.getCacheStats w) = Returned stats
    /\ CacheStats.totalEntries stats = Z.of_nat (List.length (allKeys w))
    /\ (forall l : string,
          CacheStats.countOf l (CacheStats.entriesByLanguage stats)
          = if (Z.of_nat (List.length (filter (inLanguage l) (cacheEntries w))) =? 0)%Z
            then None
            else Some (Z.of_nat (List.length (filter (inLanguage l) (cacheEntries w)))))
    /\ Z.of_nat (List.length (cacheEntries w)) <= CacheStats.totalEntries stats.
Proof.
  intros NF. destruct (getCacheStats_spec w) as (_ & _ & _ & F & _).
  exists (statsOf w). split; [exact (F NF) |]. unfold statsOf.
  rewrite summarise_total. cbn [CacheStats.totalEntries].
  split; [reflexivity |]. split.
  - intros l. rewrite summarise_counts. reflexivity.
  - unfold cacheEntries. pose proof (readableUnder_length w (allKeys w)). lia.
Qed.

Lemma getCacheStats_counts_witness :
  faults Samples.sampleWorld = []
  /\ exists stats,
       fst (CacheStats.getCacheStats Samples.sampleWorld) = Returned stats
       /\ CacheStats.totalEntries stats = 5
       /\ CacheStats.countOf "JavaScript" (CacheStats.entriesByLanguage stats) = Some 3
       /\ CacheStats.countOf "Python" (CacheStats.entriesByLanguage stats) = Some 1
       /\ CacheStats.countOf "Go" (CacheStats.entriesByLanguage stats) = None.
Proof.
  split; [reflexivity |].
  destruct (getCacheStats_counts Samples.sampleWorld eq_refl)
    as (stats & E & T & C & _).
  exists stats. split; [exact E |]. split; [exact T |].
  split; [exact (C "JavaScript") |]. split; [exact (C "Python") | exact (C "Go")].
Defined.

(** X10.  When no command fails, the oldest time stamp reported is the
    smallest of the current time and the time stamps of the readable
    entries, and the newest is the largest of 0 and these time stamps.
    For a cache without readable entry the oldest entry is therefore
    dated now, and the newest one 0. *)
Theorem getCacheStats_time_range (w : World) :
  faults w = [] ->
  exists stats,
    fst (CacheStats.getCacheStats w) = Returned stats
    /\ CacheStats.oldestEntry stats <= clock w
    /\ 0 <= CacheStats.newestEntry stats
    /\ (forall key e, In (key, e) (cacheEntries w) ->
          CacheStats.oldestEntry stats <= timestamp e
          /\ timestamp e <= CacheStats.newestEntry stats)
    /\ (CacheStats.oldestEntry stats = clock w
        \/ exists key e, In (key, e) (cacheEntries w)
             /\ CacheStats.oldestEntry stats = timestamp e)
    /\ (CacheStats.newestEntry stats = 0
        \/ exists key e, In (key, e) (cacheEntries w)
             /\ CacheStats.newestEntry stats = timestamp e)
    /\ (cacheEntries w = [] ->
          CacheStats.oldestEntry stats = clock w
          /\ CacheStats.newestEntry stats = 0).
Proof.
  intros NF. destruct (getCacheStats_spec w) as (_ & _ & _ & F & _).
  exists (statsOf w). split; [exact (F NF) |]. unfold statsOf.
  destruct (summarise_times (cacheEntries w)
              (CacheStats.mkStats (Z.of_nat (List.length (allKeys w))) [] (clock w) 0))
    as (O & N & B & Omin & Nmax).
  cbn [CacheStats.oldestEntry CacheStats.newestEntry] in O, N, Omin, Nmax.
  split; [exact O |]. split; [exact N |]. split; [exact B |].
  split; [exact Omin |]. split; [exact Nmax |].
  intros Empty. rewrite Empty. split; reflexivity.
Qed.

Lemma getCacheStats_time_range_witness :
  faults Samples.sampleWorld = []
  /\ exists stats,
       fst (CacheStats.getCacheStats Samples.sampleWorld) = Returned stats
       /\ CacheStats.oldestEntry stats <= clock Samples.sampleWorld
       /\ 0 <= CacheStats.newestEntry stats.
Proof.
  split; [reflexivity |].
  destruct (getCacheStats_time_range Samples.sampleWorld eq_refl)
    as (stats & E & O & N & _).
  exists stats. split; [exact E |]. split; [exact O | exact N].
Defined.

(** X11.  The statistics endpoint never answers with an error.  Its
    answer carries the statistics, the current time, and the two ages
    computed from it (0 for a time stamp of 0), and the store is left as
    it was.  When the store cannot be reached the answer is still a
    success, with the empty statistics and both ages 0. *)
Theorem stats_endpoint_never_fails (w : World) :
  match StatsRoute.GET w with
  | (Returned (StatsRoute.StatsOk stats oldestAge newestAge now), w') =>
      fst (CacheStats.getCacheStats w) = Returned stats
      /\ now = clock w
      /\ oldestAge = (if (CacheStats.oldestEntry stats =? 0)%Z then 0
                      else clock w - CacheStats.oldestEntry stats)
      /\ newestAge = (if (CacheStats.newestEntry stats =? 0)%Z then 0
                      else clock w - CacheStats.newestEntry stats)
      /\ items w' = items w
      /\ (failsNext w = true ->
          stats = CacheStats.noStats /\ oldestAge = 0 /\ newestAge = 0)
  | _ => False
  end.
Proof.
  destruct (getCacheStats_spec w) as (S & _ & C & _ & T).
  destruct (statsBody_spec w) as (_ & _ & _ & _ & F).
  unfold StatsRoute.GET, try_catch. unfold bind at 1.
  destruct (CacheStats.getCacheStats w) as [[stats |] w']; cbn [fst snd] in *.
  2:{ destruct C as [C | C]; discriminate. }
  assert (Ck : clock w' = clock w) by apply S.
  assert (It : items w' = items w) by apply S.
  assert (Z : failsNext w = true -> stats = CacheStats.noStats).
  { intros H. specialize (T (F H)). now injection T. }
  unfold StatsRoute.ageOf.
  destruct (CacheStats.oldestEntry stats =? 0)%Z eqn:E1;
    destruct (CacheStats.newestEntry stats =? 0)%Z eqn:E2;
    cbn; rewrite ?Ck, ?E1, ?E2;
    (split; [reflexivity |]; split; [reflexivity |]; split; [reflexivity |];
     split; [reflexivity |]; split; [exact It |];
     intros H; pose proof (Z H) as ->; cbn in E1, E2; try discriminate;
     repeat split).
Qed.

(* ================================================================== *)
(** * What the operations of the cache leave untouched                 *)
(* ================================================================== *)

Lemma sameEnv_refl w : sameEnv w w.
Proof. repeat split; auto. Qed.

Lemma sameEnv_trans w1 w2 w3 : sameEnv w1 w2 -> sameEnv w2 w3 -> sameEnv w1 w3.
Proof.
  unfold sameEnv. intros (?&?&?&?&?&?) (?&?&?&?&?&?).
  repeat split; try congruence. auto.
Qed.

Lemma keepsEnv_ret {A : Type} (a : A) : keepsEnv (ret a).
Proof. intros w. apply sameEnv_refl. Qed.

Lemma keepsEnv_bind {A B : Type} (m : M A) (k : A -> M B) :
  keepsEnv m -> (forall a, keepsEnv (k a)) -> keepsEnv (bind m k).
Proof.
  intros Hm Hk w. unfold bind. specialize (Hm w).
  destruct (m w) as [[a |] w1]; cbn [snd] in *; [| exact Hm].
  exact (sameEnv_trans _ _ _ Hm (Hk a w1)).
Qed.

Lemma keepsEnv_try_catch {A : Type} (body handler : M A) :
  keepsEnv body -> keepsEnv handler -> keepsEnv (try_catch body handler).
Proof.
  intros Hb Hh w. unfold try_catch. specialize (Hb w).
  destruct (body w) as [[a |] w1]; cbn [snd] in *; [exact Hb |].
  exact (sameEnv_trans _ _ _ Hb (Hh w1)).
Qed.

Lemma keepsEnv_command {A : Type} (c : RedisCmd) (run : World -> A * list Item) :
  keepsEnv (command c run).
Proof.
  intros w. rewrite command_eq.
  destruct (failsNext w); cbn; repeat split; intros H; cbn; now rewrite H.
Qed.

Lemma keepsEnv_Date_now : keepsEnv Date_now.
Proof. intros w. apply sameEnv_refl. Qed.

Lemma keepsEnv_console_error e : keepsEnv (console_error e).
Proof. intros w. repeat split; auto. Qed.

Lemma keepsEnv_generateEmbedding text : keepsEnv (generateEmbedding text).
Proof.
  intros w. rewrite generateEmbedding_eq. cbn [snd].
  destruct (embedder w text); repeat split; auto.
Qed.

Lemma keepsEnv_scanKeys q ks : forall best, keepsEnv (scanKeys q ks best).
Proof.
  induction ks as [| key rest IH]; intros best; cbn [scanKeys].
  - apply keepsEnv_ret.
  - apply keepsEnv_bind; [apply keepsEnv_command |].
    intros [v |]; [| apply IH].
    destruct (negb (valueTruthy v)); [apply IH |].
    destruct (JSON_parse v) as [entry |].
    + destruct (improves _ best); apply IH.
    + apply keepsEnv_bind; [apply keepsEnv_console_error | intros _; apply IH].
Qed.

Lemma keepsEnv_getCachedSuggestion input : keepsEnv (getCachedSuggestion input).
Proof.
  unfold getCachedSuggestion. apply keepsEnv_try_catch.
  - unfold lookupBody, getRedisClient, keys, setEx.
    apply keepsEnv_bind; [apply keepsEnv_command | intros _].
    apply keepsEnv_bind; [apply keepsEnv_generateEmbedding | intros q].
    apply keepsEnv_bind; [apply keepsEnv_command | intros ks].
    destruct (List.length ks =? 0)%nat; [apply keepsEnv_ret |].
    apply keepsEnv_bind; [apply keepsEnv_scanKeys | intros [b |]];
      [| apply keepsEnv_ret].
    apply keepsEnv_bind; [apply keepsEnv_Date_now | intros now].
    apply keepsEnv_bind; [apply keepsEnv_command | intros _; apply keepsEnv_ret].
  - apply keepsEnv_bind; [apply keepsEnv_console_error | intros _; apply keepsEnv_ret].
Qed.

Lemma keepsEnv_collectEntries ks : forall entries, keepsEnv (collectEntries ks entries).
Proof.
  induction ks as [| key rest IH]; intros entries; cbn [collectEntries].
  - apply keepsEnv_ret.
  - apply keepsEnv_bind; [apply keepsEnv_command |].
    intros [v |]; [| apply IH].
    destruct (valueTruthy v); [| apply IH].
    destruct (JSON_parse v) as [entry |]; [apply IH |].
    apply keepsEnv_bind; [apply keepsEnv_command | intros _; apply IH].
Qed.

Lemma keepsEnv_cleanupOldEntries : keepsEnv cleanupOldEntries.
Proof.
  unfold cleanupOldEntries. apply keepsEnv_try_catch;
    [| apply keepsEnv_console_error].
  unfold cleanupBody, keys, del.
  apply keepsEnv_bind; [apply keepsEnv_command | intros allKeys].
  destruct (Z.of_nat (List.length allKeys) <=? MAX_CACHE_SIZE)%Z;
    [apply keepsEnv_ret |].
  apply keepsEnv_bind; [apply keepsEnv_collectEntries | intros entries].
  match goal with |- keepsEnv (if ?c then _ else _) => destruct c end;
    [apply keepsEnv_command | apply keepsEnv_ret].
Qed.

Lemma keepsEnv_cacheSuggestion input text : keepsEnv (cacheSuggestion input text).
Proof.
  unfold cacheSuggestion. apply keepsEnv_try_catch;
    [| apply keepsEnv_console_error].
  unfold cacheBody, getRedisClient, setEx.
  apply keepsEnv_bind; [apply keepsEnv_command | intros _].
  apply keepsEnv_bind; [apply keepsEnv_generateEmbedding | intros e].
  apply keepsEnv_bind; [apply keepsEnv_Date_now | intros t1].
  apply keepsEnv_bind; [apply keepsEnv_Date_now | intros t2].
  apply keepsEnv_bind; [apply keepsEnv_command | intros _].
  apply keepsEnv_cleanupOldEntries.
Qed.

Lemma queryOf_sameEnv w w' input : sameEnv w w' -> queryOf w' input = queryOf w input.
Proof.
  intros (_ & _ & E & _). unfold queryOf, embeddingOf. now rewrite E.
Qed.

(* ================================================================== *)
(** * A write followed by a lookup                                     *)
(* ================================================================== *)

(** The write when no command fails: the new item is stored, then the
    sweep runs. *)
Lemma cacheSuggestion_fault_free
  (input : CodeContextInput.t) (text : string) (w : World) :
  faults w = [] ->
  exists w1,
    cacheSuggestion input text w = cleanupOldEntries w1
    /\ faults w1 = []
    /\ clock w1 = clock w
    /\ stringmatch w1 = stringmatch w
    /\ items w1 = upsert (newItem w input text) (items w).
Proof.
  intros NF. unfold cacheSuggestion, try_catch, cacheBody, getRedisClient, setEx.
  unfold bind at 1. rewrite command_eq, (failsNext_nil _ NF). cbn [fst snd].
  unfold bind at 1. rewrite generateEmbedding_eq.
  set (w1 := with_items (items w) (with_command CmdConnect w)).
  set (w2 := match embedder w1 (buildContext input) with
             | Some _ => w1 | None => with_error ErrEmbedding w1 end).
  assert (NF2 : faults w2 = [])
    by (unfold w2; destruct (embedder w1 _); cbn; now rewrite NF).
  assert (C2 : clock w2 = clock w) by (unfold w2; now destruct (embedder w1 _)).
  assert (I2 : items w2 = items w) by (unfold w2; now destruct (embedder w1 _)).
  assert (S2 : stringmatch w2 = stringmatch w)
    by (unfold w2; now destruct (embedder w1 _)).
  unfold bind at 1. unfold Date_now at 1.
  unfold bind at 1. unfold Date_now at 1.
  unfold bind at 1. rewrite command_eq, (failsNext_nil _ NF2). cbn [fst snd].
  match goal with |- context [cleanupOldEntries ?x] => set (w3 := x) end.
  pose proof (cleanupOldEntries_returns w3) as R.
  exists w3. split.
  { destruct (cleanupOldEntries w3) as [[[] |] w4]; cbn [fst] in R;
      [reflexivity | discriminate]. }
  split; [cbn; now rewrite NF2 |].
  split; [exact C2 |]. split; [exact S2 |].
  unfold w3. cbn [items with_items]. rewrite I2, C2. reflexivity.
Qed.

Lemma filter_upsert_length (p : Item -> bool) (it : Item) (its : list Item) :
  (List.length (filter p (upsert it its)) <= S (List.length (filter p its)))%nat.
Proof.
  induction its as [| x its IH]; cbn [upsert filter].
  - destruct (p it); cbn; auto.
  - destruct (item_key x =? item_key it)%string; cbn [filter].
    + destruct (p it), (p x); cbn [List.length]; auto.
    + destruct (p x); cbn [List.length]; auto. now apply le_n_S.
Qed.

Lemma matchingKeys_upsert_length (w w1 : World) (it : Item) (pattern : string) :
  clock w1 = clock w -> stringmatch w1 = stringmatch w ->
  items w1 = upsert it (items w) ->
  (List.length (matchingKeys w1 pattern) <= S (List.length (matchingKeys w pattern)))%nat.
Proof.
  intros C SM I. unfold matchingKeys. rewrite C, SM, I, !length_map.
  apply filter_upsert_length.
Qed.

(** The store after a write that no failure interrupts and that leaves
    at most 1000 keys. *)
Lemma cacheSuggestion_stores
  (input : CodeContextInput.t) (text : string) (w : World) :
  faults w = [] ->
  Z.of_nat (List.length (allKeys w)) < MAX_CACHE_SIZE ->
  items (snd (cacheSuggestion input text w)) = upsert (newItem w input text) (items w).
Proof.
  intros NF Small.
  destruct (cacheSuggestion_fault_free input text w NF) as (w1 & E & NF1 & C & SM & I).
  rewrite E.
  destruct (cleanupOldEntries_fault_free w1 NF1) as (w2 & E2 & _ & _ & I2).
  rewrite E2. cbn [snd]. rewrite I2.
  pose proof (matchingKeys_upsert_length w w1 _ (CACHE_PREFIX ++ "*") C SM I) as L.
  fold (allKeys w1) in L. fold (allKeys w) in L.
  destruct (Z.of_nat (List.length (allKeys w1)) <=? MAX_CACHE_SIZE)%Z eqn:Le;
    [exact I | apply Z.leb_gt in Le; lia].
Qed.

Lemma upsert_In_inv (it x : Item) (its : list Item) :
  In x (upsert it its) -> x = it \/ In x its.
Proof.
  induction its as [| y its IH]; cbn [upsert].
  - intros [H | []]. now left.
  - destruct (item_key y =? item_key it)%string.
    + intros [H | H]; [now left | right; now right].
    + intros [H | H]; [right; now left |].
      destruct (IH H) as [H' | H']; [now left | right; now right].
Qed.

Lemma lookupItem_upsert_other (t : Z) (key : string) (it : Item) (its : list Item) :
  item_key it <> key ->
  lookupItem t key (upsert it its) = lookupItem t key its.
Proof.
  intros NE. unfold lookupItem.
  assert (K : (item_key it =? key)%string = false) by now apply String.eqb_neq.
  induction its as [| y its IH]; cbn [upsert find].
  - now rewrite K, andb_false_r.
  - destruct (item_key y =? item_key it)%string eqn:Y; cbn [find].
    + apply String.eqb_eq in Y. rewrite Y, K, !andb_false_r. reflexivity.
    + destruct (live t y && (item_key y =? key)%string); [reflexivity | exact IH].
Qed.

(** The readable entries under a pattern after an item is written: the
    entry written, and entries that were there. *)
Lemma readable_after_upsert (w w1 : World) (key : string) (e : CacheEntry)
  (expiry : Z) (pattern : string) (k : string) (e' : CacheEntry) :
  clock w1 = clock w -> stringmatch w1 = stringmatch w ->
  items w1 = upsert (mkItem key (Json e) expiry) (items w) ->
  clock w < expiry ->
  In (k, e') (readableUnder w1 (matchingKeys w1 pattern)) ->
  (k = key /\ e' = e) \/ In (k, e') (readableUnder w (matchingKeys w pattern)).
Proof.
  intros C SM I Live Hin.
  apply readableUnder_In in Hin. destruct Hin as [Hk L].
  rewrite C, I in L.
  destruct (String.eqb_spec key k) as [-> | NE].
  - left. rewrite lookupItem_upsert in L by exact Live.
    injection L as ->. now split.
  - right. rewrite lookupItem_upsert_other in L by exact NE.
    apply readableUnder_In. split; [| exact L].
    apply matchingKeys_In in Hk. destruct Hk as (it & Hit & K & Lv & M).
    rewrite I in Hit. apply upsert_In_inv in Hit.
    destruct Hit as [-> | Hit]; [cbn in K; congruence |].
    apply matchingKeys_In. exists it. rewrite C in Lv. rewrite SM in M.
    now repeat split.
Qed.

Lemma newItem_live (w : World) (input : CodeContextInput.t) (text : string) :
  clock w < item_expiry (newItem w input text).
Proof. cbn. unfold CACHE_TTL. lia. Qed.

(** X12.  A suggestion that has just been written is found again.  When
    no command fails, the write leaves at most 1000 keys, the matcher
    of the store lets the pattern of the category match the new key,
    and the embedding of the context is similar enough to itself, the
    lookup of the same request right after the write is a hit.  The
    suggestion it returns is the one of a candidate: the entry just
    written, or an entry that was a candidate before; when there was no
    candidate before, it is the suggestion just written, trimmed. *)
Theorem write_then_lookup_hits
  (input : CodeContextInput.t) (text : string) (w : World) :
  faults w = [] ->
  Z.of_nat (List.length (allKeys w)) < MAX_CACHE_SIZE ->
  stringmatch w (categoryPattern input) (keyOf (newEntry w input text)) = true ->
  (SIMILARITY_THRESHOLD
     <? calculateSimilarity (queryOf w input) (queryOf w input))%float = true ->
  exists key entry,
    fst (getCachedSuggestion input (snd (cacheSuggestion input text w)))
    = Returned (Some (suggestion entry))
    /\ ((key = keyOf (newEntry w input text) /\ entry = newEntry w input text)
        \/ In (key, entry) (candidates w input))
    /\ (candidates w input = [] -> suggestion entry = Js.trim text).
Proof.
  intros NF Small Match Self.
  pose proof (cacheSuggestion_stores input text w NF Small) as I.
  pose proof (keepsEnv_cacheSuggestion input text w) as Env.
  set (w' := snd (cacheSuggestion input text w)) in *.
  destruct Env as (C & SM & Em & Bk & Gen & NF').
  specialize (NF' NF).
  assert (Q : queryOf w' input = queryOf w input).
  { unfold queryOf, embeddingOf. now rewrite Em. }
  set (e := newEntry w input text) in *.
  assert (New : In (keyOf e, e) (candidates w' input)).
  { unfold candidates. apply readableUnder_In. split.
    - apply matchingKeys_In. exists (newItem w input text).
      split; [rewrite I; apply upsert_In |]. split; [reflexivity |].
      split; [rewrite C; apply Z.ltb_lt, newItem_live |].
      rewrite SM. exact Match.
    - rewrite C, I. unfold newItem. apply lookupItem_upsert.
      apply (newItem_live w input text). }
  assert (Ex : exceeds (queryOf w' input) e = true).
  { unfold exceeds, similarityTo. rewrite Q. exact Self. }
  assert (From : forall k e', In (k, e') (candidates w' input) ->
                   (k = keyOf e /\ e' = e) \/ In (k, e') (candidates w input)).
  { intros k e' H. unfold candidates in H.
    exact (readable_after_upsert w w' (keyOf e) e _ _ k e' C SM I
             (newItem_live w input text) H). }
  pose proof (lookupBody_outcome input w') as O.
  pose proof (selection_correct w' input) as Inv.
  unfold getCachedSuggestion, try_catch.
  destruct (lookupBody input w') as [o w''].
  inversion O as [w1 _ _ _ F | w1 _ _ _ Sel | w1 b _ _ _ Sel]; subst.
  - contradiction.
  - rewrite Sel in Inv. rewrite (Inv _ _ New) in Ex. discriminate.
  - rewrite Sel in Inv. destruct Inv as (_ & _ & _ & pre & post & E & _).
    assert (Hb : In (bm_key b, bm_entry b) (candidates w' input))
      by (rewrite E; apply in_elt).
    exists (bm_key b), (bm_entry b). split; [reflexivity |].
    split; [exact (From _ _ Hb) |].
    intros Empty. destruct (From _ _ Hb) as [[_ ->] | H]; [reflexivity |].
    rewrite Empty in H. contradiction.
Qed.

(** The write and the lookup of the sample request in the sample world. *)
Lemma write_then_lookup_hits_witness :
  faults Samples.sampleWorld = []
  /\ Z.of_nat (List.length (allKeys Samples.sampleWorld)) < MAX_CACHE_SIZE
  /\ stringmatch Samples.sampleWorld (categoryPattern Samples.addInput)
       (keyOf (newEntry Samples.sampleWorld Samples.addInput "a + b;")) = true
  /\ (SIMILARITY_THRESHOLD
        <? calculateSimilarity (queryOf Samples.sampleWorld Samples.addInput)
                               (queryOf Samples.sampleWorld Samples.addInput))%float
     = true
  /\ exists key entry,
       fst (getCachedSuggestion Samples.addInput
              (snd (cacheSuggestion Samples.addInput "a + b;" Samples.sampleWorld)))
       = Returned (Some (suggestion entry))
       /\ ((key = keyOf (newEntry Samples.sampleWorld Samples.addInput "a + b;")
            /\ entry = newEntry Samples.sampleWorld Samples.addInput "a + b;")
           \/ In (key, entry) (candidates Samples.sampleWorld Samples.addInput)).
Proof.
  assert (H1 : faults Samples.sampleWorld = []) by reflexivity.
  assert (H2 : Z.of_nat (List.length (allKeys Samples.sampleWorld)) < MAX_CACHE_SIZE)
    by (apply Z.ltb_lt; vm_compute; reflexivity).
  assert (H3 : stringmatch Samples.sampleWorld (categoryPattern Samples.addInput)
                 (keyOf (newEntry Samples.sampleWorld Samples.addInput "a + b;")) = true)
    by (vm_compute; reflexivity).
  assert (H4 : (SIMILARITY_THRESHOLD
                  <? calculateSimilarity (queryOf Samples.sampleWorld Samples.addInput)
                       (queryOf Samples.sampleWorld Samples.addInput))%float = true)
    by (vm_compute; reflexivity).
  split; [exact H1 |]. split; [exact H2 |]. split; [exact H3 |]. split; [exact H4 |].
  destruct (write_then_lookup_hits Samples.addInput "a + b;" Samples.sampleWorld
              H1 H2 H3 H4) as (key & entry & R & From & _).
  exists key, entry. split; [exact R | exact From].
Defined.

(* ================================================================== *)
(** * Two writes under one key                                         *)
(* ================================================================== *)

Lemma upsert_upsert (a b : Item) (its : list Item) :
  item_key a = item_key b -> upsert b (upsert a its) = upsert b its.
Proof.
  intros K. induction its as [| x its IH]; cbn [upsert].
  - rewrite K, String.eqb_refl. reflexivity.
  - destruct (item_key x =? item_key a)%string eqn:Xa.
    + cbn [upsert]. rewrite K, String.eqb_refl.
      rewrite K in Xa. now rewrite Xa.
    + cbn [upsert]. rewrite K in Xa. rewrite Xa. now rewrite IH.
Qed.

Lemma keyOf_newEntry (w : World) (input : CodeContextInput.t) (text : string) :
  keyOf (newEntry w input text)
  = CACHE_PREFIX ++ CodeContextInput.language input ++ ":"
      ++ CodeContextInput.framework input ++ ":"
      ++ Js.show (clock w) ++ "_" ++ simpleHash (hashInput input).
Proof. reflexivity. Qed.

(** X13.  Two writes at the same clock reading whose requests have the
    same language and framework and the same hashed string (the few
    characters of the file at the offsets given by the line number, and
    the suggestion type) use the same key: the second entry replaces the
    first, and the store ends as if the first write had not happened.
    (No command fails, and there is room for two more keys.) *)
Theorem writes_under_one_key_overwrite
  (input1 input2 : CodeContextInput.t) (text1 text2 : string) (w : World) :
  faults w = [] ->
  Z.of_nat (List.length (allKeys w)) + 1 < MAX_CACHE_SIZE ->
  CodeContextInput.language input1 = CodeContextInput.language input2 ->
  CodeContextInput.framework input1 = CodeContextInput.framework input2 ->
  hashInput input1 = hashInput input2 ->
  keyOf (newEntry w input1 text1) = keyOf (newEntry w input2 text2)
  /\ items (snd (cacheSuggestion input2 text2 (snd (cacheSuggestion input1 text1 w))))
     = items (snd (cacheSuggestion input2 text2 w))
  /\ lookupItem (clock w) (keyOf (newEntry w input1 text1))
       (items (snd (cacheSuggestion input2 text2
                      (snd (cacheSuggestion input1 text1 w)))))
     = Some (Json (newEntry w input2 text2)).
Proof.
  intros NF Room L F H.
  assert (K : keyOf (newEntry w input1 text1) = keyOf (newEntry w input2 text2))
    by (rewrite !keyOf_newEntry, L, F, H; reflexivity).
  pose proof (cacheSuggestion_stores input1 text1 w NF ltac:(lia)) as I1.
  pose proof (keepsEnv_cacheSuggestion input1 text1 w) as Env.
  set (w1 := snd (cacheSuggestion input1 text1 w)) in *.
  destruct Env as (C & SM & Em & _ & _ & NF1). specialize (NF1 NF).
  pose proof (matchingKeys_upsert_length w w1 _ (CACHE_PREFIX ++ "*") C SM I1) as Len.
  fold (allKeys w1) in Len. fold (allKeys w) in Len.
  pose proof (cacheSuggestion_stores input2 text2 w1 NF1 ltac:(lia)) as I2.
  assert (N : newItem w1 input2 text2 = newItem w input2 text2).
  { unfold newItem, newEntry, queryOf, embeddingOf. now rewrite C, Em. }
  rewrite N, I1 in I2.
  rewrite upsert_upsert in I2 by exact K.
  split; [exact K |]. split.
  - rewrite I2. symmetry. apply cacheSuggestion_stores; [exact NF | lia].
  - rewrite I2, K. unfold newItem. apply lookupItem_upsert.
    apply (newItem_live w input2 text2).
Qed.

(** Two writes in the sample world for the two files that share their
    first line. *)
Lemma writes_under_one_key_overwrite_witness :
  faults Samples.sampleWorld = []
  /\ Z.of_nat (List.length (allKeys Samples.sampleWorld)) + 1 < MAX_CACHE_SIZE
  /\ hashInput Samples.inputOne = hashInput Samples.inputTwo
  /\ items (snd (cacheSuggestion Samples.inputTwo "x.pop();"
                   (snd (cacheSuggestion Samples.inputOne "return a + b;"
                           Samples.sampleWorld))))
     = items (snd (cacheSuggestion Samples.inputTwo "x.pop();" Samples.sampleWorld)).
Proof.
  assert (H1 : faults Samples.sampleWorld = []) by reflexivity.
  assert (H2 : Z.of_nat (List.length (allKeys Samples.sampleWorld)) + 1 < MAX_CACHE_SIZE)
    by (apply Z.ltb_lt; vm_compute; reflexivity).
  assert (H3 : hashInput Samples.inputOne = hashInput Samples.inputTwo)
    by (vm_compute; reflexivity).
  split; [exact H1 |]. split; [exact H2 |]. split; [exact H3 |].
  exact (proj1 (proj2 (writes_under_one_key_overwrite
                         Samples.inputOne Samples.inputTwo "return a + b;" "x.pop();"
                         Samples.sampleWorld H1 H2 eq_refl eq_refl H3))).
Defined.

(* ================================================================== *)
(** * A write into a full cache                                        *)
(* ================================================================== *)

Lemma upsert_fresh (it : Item) (its : list Item) :
  memString (item_key it) (map item_key its) = false ->
  upsert it its = (its ++ [it])%list.
Proof.
  induction its as [| x its IH]; cbn [upsert map app]; [reflexivity |].
  unfold memString. cbn [existsb]. intros H. apply orb_false_iff in H.
  destruct H as [H1 H2]. rewrite String.eqb_sym in H1. rewrite H1.
  f_equal. now apply IH.
Qed.

Lemma lookupItem_app_other (t : Z) (k : string) (its : list Item) (it : Item) :
  item_key it <> k ->
  lookupItem t k (its ++ [it]) = lookupItem t k its.
Proof.
  intros NE. unfold lookupItem.
  assert (K : (item_key it =? k)%string = false) by now apply String.eqb_neq.
  induction its as [| x its IH]; cbn [app find].
  - now rewrite K, andb_false_r.
  - destruct (live t x && (item_key x =? k)%string); [reflexivity | exact IH].
Qed.

(** The head of the sorted entries: an entry whose hit count is below
    the one of every other entry comes first. *)
Lemma sortRanked_least_first (x : Ranked) (l : list Ranked) :
  In x l ->
  (forall y, In y l -> y = x \/ r_hitCount x < r_hitCount y) ->
  exists rest, sortRanked l = x :: rest.
Proof.
  induction l as [| a l IH]; intros Hin Least; [contradiction |].
  cbn [sortRanked].
  assert (Cmp : forall y, In y (a :: l) -> (compareRanked x y <=? 0)%Z = true).
  { intros y Hy. apply Z.leb_le. destruct (Least y Hy) as [-> | Lt].
    - unfold compareRanked. rewrite Z.eqb_refl. cbn [negb]. lia.
    - unfold compareRanked.
      destruct (r_hitCount x =? r_hitCount y)%Z eqn:E;
        [apply Z.eqb_eq in E; lia | cbn [negb]; lia]. }
  destruct (in_dec (fun a b : Ranked =>
                      ltac:(decide equality; try apply Z.eq_dec; apply string_dec)
                      : {a = b} + {a <> b}) x l) as [Hl | Hl].
  - destruct (IH Hl (fun y Hy => Least y (or_intror Hy))) as (rest & E).
    rewrite E. cbn [insertRanked].
    destruct (compareRanked a x <=? 0)%Z eqn:C.
    + destruct (Least a (or_introl eq_refl)) as [-> | Lt]; [now eexists |].
      apply Z.leb_le in C. unfold compareRanked in C.
      destruct (r_hitCount a =? r_hitCount x)%Z eqn:E';
        [apply Z.eqb_eq in E'; lia | cbn [negb] in C; lia].
    + now eexists.
  - destruct Hin as [-> | Hin]; [| contradiction].
    destruct (sortRanked l) as [| y s] eqn:S; cbn [insertRanked]; [now eexists |].
    assert (Hy : In y (x :: l)).
    { right. apply (Permutation_in y (Permutation_sym (sortRanked_perm l))).
      rewrite S. now left. }
    rewrite (Cmp y Hy). now eexists.
Qed.

Lemma lookupItem_removed (t : Z) (key : string) (X : list string) (its : list Item) :
  In key X -> lookupItem t key (removeKeys X its) = None.
Proof.
  intros HX. destruct (lookupItem t key (removeKeys X its)) as [v |] eqn:L;
    [| reflexivity].
  apply lookupItem_In in L. destruct L as (it & Hit & K & _).
  exfalso. apply (removeKeys_keys X its key HX).
  apply in_map_iff. now exists it.
Qed.

Lemma readableUnder_app (w : World) (ks ks' : list string) :
  readableUnder w (ks ++ ks') = (readableUnder w ks ++ readableUnder w ks')%list.
Proof. unfold readableUnder. apply flat_map_app. Qed.

Lemma readableUnder_ext (w w1 : World) (ks : list string) :
  clock w1 = clock w ->
  (forall k, In k ks ->
     lookupItem (clock w) k (items w1) = lookupItem (clock w) k (items w)) ->
  readableUnder w1 ks = readableUnder w ks.
Proof.
  intros C Same. unfold readableUnder. rewrite C.
  induction ks as [| k ks IH]; cbn [flat_map]; [reflexivity |].
  rewrite (Same k (or_introl eq_refl)). f_equal.
  apply IH. intros k' H. apply Same. now right.
Qed.

(** X14.  A write into a full cache can delete what it has just stored.
    When the cache holds at least 1000 keys, at least 900 of its entries
    are readable and each of them has been hit at least once, a new
    suggestion, whose hit count is 0, ranks below every other entry: the
    sweep that its own write starts deletes it, and once the write
    returns the new key is not in the store.  (No command fails, Redis
    holds one value per key, the key is new, and the matcher of the
    store lets the pattern of the cache match it.) *)
Theorem full_cache_drops_the_new_entry
  (input : CodeContextInput.t) (text : string) (w : World) :
  faults w = [] ->
  uniqueKeys (map item_key (items w)) = true ->
  memString (keyOf (newEntry w input text)) (map item_key (items w)) = false ->
  stringmatch w (CACHE_PREFIX ++ "*") (keyOf (newEntry w input text)) = true ->
  MAX_CACHE_SIZE <= Z.of_nat (List.length (allKeys w)) ->
  MAX_CACHE_SIZE - 100 <= Z.of_nat (List.length (cacheEntries w)) ->
  allHit (cacheEntries w) = true ->
  fst (cacheSuggestion input text w) = Returned tt
  /\ forall t,
       lookupItem t (keyOf (newEntry w input text))
                  (items (snd (cacheSuggestion input text w))) = None.
Proof.
  intros NF Unique Fresh Match Full Readable Hits.
  set (e := newEntry w input text) in *. set (key := keyOf e) in *.
  destruct (cacheSuggestion_fault_free input text w NF) as (w1 & E & NF1 & C & SM & I).
  rewrite E. split; [apply cleanupOldEntries_returns |].
  assert (I' : items w1 = (items w ++ [newItem w input text])%list).
  { rewrite I. now apply upsert_fresh. }
  assert (NotIn : forall k, In k (map item_key (items w)) -> k <> key).
  { intros k Hk ->. apply memString_false in Fresh. contradiction. }
  assert (Keys : allKeys w1 = (allKeys w ++ [key])%list).
  { unfold allKeys, matchingKeys. rewrite C, SM, I', filter_app, map_app.
    f_equal. cbn [filter]. fold e. fold key.
    assert (Lv : live (clock w) (newItem w input text) = true)
      by (apply Z.ltb_lt, newItem_live).
    rewrite Lv. cbn [item_key newItem]. fold e. fold key. rewrite Match.
    reflexivity. }
  assert (KeysIn : forall k, In k (allKeys w) -> In k (map item_key (items w))).
  { intros k Hk. apply matchingKeys_In in Hk. destruct Hk as (it & Hit & K & _).
    apply in_map_iff. now exists it. }
  assert (Entries : cacheEntries w1 = (cacheEntries w ++ [(key, e)])%list).
  { unfold cacheEntries. rewrite Keys, readableUnder_app. f_equal.
    - apply readableUnder_ext; [exact C |].
      intros k Hk. rewrite I'. apply lookupItem_app_other.
      intros K. apply (NotIn k (KeysIn k Hk)). now rewrite <- K.
    - unfold readableUnder. cbn [flat_map]. rewrite C, I.
      unfold newItem. fold e. fold key.
      rewrite lookupItem_upsert by apply (newItem_live w input text).
      reflexivity. }
  assert (ND : NoDup (allKeys w1)).
  { unfold allKeys, matchingKeys. apply item_keys_filter_unique.
    rewrite I', map_app. cbn [map item_key newItem]. fold e. fold key.
    apply uniqueKeys_NoDup in Unique.
    apply NoDup_app; [exact Unique | constructor; [intros [] | constructor] |].
    intros k Hk [Hq | []]. apply (NotIn k Hk). now symmetry. }
  assert (Big : MAX_CACHE_SIZE < Z.of_nat (List.length (allKeys w1)))
    by (rewrite Keys, length_app; cbn [List.length]; lia).
  destruct (cleanupOldEntries_removes w1 NF1 ND Big) as (_ & _ & I2).
  intros t. rewrite I2. apply lookupItem_removed. apply in_or_app. right.
  rewrite Entries.
  set (entries := map toRanked (cacheEntries w ++ [(key, e)])).
  assert (Len : Z.of_nat (List.length entries)
                = Z.of_nat (List.length (cacheEntries w)) + 1).
  { unfold entries. rewrite length_map, length_app. cbn [List.length]. lia. }
  rewrite evicted_firstn by lia.
  destruct (sortRanked_least_first (toRanked (key, e)) entries) as (rest & S).
  - unfold entries. apply in_map. apply in_or_app. right. now left.
  - intros y Hy. unfold entries in Hy. apply in_map_iff in Hy.
    destruct Hy as ([k' e'] & <- & Hp). apply in_app_or in Hp.
    destruct Hp as [Hp | [Hp | []]].
    + right. unfold allHit in Hits. rewrite forallb_forall in Hits.
      specialize (Hits _ Hp). apply Z.leb_le in Hits. cbn in *. lia.
    + left. now rewrite Hp.
  - rewrite S.
    destruct (Z.to_nat (Z.of_nat (List.length entries) - (MAX_CACHE_SIZE - 100)))
      as [| n] eqn:N; [lia |].
    cbn [firstn map]. now left.
Qed.

(** The write of the sample request into the full cache. *)
Lemma full_cache_drops_the_new_entry_witness :
  faults MoreSamples.busyWorld = []
  /\ MAX_CACHE_SIZE <= Z.of_nat (List.length (allKeys MoreSamples.busyWorld))
  /\ allHit (cacheEntries MoreSamples.busyWorld) = true
  /\ lookupItem (clock MoreSamples.busyWorld)
       (keyOf (newEntry MoreSamples.busyWorld Samples.addInput "a + b;"))
       (items (snd (cacheSuggestion Samples.addInput "a + b;" MoreSamples.busyWorld)))
     = None.
Proof.
  assert (H1 : faults MoreSamples.busyWorld = []) by reflexivity.
  assert (H2 : uniqueKeys (map item_key (items MoreSamples.busyWorld)) = true)
    by (vm_compute; reflexivity).
  assert (H3 : memString (keyOf (newEntry MoreSamples.busyWorld Samples.addInput "a + b;"))
                 (map item_key (items MoreSamples.busyWorld)) = false)
    by (vm_compute; reflexivity).
  assert (H4 : stringmatch MoreSamples.busyWorld (CACHE_PREFIX ++ "*")
                 (keyOf (newEntry MoreSamples.busyWorld Samples.addInput "a + b;")) = true)
    by (vm_compute; reflexivity).
  assert (H5 : MAX_CACHE_SIZE <= Z.of_nat (List.length (allKeys MoreSamples.busyWorld)))
    by (apply Z.leb_le; vm_compute; reflexivity).
  assert (H6 : MAX_CACHE_SIZE - 100
               <= Z.of_nat (List.length (cacheEntries MoreSamples.busyWorld)))
    by (apply Z.leb_le; vm_compute; reflexivity).
  assert (H7 : allHit (cacheEntries MoreSamples.busyWorld) = true)
    by (vm_compute; reflexivity).
  split; [exact H1 |]. split; [exact H5 |]. split; [exact H7 |].
  exact (proj2 (full_cache_drops_the_new_entry Samples.addInput "a + b;"
                  MoreSamples.busyWorld H1 H2 H3 H4 H5 H6 H7)
               (clock MoreSamples.busyWorld)).
Defined.

(* ================================================================== *)
(** * Lines                                                            *)
(* ================================================================== *)

Lemma split_lines_nonempty (s : string) : Js.split_lines s <> [].
Proof.
  destruct s as [| c s]; cbn; [discriminate |].
  destruct (Ascii.eqb c "010"%char); [discriminate |].
  destruct (Js.split_lines s); discriminate.
Qed.

Lemma split_lines_oneLine (l : string) :
  oneLine l = true -> Js.split_lines l = [l].
Proof.
  induction l as [| c l IH]; cbn [oneLine Js.split_lines]; [reflexivity |].
  intros H. apply andb_true_iff in H. destruct H as [H1 H2].
  apply negb_true_iff in H1. rewrite H1, (IH H2). reflexivity.
Qed.

Lemma split_lines_cons (l rest : string) :
  oneLine l = true ->
  Js.split_lines (l ++ Text.nl ++ rest) = l :: Js.split_lines rest.
Proof.
  induction l as [| c l IH]; cbn [oneLine append Js.split_lines].
  - intros _. reflexivity.
  - intros H. apply andb_true_iff in H. destruct H as [H1 H2].
    apply negb_true_iff in H1. rewrite H1. cbn [append] in IH.
    now rewrite (IH H2).
Qed.

Lemma join_lines_cons (l : string) (ls : list string) :
  ls <> [] -> Js.join_lines (l :: ls) = l ++ Text.nl ++ Js.join_lines ls.
Proof. destruct ls; [contradiction | reflexivity]. Qed.

(** Splitting what was joined gives the lines back. *)
Lemma split_join_lines (ls : list string) :
  ls <> [] -> forallb oneLine ls = true ->
  Js.split_lines (Js.join_lines ls) = ls.
Proof.
  induction ls as [| l ls IH]; [contradiction |].
  intros _ H. cbn [forallb] in H. apply andb_true_iff in H. destruct H as [H1 H2].
  destruct ls as [| l' ls'].
  - cbn [Js.join_lines String.concat]. now apply split_lines_oneLine.
  - rewrite join_lines_cons by discriminate.
    rewrite split_lines_cons by exact H1.
    f_equal. apply IH; [discriminate | exact H2].
Qed.

(** The lines of a split have no line break. *)
Lemma split_lines_oneLines (s : string) : forallb oneLine (Js.split_lines s) = true.
Proof.
  induction s as [| c s IH]; cbn [Js.split_lines]; [reflexivity |].
  destruct (Ascii.eqb c "010"%char) eqn:E; [exact IH |].
  destruct (Js.split_lines s) as [| l ls]; cbn [forallb oneLine] in *.
  - now rewrite E.
  - rewrite E. exact IH.
Qed.


(* ================================================================== *)
(** * The detection of the language and of the framework               *)
(* ================================================================== *)

Lemma split_noDot (ext : string) :
  noDot ext = true -> Text.split "."%char ext = [ext].
Proof.
  induction ext as [| c ext IH]; cbn [noDot Text.split]; [reflexivity |].
  intros H. apply andb_true_iff in H. destruct H as [H1 H2].
  apply negb_true_iff in H1. rewrite H1, (IH H2). reflexivity.
Qed.

(** The last field of a name is what follows its last dot. *)
Lemma split_last_field (base ext : string) :
  noDot ext = true ->
  exists l ls,
    Text.split "."%char (base ++ "." ++ ext) = l :: ls
    /\ ls <> [] /\ List.last (l :: ls) "" = ext.
Proof.
  intros N. induction base as [| c base IH].
  - cbn [append Text.split]. rewrite Ascii.eqb_refl, (split_noDot ext N).
    exists "", [ext]. repeat split. discriminate.
  - destruct IH as (l & ls & E & NE & L).
    cbn [append Text.split]. cbn [append] in E. rewrite E.
    destruct (Ascii.eqb c "."%char).
    + exists "", (l :: ls). repeat split; [discriminate | exact L].
    + exists (String c l), ls. repeat split; [exact NE |].
      destruct ls as [| l' ls']; [contradiction | exact L].
Qed.

Lemma extensionOf_after_dot (base ext : string) :
  noDot ext = true ->
  CodeAnalysis.extensionOf (base ++ "." ++ ext) = Text.toLowerCase ext.
Proof.
  intros N. unfold CodeAnalysis.extensionOf.
  destruct (split_last_field base ext N) as (l & ls & E & _ & L).
  now rewrite E, L.
Qed.

Lemma ownProperty_extMap (ext language : string) :
  CodeAnalysis.ownProperty ext CodeAnalysis.extMap = Some language ->
  In language languageNames /\ ext <> "".
Proof.
  unfold CodeAnalysis.extMap. cbn [CodeAnalysis.ownProperty].
  repeat match goal with
         | |- context [(?k =? ext)%string] =>
             destruct (String.eqb_spec k ext) as [<- | _];
             [intros [= <-]; split; [cbn; tauto | discriminate] |]
         end.
  discriminate.
Qed.

(** X15.  The extension of the file name decides the language, whatever
    the content: for a name that ends with a dot and an extension of the
    table (ts, tsx, js, jsx, py, java, go, rs, php), in any mix of upper
    and lower case, the language is the one of the table. *)
Theorem detectLanguage_by_extension (content base ext language : string) :
  noDot ext = true ->
  CodeAnalysis.ownProperty (Text.toLowerCase ext) CodeAnalysis.extMap = Some language ->
  CodeAnalysis.detectLanguage content (Some (base ++ "." ++ ext))
  = CodeAnalysis.Language language.
Proof.
  intros N Own. unfold CodeAnalysis.detectLanguage.
  assert (T : Js.truthy (base ++ "." ++ ext) = true)
    by (destruct base; reflexivity).
  rewrite T, (extensionOf_after_dot base ext N), Own.
  destruct (ownProperty_extMap _ _ Own) as [_ NE].
  destruct (Text.toLowerCase ext); [contradiction | reflexivity].
Qed.

Lemma detectLanguage_by_extension_witness :
  noDot "TSX" = true
  /\ CodeAnalysis.ownProperty (Text.toLowerCase "TSX") CodeAnalysis.extMap
     = Some "TypeScript"
  /\ CodeAnalysis.detectLanguage "def main(): pass" (Some ("src/App.view" ++ "." ++ "TSX"))
     = CodeAnalysis.Language "TypeScript".
Proof.
  split; [reflexivity |]. split; [reflexivity |].
  apply (detectLanguage_by_extension "def main(): pass" "src/App.view" "TSX" "TypeScript");
    reflexivity.
Defined.

Lemma languageOfContent_range (content : string) :
  In (CodeAnalysis.languageOfContent content)
     ["TypeScript"; "JavaScript"; "Python"; "Go"].
Proof.
  unfold CodeAnalysis.languageOfContent.
  repeat match goal with
         | |- context [if ?c then _ else _] => destruct c
         end; cbn; tauto.
Qed.

(** X16.  What [detectLanguage] can return.  Without a file name the
    language comes from the content and is TypeScript, JavaScript,
    Python or Go.  With a file name it is one of these or Java, Rust or
    PHP; except that for the extensions "constructor" and "__proto__",
    which every object inherits, the value returned is not a language
    name at all. *)
Theorem detectLanguage_range (content : string) (fileName : option string) :
  match CodeAnalysis.detectLanguage content fileName with
  | CodeAnalysis.Language l =>
      In l languageNames
      /\ (fileName = None -> In l ["TypeScript"; "JavaScript"; "Python"; "Go"])
  | CodeAnalysis.Inherited p =>
      (p = "constructor" \/ p = "__proto__")
      /\ exists name, fileName = Some name /\ CodeAnalysis.extensionOf name = p
  end.
Proof.
  pose proof (languageOfContent_range content) as R.
  assert (R' : In (CodeAnalysis.languageOfContent content) languageNames)
    by (cbn in *; tauto).
  unfold CodeAnalysis.detectLanguage.
  destruct fileName as [name |]; [| now split].
  destruct (Js.truthy name); [| split; [exact R' | discriminate]].
  destruct (Js.truthy (CodeAnalysis.extensionOf name));
    [| split; [exact R' | discriminate]].
  destruct (CodeAnalysis.ownProperty _ _) as [l |] eqn:Own.
  - split; [apply (ownProperty_extMap _ _ Own) | discriminate].
  - destruct (CodeAnalysis.inheritedProperty _) eqn:Inh.
    + split; [| now exists name].
      unfold CodeAnalysis.inheritedProperty in Inh. apply orb_true_iff in Inh.
      destruct Inh as [H | H]; apply String.eqb_eq in H; auto.
    + split; [exact R' | discriminate].
Qed.

(** The extension "constructor" in any directory. *)
Example detectLanguage_inherited_sample (content base : string) :
  CodeAnalysis.detectLanguage content (Some (base ++ "." ++ "constructor"))
  = CodeAnalysis.Inherited "constructor".
Proof.
  unfold CodeAnalysis.detectLanguage.
  assert (T : Js.truthy (base ++ "." ++ "constructor") = true)
    by (destruct base; reflexivity).
  rewrite T, (extensionOf_after_dot base "constructor" eq_refl). reflexivity.
Qed.

(* ================================================================== *)
(** * The imports of a prompt and of a suggestion                      *)
(* ================================================================== *)


Section Dedupe.

Import CodeAnalysis.

Lemma dedupeLines_In (lines : list string) :
  forall seen l, In l (dedupeLines lines seen) -> In l lines.
Proof.
  induction lines as [| x lines IH]; intros seen l; cbn [dedupeLines]; [tauto |].
  destruct (Text.startsWith (Js.trim x) "import ").
  - destruct (memString (Js.trim x) seen).
    + intros H. right. exact (IH _ _ H).
    + intros [H | H]; [now left | right; exact (IH _ _ H)].
  - intros [H | H]; [now left | right; exact (IH _ _ H)].
Qed.

Lemma dedupeLines_spec (lines : list string) :
  forall seen,
    NoDup (map Js.trim (filter isImport (dedupeLines lines seen)))
    /\ (forall l, In l (dedupeLines lines seen) -> isImport l = true ->
          ~ In (Js.trim l) seen)
    /\ filter (fun l => negb (isImport l)) (dedupeLines lines seen)
       = filter (fun l => negb (isImport l)) lines
    /\ (forall l, In l lines -> isImport l = true ->
          In (Js.trim l) seen
          \/ In (Js.trim l) (map Js.trim (filter isImport (dedupeLines lines seen)))).
Proof.
  induction lines as [| x lines IH]; intros seen; cbn [dedupeLines].
  - cbn. repeat split; try constructor; tauto.
  - fold (isImport x). destruct (isImport x) eqn:Imp.
    + destruct (memString (Js.trim x) seen) eqn:Seen.
      * destruct (IH seen) as (ND & Out & Keep & All).
        split; [exact ND |]. split; [exact Out |].
        split; [cbn [filter]; rewrite Imp; exact Keep |].
        intros l [<- | Hl] Hi; [| now apply All].
        left. now apply memString_In.
      * destruct (IH (Js.trim x :: seen)) as (ND & Out & Keep & All).
        cbn [filter map]. rewrite Imp. cbn [negb map].
        split; [| split; [| split]].
        -- constructor; [| exact ND].
           intros Hin. apply in_map_iff in Hin. destruct Hin as (l & E & Hl).
           apply filter_In in Hl. destruct Hl as [Hl Hi].
           apply (Out l Hl Hi). left. now symmetry.
        -- intros l [<- | Hl] Hi.
           ++ now apply memString_false.
           ++ intros Hs. apply (Out l Hl Hi). now right.
        -- exact Keep.
        -- intros l [<- | Hl] Hi; [right; now left |].
           destruct (All l Hl Hi) as [[H | H] | H].
           ++ right. left. exact H.
           ++ now left.
           ++ right. right. exact H.
    + destruct (IH seen) as (ND & Out & Keep & All).
      cbn [filter]. rewrite Imp. cbn [negb].
      split; [exact ND |]. split; [| split].
      * intros l [<- | Hl] Hi; [congruence | now apply Out].
      * now rewrite Keep.
      * intros l [<- | Hl] Hi; [congruence | now apply All].
Qed.

(** Lines without a duplicate import are left as they are. *)
Lemma dedupeLines_fixed (lines : list string) :
  forall seen,
    NoDup (map Js.trim (filter isImport lines)) ->
    (forall l, In l lines -> isImport l = true -> ~ In (Js.trim l) seen) ->
    dedupeLines lines seen = lines.
Proof.
  induction lines as [| x lines IH]; intros seen ND Out; cbn [dedupeLines];
    [reflexivity |].
  fold (isImport x). cbn [filter] in ND. destruct (isImport x) eqn:Imp.
  - cbn [map] in ND. inversion ND as [| ? ? Hn Hd]; subst.
    assert (S : memString (Js.trim x) seen = false).
    { apply memString_false. apply Out; [now left | exact Imp]. }
    rewrite S. f_equal. apply IH; [exact Hd |].
    intros l Hl Hi [H | H].
    + apply Hn. rewrite H. apply in_map. apply filter_In. now split.
    + apply (Out l (or_intror Hl) Hi H).
  - f_equal. apply IH; [exact ND |].
    intros l Hl Hi. apply Out; [now right | exact Hi].
Qed.

Lemma dedupeLines_nonempty (lines : list string) :
  lines <> [] -> dedupeLines lines [] <> [].
Proof.
  destruct lines as [| x lines]; [contradiction |]. intros _.
  cbn [dedupeLines memString existsb].
  destruct (Text.startsWith (Js.trim x) "import "); discriminate.
Qed.

Lemma dedupeImports_lines (suggestion : string) :
  Js.split_lines (dedupeImports suggestion)
  = dedupeLines (Js.split_lines suggestion) [].
Proof.
  unfold dedupeImports. apply split_join_lines.
  - apply dedupeLines_nonempty, split_lines_nonempty.
  - apply forallb_forall. intros l Hl. apply dedupeLines_In in Hl.
    pose proof (split_lines_oneLines suggestion) as A.
    rewrite forallb_forall in A. now apply A.
Qed.

End Dedupe.

(** X18.  The removal of duplicate imports from a suggestion.  Among the
    lines that remain no two import lines have the same text once
    trimmed; every line that is not an import remains, in its place; and
    every import of the suggestion is still there, once. *)
Theorem dedupeImports_keeps_one_of_each (suggestion : string) :
  NoDup (map Js.trim
           (filter isImport (Js.split_lines (CodeAnalysis.dedupeImports suggestion))))
  /\ filter (fun l => negb (isImport l))
            (Js.split_lines (CodeAnalysis.dedupeImports suggestion))
     = filter (fun l => negb (isImport l)) (Js.split_lines suggestion)
  /\ (forall l, In l (Js.split_lines suggestion) -> isImport l = true ->
        In (Js.trim l)
           (map Js.trim
              (filter isImport
                 (Js.split_lines (CodeAnalysis.dedupeImports suggestion)))))
  /\ (forall l, In l (Js.split_lines (CodeAnalysis.dedupeImports suggestion)) ->
        In l (Js.split_lines suggestion)).
Proof.
  rewrite dedupeImports_lines.
  destruct (dedupeLines_spec (Js.split_lines suggestion) []) as (ND & _ & Keep & All).
  split; [exact ND |]. split; [exact Keep |]. split.
  - intros l Hl Hi. destruct (All l Hl Hi) as [[] | H]. exact H.
  - intros l. apply dedupeLines_In.
Qed.

(** X19.  Removing the duplicate imports twice is the same as removing
    them once. *)
Theorem dedupeImports_idempotent (suggestion : string) :
  CodeAnalysis.dedupeImports (CodeAnalysis.dedupeImports suggestion)
  = CodeAnalysis.dedupeImports suggestion.
Proof.
  unfold CodeAnalysis.dedupeImports at 1. rewrite dedupeImports_lines.
  destruct (dedupeLines_spec (Js.split_lines suggestion) []) as (ND & Out & _ & _).
  rewrite dedupeLines_fixed; [reflexivity | exact ND |].
  intros l _ _ [].
Qed.

(* ================================================================== *)
(** * The context of a prompt                                          *)
(* ================================================================== *)

(** X20.  The context [analyzeCodeContext] cuts out of the file for a
    cursor on one of its lines: before the cursor the up to ten lines
    that precede its line, after the cursor the lines that follow its
    line up to, but not including, the tenth one, so at most nine.  The
    line of the cursor is in neither. *)
Theorem analyzeCodeContext_window
  (content : string) (line column : Z) (fileName : option string) :
  0 <= line < Z.of_nat (List.length (Js.split_lines content)) ->
  exists before after,
    CodeAnalysis.beforeContext
      (CodeAnalysis.analyzeCodeContext content line column fileName)
    = Js.join_lines before
    /\ CodeAnalysis.afterContext
         (CodeAnalysis.analyzeCodeContext content line column fileName)
       = Js.join_lines after
    /\ nth_error (Js.split_lines content) (Z.to_nat line)
       = Some (CodeAnalysis.currentLine
                 (CodeAnalysis.analyzeCodeContext content line column fileName))
    /\ Z.of_nat (List.length before) = Z.min line 10
    /\ Z.of_nat (List.length after)
       = Z.min (Z.of_nat (List.length (Js.split_lines content)) - line - 1) 9
    /\ (forall i : nat,
          nth_error before i
          = if (Z.of_nat i <? Z.min line 10)%Z
            then nth_error (Js.split_lines content)
                           (Z.to_nat (Z.max 0 (line - 10)) + i)
            else None)
    /\ (forall i : nat,
          nth_error after i
          = if (Z.of_nat i
                <? Z.min (Z.of_nat (List.length (Js.split_lines content)) - line - 1) 9)%Z
            then nth_error (Js.split_lines content) (Z.to_nat (line + 1) + i)
            else None).
Proof.
  intros In. unfold CodeAnalysis.analyzeCodeContext, CodeAnalysis.contextRadius.
  cbn [CodeAnalysis.beforeContext CodeAnalysis.afterContext CodeAnalysis.currentLine].
  set (lines := Js.split_lines content) in *.
  set (n := Z.of_nat (List.length lines)) in *.
  destruct (nth_error lines (Z.to_nat line)) as [l |] eqn:N.
  2:{ apply nth_error_None in N. lia. }
  exists (Js.slice (Z.max 0 (line - 10)) line lines),
         (Js.slice (line + 1) (Z.min n (line + 10)) lines).
  split; [reflexivity |]. split; [reflexivity |].
  split.
  { unfold Js.index. destruct (line <? 0)%Z eqn:C; [apply Z.ltb_lt in C; lia |].
    now rewrite N. }
  assert (L1 : forall i : nat,
             nth_error (Js.slice (Z.max 0 (line - 10)) line lines) i
             = if (Z.of_nat i <? line - Z.max 0 (line - 10))%Z
               then nth_error lines (Z.to_nat (Z.max 0 (line - 10)) + i) else None)
    by (intros i; apply slice_nth_error; unfold n in *; lia).
  assert (L2 : forall i : nat,
             nth_error (Js.slice (line + 1) (Z.min n (line + 10)) lines) i
             = if (Z.of_nat i <? Z.min n (line + 10) - (line + 1))%Z
               then nth_error lines (Z.to_nat (line + 1) + i) else None)
    by (intros i; apply slice_nth_error; unfold n in *; lia).
  replace (line - Z.max 0 (line - 10)) with (Z.min line 10) in L1 by lia.
  replace (Z.min n (line + 10) - (line + 1)) with (Z.min (n - line - 1) 9) in L2 by lia.
  split; [| split; [| split; [exact L1 | exact L2]]].
  - unfold Js.slice, Js.rel_index.
    destruct (Z.max 0 (line - 10) <? 0)%Z eqn:A; [apply Z.ltb_lt in A; lia |].
    destruct (line <? 0)%Z eqn:B; [apply Z.ltb_lt in B; lia |].
    fold n. rewrite !Z.min_l by lia.
    rewrite length_firstn, length_skipn. unfold n in *. lia.
  - unfold Js.slice, Js.rel_index.
    destruct (line + 1 <? 0)%Z eqn:A; [apply Z.ltb_lt in A; lia |].
    destruct (Z.min n (line + 10) <? 0)%Z eqn:B; [apply Z.ltb_lt in B; lia |].
    fold n. rewrite (Z.min_l (line + 1)) by lia.
    rewrite (Z.min_l (Z.min n (line + 10))) by lia.
    rewrite length_firstn, length_skipn. unfold n in *. lia.
Qed.

Lemma analyzeCodeContext_window_witness :
  0 <= 5 < Z.of_nat (List.length (Js.split_lines Samples.twelveLines))
  /\ exists before after,
       CodeAnalysis.beforeContext
         (CodeAnalysis.analyzeCodeContext Samples.twelveLines 5 0 None)
       = Js.join_lines before
       /\ CodeAnalysis.afterContext
            (CodeAnalysis.analyzeCodeContext Samples.twelveLines 5 0 None)
          = Js.join_lines after
       /\ Z.of_nat (List.length before) = 5
       /\ Z.of_nat (List.length after) = 6.
Proof.
  assert (H : 0 <= 5 < Z.of_nat (List.length (Js.split_lines Samples.twelveLines)))
    by (vm_compute; split; [discriminate | reflexivity]).
  split; [exact H |].
  destruct (analyzeCodeContext_window Samples.twelveLines 5 0 None H)
    as (before & after & B & A & _ & LB & LA & _).
  exists before, after. split; [exact B |]. split; [exact A |].
  split; [exact LB | exact LA].
Defined.

(** X21.  The prompt depends on the context only through the language,
    the framework, the lines before the cursor, the current line, the
    column and the comment flag.  The lines after the cursor, the rest
    of the current line, the line number, the other flags and the
    suggestion type never reach it. *)
Theorem buildPrompt_ignores_what_follows
  (c1 c2 : CodeAnalysis.Context) (type1 type2 : string) :
  CodeAnalysis.language c1 = CodeAnalysis.language c2 ->
  CodeAnalysis.framework c1 = CodeAnalysis.framework c2 ->
  CodeAnalysis.beforeContext c1 = CodeAnalysis.beforeContext c2 ->
  CodeAnalysis.currentLine c1 = CodeAnalysis.currentLine c2 ->
  CodeAnalysis.cursorColumn c1 = CodeAnalysis.cursorColumn c2 ->
  CodeAnalysis.isAfterComment c1 = CodeAnalysis.isAfterComment c2 ->
  CodeAnalysis.buildPrompt c1 type1 = CodeAnalysis.buildPrompt c2 type2.
Proof.
  destruct c1 as [l1 f1 b1 cl1 a1 ln1 col1 fn1 cs1 ac1 ip1].
  destruct c2 as [l2 f2 b2 cl2 a2 ln2 col2 fn2 cs2 ac2 ip2].
  cbn. intros -> -> -> -> -> ->.
  unfold CodeAnalysis.buildPrompt, CodeAnalysis.extractFunctionContext. cbn.
  repeat match goal with
         | |- context [if ?c then _ else _] => destruct c
         end; reflexivity.
Qed.

Lemma buildPrompt_ignores_what_follows_witness :
  CodeAnalysis.buildPrompt
    (CodeAnalysis.analyzeCodeContext
       (Js.join_lines ["const a = 1;"; "const b = "; "console.log(a);"]) 1 10
       (Some "x.js")) "completion"
  = CodeAnalysis.buildPrompt
      (CodeAnalysis.analyzeCodeContext
         (Js.join_lines ["const a = 1;"; "const b = "; "return 0;"; "}"]) 1 10
         (Some "x.js")) "refactor".
Proof.
  apply buildPrompt_ignores_what_follows; reflexivity.
Defined.

(* ================================================================== *)
(** * The patterns                                                     *)
(* ================================================================== *)

Section Patterns.

Import Regex.

Lemma append_eq_nil (s t : string) : s ++ t = "" -> s = "" /\ t = "".
Proof. destruct s; cbn; [auto | discriminate]. Qed.

Lemma nullable_Matches (r : Re) : nullable r = true -> Matches r "".
Proof.
  induction r as [| | p | a IHa b IHb | a IHa b IHb | a IHa]; cbn [nullable];
    intros H; try discriminate.
  - constructor.
  - apply andb_true_iff in H. destruct H as [Ha Hb].
    exact (MSeq a b "" "" (IHa Ha) (IHb Hb)).
  - apply orb_true_iff in H. destruct H as [H | H];
      [apply MAltL; auto | apply MAltR; auto].
  - constructor.
Qed.

Lemma Matches_nullable (r : Re) (s : string) :
  Matches r s -> s = "" -> nullable r = true.
Proof.
  induction 1 as [| p c Hp | a b s t _ IHa _ IHb | a b s _ IH | a b s _ IH
                  | a | a s t _ _ _ _]; intros E; cbn [nullable]; try reflexivity.
  - discriminate.
  - apply append_eq_nil in E. destruct E as [-> ->].
    now rewrite IHa, IHb.
  - now rewrite IH.
  - rewrite IH by exact E. apply orb_true_r.
Qed.

Lemma deriv_sound (r : Re) :
  forall (c : ascii) (s : string), Matches (deriv c r) s -> Matches r (String c s).
Proof.
  induction r as [| | p | a IHa b IHb | a IHa b IHb | a IHa]; intros c s H;
    cbn [deriv] in H.
  - inversion H.
  - inversion H.
  - destruct (p c) eqn:P; inversion H; subst. now constructor.
  - destruct (nullable a) eqn:N.
    + inversion H as [| | | ? ? ? H1 | ? ? ? H1 | |]; subst.
      * inversion H1 as [| | ? ? s1 s2 Ha Hb | | | |]; subst.
        exact (MSeq a b (String c s1) s2 (IHa _ _ Ha) Hb).
      * exact (MSeq a b "" (String c s) (nullable_Matches a N) (IHb _ _ H1)).
    + inversion H as [| | ? ? s1 s2 Ha Hb | | | |]; subst.
      exact (MSeq a b (String c s1) s2 (IHa _ _ Ha) Hb).
  - inversion H as [| | | ? ? ? H1 | ? ? ? H1 | |]; subst;
      [apply MAltL | apply MAltR]; auto.
  - inversion H as [| | ? ? s1 s2 Ha Hb | | | |]; subst.
    exact (MStarApp a (String c s1) s2 (IHa _ _ Ha) Hb).
Qed.

Lemma deriv_complete (r : Re) (s0 : string) :
  Matches r s0 ->
  forall (c : ascii) (s : string), s0 = String c s -> Matches (deriv c r) s.
Proof.
  induction 1 as [| p c' Hp | a b s1 s2 Ha IHa Hb IHb | a b s1 Ha IH | a b s1 Hb IH
                  | a | a s1 s2 Ha IHa Hs IHs]; intros c s E; cbn [deriv].
  - discriminate.
  - injection E as -> <-. rewrite Hp. constructor.
  - destruct s1 as [| c1 s1'].
    + cbn [append] in E. rewrite (Matches_nullable a "" Ha eq_refl).
      apply MAltR. exact (IHb c s E).
    + cbn [append] in E. injection E as -> <-.
      pose proof (MSeq (deriv c a) b s1' s2 (IHa c s1' eq_refl) Hb) as M.
      destruct (nullable a); [now apply MAltL | exact M].
  - apply MAltL. exact (IH c s E).
  - apply MAltR. exact (IH c s E).
  - discriminate.
  - destruct s1 as [| c1 s1'].
    + cbn [append] in E. exact (IHs c s E).
    + cbn [append] in E. injection E as -> <-.
      exact (MSeq (deriv c a) (Star a) s1' s2 (IHa c s1' eq_refl) Hs).
Qed.

(** The matcher decides the language of the expression. *)
Lemma matchesAll_Matches (s : string) :
  forall r : Re, matchesAll r s = true <-> Matches r s.
Proof.
  induction s as [| c s IH]; intros r; cbn [matchesAll].
  - split; [apply nullable_Matches | intros H; exact (Matches_nullable r "" H eq_refl)].
  - rewrite IH. split; [apply deriv_sound |].
    intros H. exact (deriv_complete r _ H c s eq_refl).
Qed.

Lemma Matches_lit (p s : string) : Matches (lit p) s <-> s = p.
Proof.
  revert s. induction p as [| c p IH]; intros s; cbn [lit].
  - split; [intros H; now inversion H | intros ->; constructor].
  - split.
    + intros H. inversion H as [| | ? ? s1 s2 Ha Hb | | | |]; subst.
      inversion Ha as [| ? c' Hc | | | | |]; subst.
      apply Ascii.eqb_eq in Hc. subst c'. apply IH in Hb. now subst.
    + intros ->. apply (MSeq _ _ (String c "") p).
      * constructor. apply Ascii.eqb_refl.
      * now apply IH.
Qed.

Lemma Matches_star_class (q : ascii -> bool) (s : string) :
  Matches (Star (Class q)) s <-> allChars q s = true.
Proof.
  split.
  - remember (Star (Class q)) as r eqn:R. intros H. revert R.
    induction H as [| | | | | a | a s1 s2 Ha _ Hs IHs]; intros R; try discriminate.
    + reflexivity.
    + injection R as ->. inversion Ha as [| ? c Hc | | | | |]; subst.
      cbn [append allChars]. rewrite Hc. now apply IHs.
  - induction s as [| c s IH]; cbn [allChars]; intros H; [constructor |].
    apply andb_true_iff in H. destruct H as [Hc Hs].
    apply (MStarApp (Class q) (String c "") s); [now constructor | now apply IH].
Qed.

(** A marker followed by anything up to the end of the line. *)
Lemma Matches_marker_to_end (marker t : string) :
  Matches (Seq (lit marker) (Star dot)) t
  <-> exists post, t = marker ++ post /\ allChars notTerminator post = true.
Proof.
  split.
  - intros H. inversion H as [| | ? ? s1 s2 Ha Hb | | | |]; subst.
    apply Matches_lit in Ha. subst s1. exists s2. split; [reflexivity |].
    now apply (Matches_star_class (fun c => negb (isLineTerminator c))).
  - intros (post & -> & A). apply MSeq; [now apply Matches_lit |].
    now apply (Matches_star_class (fun c => negb (isLineTerminator c))).
Qed.

(** A search up to the end of the text finds a suffix that matches. *)
Lemma search_to_end (r : Re) (s : string) :
  search (mkPattern false r true) s = true
  <-> exists pre t, s = pre ++ t /\ Matches r t.
Proof.
  induction s as [| c s IH]; cbn [search matchesHere toEnd body].
  - rewrite orb_false_r. split.
    + intros H. exists "", "". split; [reflexivity |].
      now apply (matchesAll_Matches "" r).
    + intros (pre & t & E & M). symmetry in E. apply append_eq_nil in E.
      destruct E as [_ ->]. now apply (matchesAll_Matches "" r).
  - rewrite orb_true_iff, IH. split.
    + intros [H | (pre & t & -> & M)].
      * exists "", (String c s). split; [reflexivity |].
        now apply (matchesAll_Matches (String c s) r).
      * exists (String c pre), t. now split.
    + intros (pre & t & E & M). destruct pre as [| c' pre].
      * left. cbn [append] in E. subst t.
        now apply (matchesAll_Matches (String c s) r).
      * right. cbn [append] in E. injection E as -> ->. now exists pre, t.
Qed.

End Patterns.

(** X22.  The position of the cursor counts as being after a comment
    exactly when the text of its line before the cursor contains two
    slashes or a hash sign with no line terminator between that marker
    and the cursor.  Any hash sign will do, wherever it is. *)
Theorem detectAfterComment_markers (line : string) (column : Z) :
  CodeAnalysis.detectAfterComment line column = true
  <-> exists pre marker post,
        Js.substring 0 column line = pre ++ marker ++ post
        /\ (marker = "//" \/ marker = "#")
        /\ allChars notTerminator post = true.
Proof.
  unfold CodeAnalysis.detectAfterComment, Regex.test,
    CodeAnalysis.slashCommentPattern, CodeAnalysis.hashCommentPattern.
  cbn [Regex.fromStart].
  rewrite orb_true_iff, !search_to_end. split.
  - intros [(pre & t & E & M) | (pre & t & E & M)];
      apply Matches_marker_to_end in M; destruct M as (post & -> & A).
    + exists pre, "//", post. auto.
    + exists pre, "#", post. auto.
  - intros (pre & marker & post & E & [-> | ->] & A).
    + left. exists pre, ("//" ++ post). split; [exact E |].
      apply Matches_marker_to_end. now exists post.
    + right. exists pre, ("#" ++ post). split; [exact E |].
      apply Matches_marker_to_end. now exists post.
Qed.

(* ================================================================== *)
(** * The endpoints around the cache                                   *)
(* ================================================================== *)

(** A lookup that returns nothing has written nothing. *)
Lemma lookup_without_result_keeps_items (input : CodeContextInput.t) (w : World) :
  fst (getCachedSuggestion input w) = Returned None ->
  items (snd (getCachedSuggestion input w)) = items w.
Proof.
  unfold getCachedSuggestion, try_catch.
  pose proof (lookupBody_outcome input w) as O.
  destruct (lookupBody input w) as [o w0].
  inversion O as [w1 C M I F | w1 C M I Sel | w1 b C M I Sel]; subst; cbn;
    try discriminate; intros _; assumption.
Qed.

Lemma cacheSuggestion_returns (input : CodeContextInput.t) (text : string) (w : World) :
  fst (cacheSuggestion input text w) = Returned tt.
Proof.
  unfold cacheSuggestion, try_catch.
  destruct (cacheBody input text w) as [[[] |] w']; reflexivity.
Qed.

Section CodeRequests.

Import Http.

Variable detectLanguage : string -> option string -> string.
Variable detectFramework : string -> string.
Variable buildPrompt : string -> Z -> Z -> option string -> string -> string.
Variable dedupeImports : string -> string.

(** X23.  A code request that the cache answers is served from the cache
    alone: the response is the cached text as one chunk followed by the
    final event, both flagged as cached, and no prompt is sent to the
    generation backend. *)
Theorem cached_code_request_skips_generation
  (content type text : string) (line column : Z) (fileName : option string)
  (w : World) :
  Js.truthy content = true -> Js.truthy type = true ->
  0 <= line -> 0 <= column ->
  fst (getCachedSuggestion (codeInput detectLanguage detectFramework
            content line column type fileName) w)
  = Returned (Some text) ->
  Js.truthy text = true ->
  CodeRoute.POST detectLanguage detectFramework buildPrompt dedupeImports
    (Http.Parsed (CodeRoute.mkBody (Some content) line column (Some type) fileName))
    w
  = (Returned (EventStream [EvChunk text true; EvDone true]),
     snd (getCachedSuggestion (codeInput detectLanguage detectFramework
            content line column type fileName) w))
  /\ generated
       (snd (CodeRoute.POST detectLanguage detectFramework buildPrompt dedupeImports
               (Http.Parsed
                  (CodeRoute.mkBody (Some content) line column (Some type) fileName))
               w))
     = generated w.
Proof.
  intros Tc Tt Pl Pc Hit Tx.
  pose proof (keepsEnv_getCachedSuggestion
                (codeInput detectLanguage detectFramework
            content line column type fileName) w) as Env.
  assert (E : CodeRoute.POST detectLanguage detectFramework buildPrompt dedupeImports
                (Http.Parsed (CodeRoute.mkBody (Some content) line column (Some type) fileName))
    w
              = (Returned (EventStream [EvChunk text true; EvDone true]),
                 snd (getCachedSuggestion
                        (codeInput detectLanguage detectFramework
            content line column type fileName) w))).
  { unfold CodeRoute.POST, try_catch, CodeRoute.respond.
    cbn [CodeRoute.fileContent CodeRoute.suggestionType CodeRoute.cursorLine
         CodeRoute.cursorColumn CodeRoute.fileName].
    unfold Js.truthy in Tc, Tt. apply negb_true_iff in Tc, Tt. rewrite Tc, Tt.
    destruct (line <? 0)%Z eqn:L; [apply Z.ltb_lt in L; lia |].
    destruct (column <? 0)%Z eqn:C; [apply Z.ltb_lt in C; lia |].
    cbn [orb]. unfold CodeRoute.serve, bind.
    fold (codeInput detectLanguage detectFramework
            content line column type fileName).
    destruct (getCachedSuggestion _ w) as [[[c |] |] w1]; cbn [fst snd] in *;
      try discriminate.
    injection Hit as ->. rewrite Tx. reflexivity. }
  split; [exact E |]. rewrite E. cbn [snd]. apply Env.
Qed.

(** The generation of a miss, case by case. *)
Lemma generateAndCache_eq (input : CodeContextInput.t) (prompt : string) (w : World) :
  CodeRoute.generateAndCache dedupeImports input prompt w
  = match backend w prompt with
    | None => (Returned (EventStream [EvError]), with_prompt prompt w)
    | Some chunks =>
        (Returned (EventStream
                     (map (fun c => EvChunk c false) chunks ++ [EvDone false])%list),
         if Js.truthy (Js.trim (String.concat "" chunks))
         then snd (cacheSuggestion input
                     (Js.trim (dedupeImports (Js.trim (String.concat "" chunks))))
                     (with_prompt prompt w))
         else with_prompt prompt w)
    end.
Proof.
  unfold CodeRoute.generateAndCache, fetchGenerate. unfold bind at 1. cbv zeta.
  destruct (backend w prompt) as [chunks |]; [| reflexivity].
  unfold bind.
  destruct (Js.truthy (Js.trim (String.concat "" chunks))); [| reflexivity].
  pose proof (cacheSuggestion_returns input
                (Js.trim (dedupeImports (Js.trim (String.concat "" chunks))))
                (with_prompt prompt w)) as R.
  destruct (cacheSuggestion _ _ (with_prompt prompt w)) as [[[] |] w2];
    cbn [fst] in R; [reflexivity | discriminate].
Qed.

(** X24.  A code request that the cache does not answer and whose
    generation produces nothing leaves the cache as it was.  When the
    request to the backend fails the stream ends with an error; when the
    backend answers, its chunks are relayed and followed by the final
    event, and a text that is blank once trimmed is not written. *)
Theorem fruitless_generation_writes_nothing
  (content type : string) (line column : Z) (fileName : option string) (w : World) :
  Js.truthy content = true -> Js.truthy type = true ->
  0 <= line -> 0 <= column ->
  fst (getCachedSuggestion (codeInput detectLanguage detectFramework
            content line column type fileName) w)
  = Returned None ->
  let reply :=
    CodeRoute.POST detectLanguage detectFramework buildPrompt dedupeImports
      (Http.Parsed (CodeRoute.mkBody (Some content) line column (Some type) fileName))
      w in
  generated (snd reply)
  = buildPrompt content line column fileName type :: generated w
  /\ match backend w (buildPrompt content line column fileName type) with
     | None =>
         fst reply = Returned (EventStream [EvError])
         /\ items (snd reply) = items w
     | Some chunks =>
         (Js.trim (String.concat "" chunks) = "" ->
          fst reply
          = Returned (EventStream
                        (map (fun c => EvChunk c false) chunks ++ [EvDone false])%list)
          /\ items (snd reply) = items w)
     end.
Proof.
  intros Tc Tt Pl Pc Miss reply.
  set (input := codeInput detectLanguage detectFramework
                  content line column type fileName) in *.
  set (prompt := buildPrompt content line column fileName type).
  pose proof (keepsEnv_getCachedSuggestion input w) as Env.
  pose proof (lookup_without_result_keeps_items _ _ Miss) as I.
  set (w1 := snd (getCachedSuggestion input w)) in *.
  destruct Env as (_ & _ & _ & Bk & Gen & _).
  assert (E : reply
              = CodeRoute.generateAndCache dedupeImports input prompt w1).
  { unfold reply, CodeRoute.POST, try_catch, CodeRoute.respond.
    cbn [CodeRoute.fileContent CodeRoute.suggestionType CodeRoute.cursorLine
         CodeRoute.cursorColumn CodeRoute.fileName].
    unfold Js.truthy in Tc, Tt. apply negb_true_iff in Tc, Tt. rewrite Tc, Tt.
    destruct (line <? 0)%Z eqn:L; [apply Z.ltb_lt in L; lia |].
    destruct (column <? 0)%Z eqn:C; [apply Z.ltb_lt in C; lia |].
    cbn [orb]. unfold CodeRoute.serve, bind.
    change (CodeContextInput.mk content line column (detectLanguage content fileName)
              (detectFramework content) type) with input.
    fold prompt.
    unfold w1. destruct (getCachedSuggestion input w) as [[[c |] |] w0];
      cbn [fst snd] in *; try discriminate.
    rewrite generateAndCache_eq.
    destruct (backend w0 prompt); reflexivity. }
  rewrite E, generateAndCache_eq, Bk. clear E reply.
  destruct (backend w prompt) as [chunks |]; cbn [fst snd].
  - split.
    + destruct (Js.truthy (Js.trim (String.concat "" chunks))).
      * pose proof (keepsEnv_cacheSuggestion input
                      (Js.trim (dedupeImports (Js.trim (String.concat "" chunks))))
                      (with_prompt prompt w1)) as (_ & _ & _ & _ & G2 & _).
        rewrite G2. cbn. now rewrite Gen.
      * cbn. now rewrite Gen.
    + intros Blank. rewrite Blank. cbn. split; [reflexivity | exact I].
  - cbn. split; [now rewrite Gen | split; [reflexivity | exact I]].
Qed.

End CodeRequests.

Lemma cached_code_request_skips_generation_witness :
  fst (getCachedSuggestion
         (codeInput Samples.sampleLanguage Samples.sampleFramework
            "function add(a,b){return " 0 25 "completion" None)
         Samples.sampleWorld)
  = Returned (Some "a + b;")
  /\ generated
       (snd (CodeRoute.POST Samples.sampleLanguage Samples.sampleFramework
               Samples.samplePrompt Samples.sampleDedupe
               (Http.Parsed (CodeRoute.mkBody (Some "function add(a,b){return ") 0 25
                                 (Some "completion") None))
               Samples.sampleWorld))
     = generated Samples.sampleWorld.
Proof.
  assert (H : fst (getCachedSuggestion
                     (codeInput Samples.sampleLanguage Samples.sampleFramework
                        "function add(a,b){return " 0 25 "completion" None)
                     Samples.sampleWorld)
              = Returned (Some "a + b;")) by (vm_compute; reflexivity).
  split; [exact H |].
  apply (cached_code_request_skips_generation
           Samples.sampleLanguage Samples.sampleFramework
           Samples.samplePrompt Samples.sampleDedupe
           "function add(a,b){return " "completion" "a + b;" 0 25 None
           Samples.sampleWorld); try exact H; try reflexivity; try lia.
Defined.

Lemma fruitless_generation_writes_nothing_witness :
  fst (getCachedSuggestion
         (codeInput Samples.sampleLanguage Samples.sampleFramework
            "def main():" 0 11 "completion" None)
         Samples.brokenModelWorld)
  = Returned None
  /\ generated
       (snd (CodeRoute.POST Samples.sampleLanguage Samples.sampleFramework
               Samples.samplePrompt Samples.sampleDedupe
               (Http.Parsed
                  (CodeRoute.mkBody (Some "def main():") 0 11 (Some "completion") None))
               Samples.brokenModelWorld))
     = ["def main():"].
Proof.
  assert (H : fst (getCachedSuggestion
                     (codeInput Samples.sampleLanguage Samples.sampleFramework
                        "def main():" 0 11 "completion" None)
                     Samples.brokenModelWorld)
              = Returned None) by (vm_compute; reflexivity).
  split; [exact H |].
  apply (fruitless_generation_writes_nothing
           Samples.sampleLanguage Samples.sampleFramework
           Samples.samplePrompt Samples.sampleDedupe
           "def main():" "completion" 0 11 None
           Samples.brokenModelWorld); try exact H; try reflexivity; try lia.
Defined.

(* ================================================================== *)
(** * The chat endpoint                                                *)
(* ================================================================== *)

(** X25.  A chat request without a message, or with an empty one, is
    refused, and nothing is looked up, generated or written.  When the
    body is a JSON value other than [null], the answer has status 400
    and the world is left as it was.  When the body is not JSON, or is
    [null], the answer has status 500 and the error is logged. *)
Theorem invalid_chat_request_is_rejected
  (request : Http.Request ChatRoute.Body) (w : World) :
  match request with
  | Http.Parsed body =>
      ChatRoute.message body = None \/ ChatRoute.message body = Some ""
  | Http.Unparsable | Http.JsonNull => True
  end ->
  ChatRoute.POST request w
  = match request with
    | Http.Parsed _ =>
        (Returned (Http.JsonError 400 "Message is required and must be a string"), w)
    | Http.Unparsable | Http.JsonNull =>
        (Returned (Http.JsonError 500 "Failed to setup streaming"),
         with_error ErrChatSetup w)
    end
  /\ issued (snd (ChatRoute.POST request w)) = issued w
  /\ items (snd (ChatRoute.POST request w)) = items w
  /\ generated (snd (ChatRoute.POST request w)) = generated w.
Proof.
  intros Invalid.
  assert (E : ChatRoute.POST request w
              = match request with
                | Http.Parsed _ =>
                    (Returned (Http.JsonError 400
                                 "Message is required and must be a string"), w)
                | Http.Unparsable | Http.JsonNull =>
                    (Returned (Http.JsonError 500 "Failed to setup streaming"),
                     with_error ErrChatSetup w)
                end).
  { destruct request as [| | body]; try reflexivity.
    unfold ChatRoute.POST, try_catch, ChatRoute.respond.
    destruct Invalid as [H | H]; rewrite H; reflexivity. }
  rewrite E. split; [reflexivity |].
  destruct request; repeat split.
Qed.

Lemma invalid_chat_request_is_rejected_witness :
  ChatRoute.message (ChatRoute.mkBody (Some "") [] (Some "fix")) = Some ""
  /\ ChatRoute.POST (Http.Parsed (ChatRoute.mkBody (Some "") [] (Some "fix")))
       Samples.sampleWorld
     = (Returned (Http.JsonError 400 "Message is required and must be a string"),
        Samples.sampleWorld)
  /\ ChatRoute.POST Http.JsonNull Samples.sampleWorld
     = (Returned (Http.JsonError 500 "Failed to setup streaming"),
        with_error ErrChatSetup Samples.sampleWorld).
Proof.
  split; [reflexivity |]. split.
  - apply (invalid_chat_request_is_rejected
             (Http.Parsed (ChatRoute.mkBody (Some "") [] (Some "fix")))
             Samples.sampleWorld).
    right. reflexivity.
  - apply (invalid_chat_request_is_rejected Http.JsonNull Samples.sampleWorld).
    exact I.
Defined.

Lemma slice_last {A : Type} (n : Z) (xs : list A) :
  0 < n ->
  Js.slice (- n) (Z.of_nat (List.length xs)) xs
  = skipn (List.length xs - Z.to_nat n) xs.
Proof.
  intros Pos. unfold Js.slice, Js.rel_index.
  destruct (- n <? 0)%Z eqn:N; [| apply Z.ltb_ge in N; lia].
  destruct (Z.of_nat (List.length xs) <? 0)%Z eqn:L; [apply Z.ltb_lt in L; lia |].
  rewrite Z.min_id.
  replace (Z.to_nat (Z.max (Z.of_nat (List.length xs) + - n) 0))
    with (List.length xs - Z.to_nat n)%nat by lia.
  apply firstn_all2. rewrite length_skipn. lia.
Qed.


(* ================================================================== *)
(** * The cache test endpoint                                          *)
(* ================================================================== *)

Section CacheTests.

Import CacheTestRoute.

Lemma getCachedSuggestion_returns (input : CodeContextInput.t) (w : World) :
  exists r, fst (getCachedSuggestion input w) = Returned r.
Proof.
  unfold getCachedSuggestion, try_catch.
  destruct (lookupBody input w) as [[r |] w']; now eexists.
Qed.

Lemma lastChar_app (x y : string) :
  y <> "" -> lastChar (x ++ y) = lastChar y.
Proof.
  intros NE. induction x as [| c x IH]; cbn [append lastChar]; [reflexivity |].
  rewrite IH. destruct y as [| d y]; [contradiction |].
  cbn [lastChar]. now destruct (lastChar y).
Qed.

(** The preview of a result is never the text meant for a miss. *)
Lemma preview_spec (cachedResult : option string) :
  preview cachedResult <> "No cache hit"
  /\ (found cachedResult = false -> previewOfNothing (preview cachedResult))
  /\ (found cachedResult = true ->
      exists s, cachedResult = Some s /\ s <> ""
                /\ preview cachedResult = Js.substring 0 50 s ++ "...").
Proof.
  assert (T : forall x, Js.truthy (x ++ "...") = true) by (intros []; reflexivity).
  assert (N : forall x, x ++ "..." <> "No cache hit").
  { intros x E. pose proof (lastChar_app x "..." ltac:(discriminate)) as L.
    rewrite E in L. discriminate. }
  unfold preview, found, previewOfNothing.
  destruct cachedResult as [s |].
  - rewrite T. split; [apply N |]. split.
    + destruct s; [intros _; now right | discriminate].
    + intros F. exists s. repeat split. now destruct s.
  - cbn. split; [discriminate |]. split; [intros _; now left | discriminate].
Qed.

Lemma runTests_spec (cases : list CodeContextInput.t) :
  forall (results : list Tested) (w : World),
  exists more,
    fst (runTests cases results w) = Returned (results ++ more)%list
    /\ map t_testCase more = map CodeContextInput.suggestionType cases
    /\ Forall (fun r => t_suggestion r <> "No cache hit"
                        /\ (t_cached r = false -> previewOfNothing (t_suggestion r)))
              more.
Proof.
  induction cases as [| testCase rest IH]; intros results w.
  - exists []. cbn. rewrite app_nil_r. repeat split. constructor.
  - cbn [runTests]. unfold bind at 1. unfold Date_now at 1. unfold bind at 1.
    destruct (getCachedSuggestion_returns testCase w) as (r & R).
    destruct (getCachedSuggestion testCase w) as [[r' |] w1]; cbn [fst] in R;
      [| discriminate].
    unfold bind at 1. unfold Date_now at 1.
    set (this := mkTested (CodeContextInput.suggestionType testCase) (found r')
                          (clock w1 - clock w) (preview r')).
    destruct (IH (results ++ [this])%list w1) as (more & E & Names & All).
    exists (this :: more). rewrite E, <- app_assoc. split; [reflexivity |].
    split; [cbn [map]; now rewrite Names |].
    constructor; [| exact All].
    destruct (preview_spec r') as (P1 & P2 & _). cbn. split; [exact P1 | exact P2].
Qed.

Lemma cacheSuggestion_unreachable (input : CodeContextInput.t) (text : string)
  (w : World) :
  failsNext w = true ->
  cacheSuggestion input text w
  = (Returned tt, with_error ErrCaching (with_command CmdConnect w)).
Proof.
  intros F. unfold cacheSuggestion, try_catch, cacheBody, getRedisClient.
  unfold bind at 1. rewrite command_eq, F. reflexivity.
Qed.

Lemma populate_spec (cases : list CodeContextInput.t) :
  forall (results : list Populated) (w : World),
    fst (populate cases results w)
    = Returned (results
                ++ map (fun c => mkPopulated true (CodeContextInput.suggestionType c))
                       cases)%list.
Proof.
  induction cases as [| testCase rest IH]; intros results w.
  - cbn. now rewrite app_nil_r.
  - cbn [populate]. unfold bind at 1.
    pose proof (cacheSuggestion_returns testCase (suggestionFor testCase) w) as R.
    destruct (cacheSuggestion testCase (suggestionFor testCase) w) as [[[] |] w1];
      cbn [fst] in R; [| discriminate].
    rewrite IH, <- app_assoc. reflexivity.
Qed.

Lemma populate_unreachable (cases : list CodeContextInput.t) :
  forall (results : list Populated) (w : World),
    (exists rest, faults w = (repeat true (List.length cases) ++ rest)%list) ->
    items (snd (populate cases results w)) = items w.
Proof.
  induction cases as [| testCase rest IH]; intros results w (more & F).
  - reflexivity.
  - cbn [populate]. unfold bind at 1.
    rewrite cacheSuggestion_unreachable
      by (unfold failsNext; rewrite F; reflexivity).
    rewrite IH; [reflexivity |].
    exists more. cbn. rewrite F. reflexivity.
Qed.

End CacheTests.

(** X27.  The action "test" of the cache test endpoint looks up the four
    test cases and always answers.  The suggestion it shows is never the
    text "No cache hit": for a lookup without result it is the text
    "undefined...", or "..." when the cache returned an empty string. *)
Theorem cache_test_never_reports_no_hit (w : World) :
  match CacheTestRoute.POST (CacheTestRoute.Action (Some "test")) w with
  | (Returned (CacheTestRoute.TestDone results), _) =>
      map CacheTestRoute.t_testCase results
      = ["code_completion"; "code_completion"; "chat_general"; "chat_review"]
      /\ Forall (fun r =>
                   CacheTestRoute.t_suggestion r <> "No cache hit"
                   /\ (CacheTestRoute.t_cached r = false ->
                       previewOfNothing (CacheTestRoute.t_suggestion r)))
                results
  | _ => False
  end.
Proof.
  unfold CacheTestRoute.POST, try_catch. cbn [String.eqb Ascii.eqb Bool.eqb].
  unfold bind.
  destruct (runTests_spec CacheTestRoute.testCases [] w) as (more & E & Names & All).
  destruct (CacheTestRoute.runTests CacheTestRoute.testCases [] w) as [[rs |] w'];
    cbn [fst] in E; [| discriminate].
  injection E as ->. cbn [app ret]. split; [exact Names | exact All].
Qed.

(** X28.  The action "populate" reports every test case as cached,
    whatever happened to the writes: the cache swallows its failures,
    and the endpoint does not look at the outcome.  When the store
    rejects the connection of each of the four writes, the answer is the
    same and the store holds what it held before. *)
Theorem populate_always_reports_success (w : World) :
  match CacheTestRoute.POST (CacheTestRoute.Action (Some "populate")) w with
  | (Returned (CacheTestRoute.PopulateDone results), w') =>
      results = [ CacheTestRoute.mkPopulated true "code_completion";
                  CacheTestRoute.mkPopulated true "code_completion";
                  CacheTestRoute.mkPopulated true "chat_general";
                  CacheTestRoute.mkPopulated true "chat_review" ]
      /\ ((exists rest, faults w = true :: true :: true :: true :: rest) ->
          items w' = items w)
  | _ => False
  end.
Proof.
  unfold CacheTestRoute.POST, try_catch. cbn [String.eqb Ascii.eqb Bool.eqb].
  unfold bind.
  pose proof (populate_spec CacheTestRoute.testCases [] w) as E.
  pose proof (populate_unreachable CacheTestRoute.testCases [] w) as U.
  destruct (CacheTestRoute.populate CacheTestRoute.testCases [] w) as [[rs |] w'];
    cbn [fst snd] in *; [| discriminate].
  injection E as ->. cbn [ret]. split; [reflexivity |].
  intros (rest & F). apply U. exists rest. exact F.
Qed.

(* ================================================================== *)
(** * The context builders                                             *)
(* ================================================================== *)

Lemma slice_map {A B : Type} (f : A -> B) (lo hi : Z) (xs : list A) :
  Js.slice lo hi (map f xs) = map f (Js.slice lo hi xs).
Proof.
  unfold Js.slice. rewrite length_map, skipn_map, firstn_map. reflexivity.
Qed.

Lemma substring_whole (t : string) : String.substring 0 (String.length t) t = t.
Proof. induction t as [| c t IH]; cbn; [reflexivity | now rewrite IH]. Qed.

Lemma substring_prefix_length (n : nat) (s : string) :
  (n <= String.length s)%nat -> String.length (String.substring 0 n s) = n.
Proof.
  revert n. induction s as [| c s IH]; intros [| n] H; cbn in *; try lia.
  rewrite IH; lia.
Qed.

Lemma clip_clip (s : string) :
  Js.substring 0 200 (Js.substring 0 200 s) = Js.substring 0 200 s.
Proof.
  unfold Js.substring at 1 3. unfold Js.clamp, Js.strlen.
  set (t := Js.substring 0 200 s).
  assert (L : (String.length t <= 200)%nat).
  { unfold t, Js.substring. eapply Nat.le_trans; [apply substring_length_le |].
    unfold Js.clamp. lia. }
  replace (Z.to_nat (Z.min (Z.max 0 (Z.min 0 (Z.of_nat (String.length t))))
                           (Z.max 0 (Z.min 200 (Z.of_nat (String.length t))))))
    with 0%nat by lia.
  replace (Z.to_nat (Z.max (Z.max 0 (Z.min 0 (Z.of_nat (String.length t))))
                           (Z.max 0 (Z.min 200 (Z.of_nat (String.length t))))
                     - Z.min (Z.max 0 (Z.min 0 (Z.of_nat (String.length t))))
                             (Z.max 0 (Z.min 200 (Z.of_nat (String.length t))))))
    with (String.length t) by lia.
  apply substring_whole.
Qed.

(** X29.  The chat context reads the history through a keyhole: only its
    last three turns count, and of each turn only the first 200
    characters.  Turns before the last three, and what follows the
    200th character of a turn, change nothing. *)
Theorem createChatContext_recent_turns
  (message mode : string) (older recent : list ChatMessage) :
  List.length recent = 3%nat ->
  createChatContext message mode (older ++ recent)
  = createChatContext message mode recent
  /\ createChatContext message mode (map clipTurn recent)
     = createChatContext message mode recent.
Proof.
  intros Three. unfold createChatContext.
  assert (S : forall l : list ChatMessage,
             Js.slice (-3) (Z.of_nat (List.length l)) l
             = skipn (List.length l - 3) l).
  { intros l. pose proof (slice_last 3 l ltac:(lia)) as H. cbn [Z.opp] in H.
    exact H. }
  split.
  - rewrite !S. rewrite length_app, Three.
    replace (List.length older + 3 - 3)%nat with (List.length older + 0)%nat by lia.
    rewrite skipn_app, Nat.add_0_r, skipn_all. cbn [app].
    replace (List.length older - List.length older)%nat with 0%nat by lia.
    reflexivity.
  - rewrite length_map, slice_map, map_map. do 3 f_equal.
    apply map_ext. intros msg. unfold clipTurn. cbn [role content].
    now rewrite clip_clip.
Qed.

Lemma createChatContext_recent_turns_witness :
  createChatContext "and now?" "chat"
    [ mkChatMessage "user" "first"; mkChatMessage "assistant" "second";
      mkChatMessage "user" "third"; mkChatMessage "assistant" "fourth" ]
  = createChatContext "and now?" "chat"
      [ mkChatMessage "assistant" "second";
        mkChatMessage "user" "third"; mkChatMessage "assistant" "fourth" ].
Proof.
  apply (createChatContext_recent_turns "and now?" "chat"
           [mkChatMessage "user" "first"]
           [ mkChatMessage "assistant" "second";
             mkChatMessage "user" "third"; mkChatMessage "assistant" "fourth" ]).
  reflexivity.
Defined.

(** X30.  For a cursor five lines or more past the end of the file the
    code context holds no line of the file: it is the same for every
    file that short, and depends only on the language, the framework and
    the position of the cursor. *)
Theorem createCodeContext_past_the_end
  (fileContent : string) (cursorLine cursorColumn : Z) (language framework : string) :
  Z.of_nat (List.length (Js.split_lines fileContent)) + 5 <= cursorLine ->
  createCodeContext fileContent cursorLine cursorColumn language framework
  = Js.join_lines
      [ "Language: " ++ language; "Framework: " ++ framework; "Context:";
        "Cursor at line " ++ Js.show cursorLine ++ ", column " ++ Js.show cursorColumn;
        "Current line: " ].
Proof.
  intros Far. unfold createCodeContext, contextRadius.
  set (lines := Js.split_lines fileContent) in *.
  assert (W : Js.slice (Z.max 0 (cursorLine - 5))
                (Z.min (Z.of_nat (List.length lines)) (cursorLine + 5)) lines = []).
  { unfold Js.slice, Js.rel_index.
    destruct (Z.max 0 (cursorLine - 5) <? 0)%Z eqn:A; [apply Z.ltb_lt in A; lia |].
    destruct (Z.min (Z.of_nat (List.length lines)) (cursorLine + 5) <? 0)%Z eqn:B;
      [apply Z.ltb_lt in B; lia |].
    replace (Z.to_nat _) with 0%nat by lia. reflexivity. }
  rewrite W.
  assert (I : Js.index lines cursorLine = None).
  { unfold Js.index. destruct (cursorLine <? 0)%Z; [reflexivity |].
    apply nth_error_None. lia. }
  rewrite I. reflexivity.
Qed.

Lemma createCodeContext_past_the_end_witness :
  createCodeContext Samples.twelveLines 40 3 "Python" "None"
  = createCodeContext "pass" 40 3 "Python" "None".
Proof.
  rewrite (createCodeContext_past_the_end Samples.twelveLines 40 3 "Python" "None")
    by (vm_compute; discriminate).
  rewrite (createCodeContext_past_the_end "pass" 40 3 "Python" "None")
    by (vm_compute; discriminate).
  reflexivity.
Defined.

Lemma sampleItems_wellKeyed : wellKeyed Samples.sampleItems.
Proof.
  intros it e Hin V. unfold Samples.sampleItems in Hin. cbn [In] in Hin.
  repeat (destruct Hin as [<- | Hin];
          [cbn in V; try discriminate; injection V as <-; repeat split |]).
  contradiction.
Qed.

Lemma candidates_share_category_witness :
  stringmatch Samples.sampleWorld = globMatch
  /\ noColon (CodeContextInput.language Samples.addInput) = true
  /\ noColon (CodeContextInput.framework Samples.addInput) = true
  /\ plainText (CodeContextInput.language Samples.addInput) = true
  /\ plainText (CodeContextInput.framework Samples.addInput) = true
  /\ In ("code_suggestion:JavaScript:None:2_b", Samples.entryPlus)
        (candidates Samples.sampleWorld Samples.addInput)
  /\ language Samples.entryPlus = CodeContextInput.language Samples.addInput
  /\ framework Samples.entryPlus = CodeContextInput.framework Samples.addInput.
Proof.
  assert (H : In ("code_suggestion:JavaScript:None:2_b", Samples.entryPlus)
                 (candidates Samples.sampleWorld Samples.addInput))
    by (vm_compute; right; left; reflexivity).
  split; [reflexivity |]. split; [reflexivity |]. split; [reflexivity |].
  split; [reflexivity |]. split; [reflexivity |].
  split; [exact H |].
  exact (candidates_share_category Samples.addInput Samples.sampleWorld
           "code_suggestion:JavaScript:None:2_b" Samples.entryPlus
           eq_refl sampleItems_wellKeyed eq_refl eq_refl eq_refl eq_refl H).
Defined.

Lemma createCodeContext_window_witness :
  0 <= 5 < Z.of_nat (List.length (Js.split_lines Samples.twelveLines))
  /\ exists window currentLine,
       createCodeContext Samples.twelveLines 5 0 "JavaScript" "None"
       = Js.join_lines
           ([ "Language: JavaScript"; "Framework: None"; "Context:" ]
            ++ window
            ++ [ "Cursor at line 5, column 0"; "Current line: " ++ currentLine ])
       /\ Z.of_nat (List.length window) = 10.
Proof.
  assert (H : 0 <= 5 < Z.of_nat (List.length (Js.split_lines Samples.twelveLines)))
    by (vm_compute; split; [discriminate | reflexivity]).
  split; [exact H |].
  destruct (createCodeContext_window Samples.twelveLines 5 0 "JavaScript" "None" H)
    as (window & currentLine & E & _ & L & _).
  exists window, currentLine. split; [exact E | exact L].
Defined.

Lemma generateCacheId_shape_witness :
  0 <= CodeContextInput.cursorLine Samples.inputOne
  /\ exists piece,
       generateCacheId 1700000000000 Samples.inputOne
       = Js.show 1700000000000 ++ "_"
           ++ simpleHash (piece ++ CodeContextInput.suggestionType Samples.inputOne)
       /\ (String.length piece <= 5)%nat.
Proof.
  assert (H : 0 <= CodeContextInput.cursorLine Samples.inputOne)
    by (vm_compute; discriminate).
  split; [exact H |].
  destruct (generateCacheId_shape 1700000000000 Samples.inputOne H)
    as (piece & E & _ & L).
  exists piece. split; [exact E | exact L].
Defined.

Lemma empty_code_request_is_rejected_witness :
  CodeRoute.fileContent (CodeRoute.mkBody (Some "") 0 0 (Some "completion") None)
  = Some ""
  /\ CodeRoute.POST Samples.sampleLanguage Samples.sampleFramework
       Samples.samplePrompt Samples.sampleDedupe
       (Http.Parsed (CodeRoute.mkBody (Some "") 0 0 (Some "completion") None))
       Samples.sampleWorld
     = (Returned (Http.JsonError 400 "Invalid input parameters"), Samples.sampleWorld).
Proof.
  split; [reflexivity |].
  apply (empty_code_request_is_rejected Samples.sampleLanguage
           Samples.sampleFramework Samples.samplePrompt Samples.sampleDedupe
           (CodeRoute.mkBody (Some "") 0 0 (Some "completion") None)
           Samples.sampleWorld).
  left. reflexivity.
Defined.
